(** * raven-md-editor: the server-side MMD index and the context assembler

    A shallow embedding of
      - [src/app/api/utils/mmdIndex.ts]  (class [MMDIndexServer], [getMMDIndex]),
      - [src/app/api/edit/route.ts]      ([extractIntent], [findRelevantSections],
                                          [getRelevantContext]),
      - the client-side index ([class MMDIndex], [findAllOccurrences]),
    followed by the properties proved about them.

    Conventions of the embedding.
      - A JavaScript string is the list of its UTF-16 code units ([list N]);
        [length] is [String.prototype.length].
      - A JavaScript [number] that holds an index, a count or a page number is
        a [Z].  The two products [maxChars * 0.7] and [maxChars * 0.3] are
        computed in IEEE-754 binary64 with the Standard Library's [SpecFloat].
      - [toLowerCase] and the case folding of the [i] flag are tabulated for
        U+0000..U+00FF; code units above U+00FF are left unchanged.
      - [Map<string, number[]>] is a [gmap]; [Set<number>] is the list of its
        elements in insertion order.
      - Regular expressions are values of [regex], run by a backtracking
        matcher with the leftmost, greedy semantics of [RegExp]. *)

From Stdlib Require Import ZArith NArith List Lia Bool Ascii.
From Stdlib Require Import Floats.SpecFloat.
From stdpp Require Import gmap list strings sorting.

Local Open Scope Z_scope.

(** ** Strings *)

Module Js.

(** An ASCII literal of the source, as code units. *)
Fixpoint lit (s : string) : list N :=
  match s with
  | EmptyString => []
  | String a s' => N_of_ascii a :: lit s'
  end.

Definition nl : list N := [10%N].
Definition backslash : N := 92%N.

Definition between (lo hi c : N) : bool := (lo <=? c)%N && (c <=? hi)%N.

(** [\d], [\w] and [\s] of a RegExp without the [u] flag. *)
Definition isDigit (c : N) : bool := between 48 57 c.

Definition isWordChar (c : N) : bool :=
  between 97 122 c || between 65 90 c || isDigit c || (c =? 95)%N.

Definition isLineTerminator (c : N) : bool :=
  (c =? 10)%N || (c =? 13)%N || (c =? 8232)%N || (c =? 8233)%N.

(** WhiteSpace and LineTerminator: what [\s] matches and [trim] strips. *)
Definition isSpace (c : N) : bool :=
  between 9 13 c || (c =? 32)%N || (c =? 160)%N || (c =? 5760)%N
  || between 8192 8202 c || (c =? 8232)%N || (c =? 8233)%N
  || (c =? 8239)%N || (c =? 8287)%N || (c =? 12288)%N || (c =? 65279)%N.

Definition lowerUnit (c : N) : N :=
  if between 65 90 c then (c + 32)%N
  else if between 192 222 c && negb (c =? 215)%N then (c + 32)%N
  else c.

Definition toLowerCase (s : list N) : list N := map lowerUnit s.

(** Canonicalize of the [i] flag: the upper-case mapping, kept only when it
    is a single code unit and does not send a non-ASCII unit into ASCII. *)
Definition canonUnit (c : N) : N :=
  if between 97 122 c then (c - 32)%N
  else if between 224 254 c && negb (c =? 247)%N then (c - 32)%N
  else if (c =? 181)%N then 924%N
  else if (c =? 255)%N then 376%N
  else c.

Fixpoint dropSpace (s : list N) : list N :=
  match s with
  | c :: s' => if isSpace c then dropSpace s' else s
  | [] => []
  end.

Definition trim (s : list N) : list N :=
  reverse (dropSpace (reverse (dropSpace s))).

(** [ToIntegerOrInfinity] followed by the clamp of [substring]. *)
Definition clampIdx (n : nat) (i : Z) : nat :=
  Z.to_nat (Z.min (Z.max i 0) (Z.of_nat n)).

(** [s.substring(a, b)]: both ends clamped to [0, length], swapped if needed. *)
Definition substring (s : list N) (a b : Z) : list N :=
  let a' := clampIdx (length s) a in
  let b' := clampIdx (length s) b in
  take (Nat.max a' b' - Nat.min a' b') (drop (Nat.min a' b') s).

(** [s.substring(a)]. *)
Definition substringFrom (s : list N) (a : Z) : list N :=
  substring s a (Z.of_nat (length s)).

Fixpoint isPrefix (p s : list N) : bool :=
  match p, s with
  | [], _ => true
  | _ :: _, [] => false
  | a :: p', b :: s' => (a =? b)%N && isPrefix p' s'
  end.

(** The offset of the first occurrence of [p] in [s]. *)
Fixpoint search (p s : list N) {struct s} : option nat :=
  if isPrefix p s then Some 0%nat
  else match s with
       | [] => None
       | _ :: s' => S <$> search p s'
       end.

(** [s.indexOf(p)]. *)
Definition indexOf (s p : list N) : Z :=
  match search p s with
  | Some i => Z.of_nat i
  | None => -1
  end.

(** [s.includes(p)]. *)
Definition includes (s p : list N) : bool :=
  match search p s with
  | Some _ => true
  | None => false
  end.

(** [a.slice(from, to)] of an array: negative ends count from the back. *)
Definition relIdx (n : nat) (i : Z) : nat :=
  if i <? 0 then Z.to_nat (Z.max (Z.of_nat n + i) 0)
  else Z.to_nat (Z.min i (Z.of_nat n)).

Definition slice {A} (l : list A) (from to : Z) : list A :=
  let a := relIdx (length l) from in
  let b := relIdx (length l) to in
  take (b - a) (drop a l).

(** [parts.join(sep)]. *)
Fixpoint join (sep : list N) (parts : list (list N)) : list N :=
  match parts with
  | [] => []
  | [p] => p
  | p :: rest => p ++ sep ++ join sep rest
  end.

(** The decimal rendering of an integer inside a template literal. *)
Fixpoint digitsOf (fuel : nat) (n : N) (acc : list N) : list N :=
  match fuel with
  | O => acc
  | S fuel' =>
      let acc' := (48 + n mod 10)%N :: acc in
      if (n <? 10)%N then acc' else digitsOf fuel' (n / 10)%N acc'
  end.

Definition numToString (z : Z) : list N :=
  let n := Z.to_N (Z.abs z) in
  let ds := digitsOf (S (N.to_nat (N.log2 n))) n [] in
  if z <? 0 then 45%N :: ds else ds.

(** [new Set<number>()] with [add]: insertion order, no duplicates. *)
Definition inZ (x : Z) (l : list Z) : bool := existsb (Z.eqb x) l.

Definition setAdd (s : list Z) (x : Z) : list Z :=
  if inZ x s then s else s ++ [x].

Definition setAddAll (s : list Z) (xs : list Z) : list Z := fold_left setAdd xs s.

(** [a.sort((x, y) => key(x) - key(y))]: a stable sort by an integer key
    (an element goes in front of the later elements with the same key). *)
Section Sort.
Context {A : Type} (key : A -> Z).

Fixpoint insertSorted (x : A) (l : list A) : list A :=
  match l with
  | [] => [x]
  | y :: l' => if key y <? key x then y :: insertSorted x l' else x :: l
  end.

Definition sortBy (l : list A) : list A := foldr insertSorted [] l.

(** The order in which [sortBy] leaves its result. *)
Definition keyLe (a b : A) : Prop := key a <= key b.
End Sort.

Definition sortNum : list Z -> list Z := sortBy id.

(** ** Double-precision products

    [mulDouble z c] is the binary64 product of the integer [z] with the
    constant [c]; [floorDouble] is [Math.floor] of a finite double and
    [gtDouble n x] is the comparison [n > x] of an integer with a double. *)

Definition ofZDouble (z : Z) : spec_float := binary_normalize 53 1024 z 0 false.

Definition mulDouble (z : Z) (c : spec_float) : spec_float :=
  SFmul 53 1024 (ofZDouble z) c.

(** The literals [0.7] and [0.3]. *)
Definition d0_7 : spec_float := S754_finite false 6305039478318694 (-53).
Definition d0_3 : spec_float := S754_finite false 5404319552844595 (-54).

Definition floorDouble (x : spec_float) : Z :=
  match x with
  | S754_finite s m e =>
      let v := if s then Z.neg m else Z.pos m in
      if 0 <=? e then v * 2 ^ e else v / 2 ^ (- e)
  | _ => 0
  end.

Definition gtDouble (n : Z) (x : spec_float) : bool :=
  match SFcompare (ofZDouble n) x with
  | Some Gt => true
  | _ => false
  end.

End Js.

(** ** Regular expressions

    The fragment of RegExp syntax the sources use.  [rmatch] is the
    backtracking matcher of the language specification written in
    continuation-passing style: alternatives are tried left to right, a star
    is greedy and gives up an iteration that consumed nothing. *)

Module Re.

Inductive regex : Type :=
| REmpty                      (* the empty pattern *)
| RSet (p : N -> bool)        (* one code unit: a literal, a class, a dot *)
| RSeq (r1 r2 : regex)
| RAlt (r1 r2 : regex)
| RStar (r : regex)
| RGroup (r : regex)          (* a capturing group *)
| RBol                        (* ^ *)
| REol                        (* $ *)
| RWordB.                     (* \b *)

(** What a successful match leaves: the rest of the input and the captures. *)
Definition outcome : Type := list N * list (list N).

Definition isWordOpt (c : option N) : bool :=
  match c with
  | Some c => Js.isWordChar c
  | None => false
  end.

Fixpoint rmatch (r : regex) (prev : option N) (s : list N) (caps : list (list N))
    (k : option N -> list N -> list (list N) -> option outcome) : option outcome :=
  match r with
  | REmpty => k prev s caps
  | RSet p =>
      match s with
      | c :: s' => if p c then k (Some c) s' caps else None
      | [] => None
      end
  | RSeq r1 r2 =>
      rmatch r1 prev s caps (fun prev' s' caps' => rmatch r2 prev' s' caps' k)
  | RAlt r1 r2 =>
      match rmatch r1 prev s caps k with
      | Some o => Some o
      | None => rmatch r2 prev s caps k
      end
  | RStar r1 =>
      (fix loop (n : nat) (prev : option N) (s : list N) (caps : list (list N))
         : option outcome :=
         match n with
         | O => k prev s caps
         | S n' =>
             match rmatch r1 prev s caps
                     (fun prev' s' caps' =>
                        if (length s' <? length s)%nat
                        then loop n' prev' s' caps' else None) with
             | Some o => Some o
             | None => k prev s caps
             end
         end) (length s) prev s caps
  | RGroup r1 =>
      rmatch r1 prev s caps
        (fun prev' s' caps' =>
           k prev' s' (caps' ++ [take (length s - length s') s]))
  | RBol => match prev with None => k prev s caps | Some _ => None end
  | REol => match s with [] => k prev s caps | _ :: _ => None end
  | RWordB =>
      if xorb (isWordOpt prev) (isWordOpt (head s)) then k prev s caps else None
  end.

Definition accept : option N -> list N -> list (list N) -> option outcome :=
  fun _ s caps => Some (s, caps).

(** One match found by [exec]: the skipped prefix, the matched text, the
    rest of the input and the captured groups. *)
Record found : Type := Found {
  skipped : list N;
  matched : list N;
  rest : list N;
  groups : list (list N)
}.

(** [r.exec(s)]: the leftmost start at which [r] matches. *)
Fixpoint exec (r : regex) (prev : option N) (s : list N) {struct s} : option found :=
  match rmatch r prev s [] accept with
  | Some (s', caps) => Some (Found [] (take (length s - length s') s) s' caps)
  | None =>
      match s with
      | [] => None
      | c :: s1 =>
          match exec r (Some c) s1 with
          | Some f => Some (Found (c :: skipped f) (matched f) (rest f) (groups f))
          | None => None
          end
      end
  end.

(** [r.test(s)]. *)
Definition test (r : regex) (s : list N) : bool :=
  match exec r None s with
  | Some _ => true
  | None => false
  end.

(** The first capture of [s.match(r)] for a RegExp without the [g] flag. *)
Definition capture1 (r : regex) (s : list N) : option (list N) :=
  match exec r None s with
  | Some f => Some (List.hd [] (groups f))
  | None => None
  end.

Definition lastOpt (prev : option N) (s : list N) : option N :=
  match last s with
  | Some c => Some c
  | None => prev
  end.

(** The successive matches of a RegExp with the [g] flag: after a match the
    search resumes at its end, one unit further when it was empty. *)
Fixpoint scan (fuel : nat) (r : regex) (prev : option N) (s : list N) : list found :=
  match fuel with
  | O => []
  | S fuel' =>
      match exec r prev s with
      | None => []
      | Some f =>
          let prev' := lastOpt prev (skipped f ++ matched f) in
          match matched f, rest f with
          | [], [] => [f]
          | [], c :: s' =>
              f :: match scan fuel' r (Some c) s' with
                   | [] => []
                   | g :: gs =>
                       Found (c :: skipped g) (matched g) (rest g) (groups g) :: gs
                   end
          | _ :: _, _ => f :: scan fuel' r prev' (rest f)
          end
      end
  end.

Definition matches (r : regex) (s : list N) : list found :=
  scan (S (length s)) r None s.

(** [s.match(r)] with the [g] flag ([null] is the empty list). *)
Definition matchAll (r : regex) (s : list N) : list (list N) :=
  map matched (matches r s).

(** [s.replace(r, by)] with the [g] flag, [by] computed from the match. *)
Fixpoint rebuild (by_ : list N -> list N) (fs : list found) (tail : list N) : list N :=
  match fs with
  | [] => tail
  | f :: fs' => skipped f ++ by_ (matched f) ++ rebuild by_ fs' (rest f)
  end.

Definition replaceAll (r : regex) (by_ : list N -> list N) (s : list N) : list N :=
  rebuild by_ (matches r s) s.

(** [s.split(r)] for a separator that cannot match the empty string. *)
Fixpoint pieces (fs : list found) (tail : list N) : list (list N) :=
  match fs with
  | [] => [tail]
  | f :: fs' => skipped f :: pieces fs' (rest f)
  end.

Definition split (r : regex) (s : list N) : list (list N) :=
  pieces (matches r s) s.

(** *** Pattern constructors *)

Definition chr (c : N) : regex := RSet (N.eqb c).
Definition chrI (c : N) : regex := RSet (fun x => (Js.canonUnit x =? Js.canonUnit c)%N).
Definition notIn (cs : list N) : regex := RSet (fun x => negb (existsb (N.eqb x) cs)).
Definition oneOf (cs : list N) : regex := RSet (fun x => existsb (N.eqb x) cs).
Definition dot : regex := RSet (fun x => negb (Js.isLineTerminator x)).
Definition digit : regex := RSet Js.isDigit.
Definition word : regex := RSet Js.isWordChar.
Definition space : regex := RSet Js.isSpace.

Definition plus (r : regex) : regex := RSeq r (RStar r).
Definition opt (r : regex) : regex := RAlt r REmpty.

Fixpoint seqs (rs : list regex) : regex :=
  match rs with
  | [] => REmpty
  | [r] => r
  | r :: rs' => RSeq r (seqs rs')
  end.

Fixpoint alts (rs : list regex) : regex :=
  match rs with
  | [] => RSet (fun _ => false)
  | [r] => r
  | r :: rs' => RAlt r (alts rs')
  end.

(** A run of literal code units, and the same under the [i] flag. *)
Definition str (s : list N) : regex := seqs (map chr s).
Definition strI (s : list N) : regex := seqs (map chrI s).

(** [r{lo,}] and [r{0,n}]. *)
Fixpoint atLeast (lo : nat) (r : regex) : regex :=
  match lo with
  | O => RStar r
  | S lo' => RSeq r (atLeast lo' r)
  end.

Fixpoint upTo (n : nat) (r : regex) : regex :=
  match n with
  | O => REmpty
  | S n' => opt (RSeq r (upTo n' r))
  end.

(** A lower bound on the number of code units a match consumes. *)
Fixpoint minLen (r : regex) : nat :=
  match r with
  | RSet _ => 1
  | RSeq r1 r2 => minLen r1 + minLen r2
  | RAlt r1 r2 => Nat.min (minLen r1) (minLen r2)
  | RGroup r1 => minLen r1
  | REmpty | RStar _ | RBol | REol | RWordB => 0
  end.

(** What [rmatch] returns comes from its continuation, called on an input
    shorter by at least [minLen r]. *)
Definition passes (r : regex) : Prop :=
  forall prev s caps k o,
    rmatch r prev s caps k = Some o ->
    exists prev' s' caps',
      k prev' s' caps' = Some o /\ (length s' + minLen r <= length s)%nat.

End Re.

(** ** The transcript and the index ([mmdIndex.ts]) *)

(** [MMDLine]; the optional [region] is never read by the index. *)
Record MMDLine : Type := { text : list N; line : Z; column : Z }.

Record MMDPage : Type := { image_id : list N; page : Z; lines : list MMDLine }.

Record MMDLinesData : Type := { pages : list MMDPage }.

Module Chapter.
Record t : Type := mk { title : list N; lineNum : Z; page : Z }.
End Chapter.

(** An element of the result of [findChapter]: [{...chapter, context}]. *)
Module ChapterHit.
Record t : Type := mk { title : list N; lineNum : Z; page : Z; context : list N }.
End ChapterHit.

(** An element of the result of [findAllOccurrencesWithContext]. *)
Module Occurrence.
Record t : Type := mk { lineNum : Z; text : list N; page : Z; context : list N }.
End Occurrence.

Module Structure.
Record t : Type := mk { chapters : list Chapter.t; totalPages : Z; totalLines : Z }.
End Structure.

Record MMDIndexServer : Type := mkIndex {
  linesData : option MMDLinesData;
  textToLinesMap : gmap (list N) (list Z);
  lineTexts : list (list N);
  chapters : list Chapter.t;
  loaded : bool
}.

(** The fields of a freshly constructed [MMDIndexServer]. *)
Definition newIndex : MMDIndexServer := mkIndex None ∅ [] [] false.

(** A method that dereferences an array element throws a [TypeError] when
    the element is [undefined]. *)
Inductive result (A : Type) : Type :=
| Ok (a : A)
| Throw.
Arguments Ok {A} a.
Arguments Throw {A}.

(** *** Patterns of [buildIndex] *)

Definition c_lbrace : N := 123%N.
Definition c_rbrace : N := 125%N.
Definition c_star : N := 42%N.
Definition c_hash : N := 35%N.
Definition c_dquote : N := 34%N.
Definition c_squote : N := 39%N.

(** [/\s+/] *)
Definition reSpaces : Re.regex := Re.plus Re.space.

(** The filter of [buildIndex]: from [^] to [$] one or more of backslash,
    braces, brackets, parentheses, [,] [.] [;] [:] [!] [?] and the two quotes. *)
Definition rePunctOnly : Re.regex :=
  Re.seqs [Re.RBol; Re.plus (Re.oneOf (Js.lit "\{}[](),.;:!?'" ++ [c_dquote])); Re.REol].

(** [/\\section\*?\{[^}]*Chapter/i] *)
Definition reSectionChapter : Re.regex :=
  Re.seqs [Re.strI (Js.lit "\section"); Re.opt (Re.chr c_star); Re.chr c_lbrace;
           Re.RStar (Re.notIn [c_rbrace]); Re.strI (Js.lit "Chapter")].

(** [/\\chapter\*?\{/i] *)
Definition reChapterCmd : Re.regex :=
  Re.seqs [Re.strI (Js.lit "\chapter"); Re.opt (Re.chr c_star); Re.chr c_lbrace].

(** [/^\\section\*?\{/i] *)
Definition reSectionStart : Re.regex :=
  Re.seqs [Re.RBol; Re.strI (Js.lit "\section"); Re.opt (Re.chr c_star); Re.chr c_lbrace].

(** [/Chapter\s+\d+[^}]*\}/i] *)
Definition reChapterNumClose : Re.regex :=
  Re.seqs [Re.strI (Js.lit "Chapter"); Re.plus Re.space; Re.plus Re.digit;
           Re.RStar (Re.notIn [c_rbrace]); Re.chr c_rbrace].

(** [/^#{1,6}\s+Chapter/i] *)
Definition reHashChapter : Re.regex :=
  Re.seqs [Re.RBol; Re.chr c_hash; Re.upTo 5 (Re.chr c_hash); Re.plus Re.space;
           Re.strI (Js.lit "Chapter")].

(** [/\\section\*\{Chapter\s+\d+/] *)
Definition reSectionStarChapterNum : Re.regex :=
  Re.seqs [Re.str (Js.lit "\section*{Chapter"); Re.plus Re.space; Re.plus Re.digit].

(** [/\\section\*?\{/g], [/\}/g], [/\\chapter\*?\{/g], [/\\title\{/g], [/\n/g] *)
Definition reSectionOpen : Re.regex :=
  Re.seqs [Re.str (Js.lit "\section"); Re.opt (Re.chr c_star); Re.chr c_lbrace].
Definition reCloseBrace : Re.regex := Re.chr c_rbrace.
Definition reChapterOpen : Re.regex :=
  Re.seqs [Re.str (Js.lit "\chapter"); Re.opt (Re.chr c_star); Re.chr c_lbrace].
Definition reTitleOpen : Re.regex := Re.str (Js.lit "\title{").
Definition reNewline : Re.regex := Re.chr 10%N.

Definition isChapter (text : list N) : bool :=
  Re.test reSectionChapter text
  || Re.test reChapterCmd text
  || Re.test reSectionStart text
  || Re.test reChapterNumClose text
  || Re.test reHashChapter text
  || Re.test reSectionStarChapterNum text.

Definition remove (r : Re.regex) (s : list N) : list N := Re.replaceAll r (fun _ => []) s.

(** The title extracted from a heading line ([text] is already trimmed). *)
Definition chapterTitle (text : list N) : list N :=
  let title := remove reCloseBrace (remove reSectionOpen text) in
  let title := remove reTitleOpen (remove reChapterOpen title) in
  let title :=
    Re.replaceAll reNewline (fun _ => [32%N]) (Js.substring (Js.trim title) 0 150) in
  match title with
  | [] => Js.substring text 0 150
  | _ :: _ => title
  end.

(** *** [buildIndex] *)

(** The words of a normalized line that are indexed. *)
Definition indexedWords (normalizedText : list N) : list (list N) :=
  Js.slice
    (filter (fun w => (3 <? length w)%nat && negb (Re.test rePunctOnly w))
            (Re.split reSpaces normalizedText))
    0 10.

Definition indexFullText (lineNum : Z) (normalizedText : list N)
    (m : gmap (list N) (list Z)) : gmap (list N) (list Z) :=
  if (length normalizedText <? 200)%nat then
    match m !! normalizedText with
    | None => <[normalizedText := [lineNum]]> m
    | Some existing =>
        if (length existing <? 50)%nat
        then <[normalizedText := existing ++ [lineNum]]> m
        else m
    end
  else m.

Definition indexWord (lineNum : Z) (m : gmap (list N) (list Z)) (word : list N)
    : gmap (list N) (list Z) :=
  match m !! word with
  | None => <[word := [lineNum]]> m
  | Some wordOccurrences =>
      if negb (Js.inZ lineNum wordOccurrences) && (length wordOccurrences <? 100)%nat
      then <[word := wordOccurrences ++ [lineNum]]> m
      else m
  end.

Definition indexLineText (lineNum : Z) (lineText : list N)
    (m : gmap (list N) (list Z)) : gmap (list N) (list Z) :=
  let normalizedText := Js.toLowerCase (Js.trim lineText) in
  if (2 <? length normalizedText)%nat then
    fold_left (indexWord lineNum) (indexedWords normalizedText)
              (indexFullText lineNum normalizedText m)
  else m.

Definition detectChapter (pageNo lineNum : Z) (lineText : list N)
    (chs : list Chapter.t) : list Chapter.t :=
  let text := Js.trim lineText in
  if (5 <? length text)%nat && isChapter text
  then chs ++ [Chapter.mk (chapterTitle text) lineNum pageNo]
  else chs.

(** The body of the inner loop, for one line of the page numbered [pageNo]. *)
Definition buildLine (pageNo : Z) (st : MMDIndexServer) (l : MMDLine) : MMDIndexServer :=
  let lineNum := Z.of_nat (length (lineTexts st)) in
  let lineText := text l in
  mkIndex (linesData st)
          (indexLineText lineNum lineText (textToLinesMap st))
          (lineTexts st ++ [lineText])
          (detectChapter pageNo lineNum lineText (chapters st))
          (loaded st).

Definition buildPage (st : MMDIndexServer) (p : MMDPage) : MMDIndexServer :=
  fold_left (buildLine (page p)) (lines p) st.

Definition buildIndex (st : MMDIndexServer) : MMDIndexServer :=
  match linesData st with
  | None => st
  | Some d =>
      let st1 := fold_left buildPage (pages d) (mkIndex (Some d) ∅ [] [] (loaded st)) in
      mkIndex (linesData st1) (textToLinesMap st1) (lineTexts st1)
              (Js.sortBy Chapter.lineNum (chapters st1)) (loaded st1)
  end.

(** *** [load] and [getMMDIndex]

    [file] is what reading and parsing [mmd_lines_data.json] gives: [None]
    when the file is missing or [JSON.parse] throws. *)

Definition load (file : option MMDLinesData) (st : MMDIndexServer) : MMDIndexServer :=
  if loaded st then st
  else match file with
       | None => st
       | Some d =>
           let st1 := buildIndex (mkIndex (Some d) (textToLinesMap st) (lineTexts st)
                                          (chapters st) (loaded st)) in
           mkIndex (linesData st1) (textToLinesMap st1) (lineTexts st1) (chapters st1) true
       end.

(** The singleton: [instance] is the module variable [mmdIndexInstance]. *)
Definition getMMDIndex (file : option MMDLinesData) (instance : option MMDIndexServer)
    : MMDIndexServer :=
  let inst := match instance with
              | None => load file newIndex
              | Some i => i
              end in
  if loaded inst then inst else load file inst.

Definition unavailable (st : MMDIndexServer) : bool :=
  negb (loaded st) || match linesData st with None => true | Some _ => false end.

(** *** Query methods of [MMDIndexServer] *)

(** The array of all indices [i] with [lineTexts[i].toLowerCase().includes(normalized)],
    in the order of the sequential scan that starts at index [i]. *)
Fixpoint scanLines (normalized : list N) (i : Z) (texts : list (list N)) : list Z :=
  match texts with
  | [] => []
  | t :: texts' =>
      if Js.includes (Js.toLowerCase t) normalized
      then i :: scanLines normalized (i + 1) texts'
      else scanLines normalized (i + 1) texts'
  end.

Definition mapGet (m : gmap (list N) (list Z)) (key : list N) : list Z :=
  match m !! key with
  | Some ls => ls
  | None => []
  end.

Definition findTextLines (st : MMDIndexServer) (text : list N) : list Z :=
  if unavailable st then []
  else
    let normalized := Js.toLowerCase (Js.trim text) in
    (* exact match *)
    let results := Js.setAddAll [] (mapGet (textToLinesMap st) normalized) in
    (* word-based matching *)
    let words := filter (fun w => (2 <? length w)%nat) (Re.split reSpaces normalized) in
    let results :=
      fold_left (fun acc word => Js.setAddAll acc (mapGet (textToLinesMap st) word))
                words results in
    (* sequential search *)
    let results := Js.setAddAll results (scanLines normalized 0 (lineTexts st)) in
    Js.sortNum results.

(** The integers [start], [start + 1], ..., [end_ - 1]. *)
Definition rangeZ (start end_ : Z) : list Z :=
  map (fun i => start + Z.of_nat i) (seq 0 (Z.to_nat (end_ - start))).

(** [this.lineTexts[lineNum]] inside [join]: [undefined] joins as the empty string. *)
Definition lineTextAt (st : MMDIndexServer) (lineNum : Z) : list N :=
  if lineNum <? 0 then []
  else match lineTexts st !! Z.to_nat lineNum with
       | Some t => t
       | None => []
       end.

Definition getContextAroundLines (st : MMDIndexServer) (lineNums : list Z)
    (contextLines : Z) : list N :=
  if unavailable st || (length lineNums =? 0)%nat then []
  else
    let allContextLines :=
      fold_left
        (fun acc lineNum =>
           let start := Z.max 0 (lineNum - contextLines) in
           let end_ := Z.min (Z.of_nat (length (lineTexts st))) (lineNum + contextLines + 1) in
           Js.setAddAll acc (rangeZ start end_))
        (Js.slice lineNums 0 10) [] in
    let sortedLines := Js.sortNum allContextLines in
    Js.join [] (map (lineTextAt st) sortedLines).

(** [/(\d+)/] *)
Definition reNumber : Re.regex := Re.RGroup (Re.plus Re.digit).

(** [/chapter\s+(\d+)/i] *)
Definition reChapterRef : Re.regex :=
  Re.seqs [Re.strI (Js.lit "chapter"); Re.plus Re.space; Re.RGroup (Re.plus Re.digit)].

Definition toHit (st : MMDIndexServer) (c : Chapter.t) : ChapterHit.t :=
  ChapterHit.mk (Chapter.title c) (Chapter.lineNum c) (Chapter.page c)
                (getContextAroundLines st [Chapter.lineNum c] 20).

(** The first loop of [findChapter]: substring match in either direction. *)
Definition titleMatches (normalizedQuery : list N) (c : Chapter.t) : bool :=
  Js.includes (Js.toLowerCase (Chapter.title c)) normalizedQuery
  || Js.includes normalizedQuery (Js.substring (Js.toLowerCase (Chapter.title c)) 0 20).

(** The test of the second loop, for the captured number [num]. *)
Definition numberMatches (num : list N) (c : Chapter.t) : bool :=
  Js.includes (Chapter.title c) (Js.lit "Chapter " ++ num)
  || Js.includes (Chapter.title c) (Js.lit "chapter " ++ num).

Definition alreadyFound (results : list ChapterHit.t) (c : Chapter.t) : bool :=
  existsb (fun r => ChapterHit.lineNum r =? Chapter.lineNum c) results.

Definition findChapter (st : MMDIndexServer) (query : list N) : list ChapterHit.t :=
  if unavailable st then []
  else
    let normalizedQuery := Js.toLowerCase query in
    let results :=
      map (toHit st) (filter (titleMatches normalizedQuery) (chapters st)) in
    match Re.capture1 reNumber query with
    | None => results
    | Some num =>
        fold_left
          (fun results chapter =>
             if numberMatches num chapter && negb (alreadyFound results chapter)
             then results ++ [toHit st chapter]
             else results)
          (chapters st) results
    end.

Definition getDocumentStructure (st : MMDIndexServer) : Structure.t :=
  match linesData st with
  | Some d =>
      if loaded st
      then Structure.mk (chapters st) (Z.of_nat (length (pages d)))
                        (Z.of_nat (length (lineTexts st)))
      else Structure.mk [] 0 0
  | None => Structure.mk [] 0 0
  end.

(** The loop of [getPageForLine]: the first page whose lines end after [lineNum]. *)
Fixpoint pageScan (ps : list MMDPage) (currentLine lineNum : Z) : option Z :=
  match ps with
  | [] => None
  | p :: ps' =>
      let pageLineCount := Z.of_nat (length (lines p)) in
      if lineNum <? currentLine + pageLineCount then Some (page p)
      else pageScan ps' (currentLine + pageLineCount) lineNum
  end.

Definition getPageForLine (st : MMDIndexServer) (lineNum : Z) : Z :=
  match linesData st with
  | Some d =>
      if loaded st then
        match pageScan (pages d) 0 lineNum with
        | Some pg => pg
        | None =>
            (* pages[pages.length - 1]?.page || 1 *)
            match last (pages d) with
            | Some p => if page p =? 0 then 1 else page p
            | None => 1
            end
        end
      else 1
  | None => 1
  end.

(** [Array.from(new Set(lineNums))] *)
Definition uniq (l : list Z) : list Z := Js.setAddAll [] l.

(** The loop of [findAllOccurrencesWithContext]; [this.lineTexts[lineNum]]
    is dereferenced, so an [undefined] element throws. *)
Fixpoint collectOccurrences (st : MMDIndexServer) (lineNums : list Z)
    (results : list Occurrence.t) : result (list Occurrence.t) :=
  match lineNums with
  | [] => Ok results
  | lineNum :: rest =>
      if (0 <=? lineNum) && (lineNum <? Z.of_nat (length (lineTexts st))) then
        let page := getPageForLine st lineNum in
        let context := getContextAroundLines st [lineNum] 8 in
        match lineTexts st !! Z.to_nat lineNum with
        | None => Throw
        | Some t =>
            collectOccurrences st rest
              (results ++ [Occurrence.mk lineNum (Js.substring t 0 200) page
                                          (Js.substring context 0 1000)])
        end
      else collectOccurrences st rest results
  end.

Definition findAllOccurrencesWithContext (st : MMDIndexServer) (text : list N)
    (maxResults : Z) : result (list Occurrence.t) :=
  if unavailable st || (length (Js.trim text) =? 0)%nat then Ok []
  else
    let searchText := Js.toLowerCase (Js.substring (Js.trim text) 0 200) in
    let lineNums := findTextLines st searchText in
    let uniqueLineNums := Js.slice (uniq lineNums) 0 maxResults in
    collectOccurrences st uniqueLineNums [].

Definition isLoaded (st : MMDIndexServer) : bool := loaded st.

(** *** [getEnhancedContext] *)

(** [/\b\w{5,}\b/gi] *)
Definition reLongWord : Re.regex := Re.seqs [Re.RWordB; Re.atLeast 5 Re.word; Re.RWordB].

Definition truthy (selectedText : option (list N)) : option (list N) :=
  match selectedText with
  | Some (c :: s) => Some (c :: s)
  | _ => None
  end.

Definition chapterLine (c : ChapterHit.t) : list N :=
  Js.lit "- Page " ++ Js.numToString (ChapterHit.page c) ++ Js.lit ", Line "
  ++ Js.numToString (ChapterHit.lineNum c) ++ Js.lit ": "
  ++ Js.substring (ChapterHit.title c) 0 60 ++ Js.nl.

Definition occurrenceLine (o : Occurrence.t) : list N :=
  Js.lit "- Page " ++ Js.numToString (Occurrence.page o) ++ Js.lit ", Line "
  ++ Js.numToString (Occurrence.lineNum o) ++ Js.nl.

(** U+26A0 U+FE0F, the warning sign that opens the multiple-occurrence note. *)
Definition warningSign : list N := [9888%N; 65039%N].

Definition lenZ {A} (l : list A) : Z := Z.of_nat (length l).

(** The first [if] of the [try] block: the request mentions a chapter. *)
Definition enhancedChapters (st : MMDIndexServer) (request enhancedInfo : list N) : list N :=
  match Re.capture1 reChapterRef request with
  | None => enhancedInfo
  | Some chapterNum =>
      let chapters := findChapter st (Js.lit "Chapter " ++ chapterNum) in
      if (0 <? lenZ chapters) && (lenZ enhancedInfo <? 1500) then
        let enhancedInfo :=
          enhancedInfo ++ Js.nl ++ Js.nl ++ Js.lit "[Document Structure] Found "
          ++ Js.numToString (lenZ chapters) ++ Js.lit " occurrence(s) of Chapter "
          ++ chapterNum ++ Js.lit ":" ++ Js.nl in
        let enhancedInfo := enhancedInfo ++ concat (map chapterLine (Js.slice chapters 0 5)) in
        if 5 <? lenZ chapters
        then enhancedInfo ++ Js.lit "... and " ++ Js.numToString (lenZ chapters - 5)
             ++ Js.lit " more occurrence(s)" ++ Js.nl
        else enhancedInfo
      else enhancedInfo
  end.

(** The second [if]: a selection shorter than 500 units is located. *)
Definition enhancedSelection (st : MMDIndexServer) (selectedText : option (list N))
    (enhancedInfo : list N) : result (list N) :=
  match truthy selectedText with
  | None => Ok enhancedInfo
  | Some sel =>
      if lenZ (Js.trim sel) <? 500 then
        match findAllOccurrencesWithContext st sel 3 with
        | Throw => Throw
        | Ok occurrences =>
            if (0 <? lenZ occurrences) && (lenZ enhancedInfo <? 1500) then
              let enhancedInfo :=
                enhancedInfo ++ Js.nl ++ Js.nl ++ Js.lit "[Selected Text Location] Found at:"
                ++ Js.nl ++ concat (map occurrenceLine occurrences) in
              Ok (if 1 <? lenZ occurrences
                  then enhancedInfo ++ warningSign ++ Js.lit " IMPORTANT: This text appears "
                       ++ Js.numToString (lenZ occurrences)
                       ++ Js.lit " times. Update ALL occurrences." ++ Js.nl
                  else enhancedInfo)
            else Ok enhancedInfo
        end
      else Ok enhancedInfo
  end.

(** The loop over at most two keywords, with its [break]. *)
Fixpoint relatedContent (st : MMDIndexServer) (keywords : list (list N))
    (relevantInfo : list (list N)) : list (list N) :=
  match keywords with
  | [] => relevantInfo
  | keyword :: rest =>
      let matches := findTextLines st keyword in
      if (0 <? lenZ matches) && (lenZ matches <? 30) then
        let context := getContextAroundLines st (Js.slice matches 0 2) 3 in
        if (0 <? lenZ context) && (lenZ context <? 300) then
          let relevantInfo :=
            relevantInfo ++ [keyword ++ Js.lit ": " ++ Js.substring context 0 150 ++ Js.lit "..."] in
          if 2 <=? lenZ relevantInfo then relevantInfo
          else relatedContent st rest relevantInfo
        else relatedContent st rest relevantInfo
      else relatedContent st rest relevantInfo
  end.

(** The third [if]: content related to the long words of the request. *)
Definition enhancedKeywords (st : MMDIndexServer) (request enhancedInfo : list N) : list N :=
  if lenZ enhancedInfo <? 1500 then
    let keywords := Js.slice (Re.matchAll reLongWord request) 0 2 in
    if 0 <? lenZ keywords then
      let relevantInfo := relatedContent st keywords [] in
      if (0 <? lenZ relevantInfo)
         && (lenZ enhancedInfo + lenZ (Js.join Js.nl relevantInfo) <? 1500)
      then enhancedInfo ++ Js.nl ++ Js.nl ++ Js.lit "[Related Content]" ++ Js.nl
           ++ Js.join (Js.nl ++ Js.nl) relevantInfo
      else enhancedInfo
    else enhancedInfo
  else enhancedInfo.

(** [markdown] is a parameter of the method that its body never reads. *)
Definition getEnhancedContext (st : MMDIndexServer) (markdown : list N)
    (selectedText : option (list N)) (request : list N) : list N :=
  if negb (loaded st) then []
  else
    let maxInfoLength := 1500 in
    let enhancedInfo := enhancedChapters st request [] in
    match enhancedSelection st selectedText enhancedInfo with
    | Throw =>
        (* catch: the information gathered so far is kept *)
        Js.substring enhancedInfo 0 maxInfoLength
    | Ok enhancedInfo =>
        Js.substring (enhancedKeywords st request enhancedInfo) 0 maxInfoLength
    end.

(** ** The context assembler ([route.ts]) *)

Inductive Intent : Type := Math | Table | ChapterIntent | SectionIntent | General | Formatting.

Module IntentInfo.
Record t : Type := mk {
  keywords : list (list N);
  intent : Intent;
  mentions : list (list N)
}.
End IntentInfo.

(** [/\b\w{3,}\b/g] *)
Definition reWord3 : Re.regex := Re.seqs [Re.RWordB; Re.atLeast 3 Re.word; Re.RWordB].

Definition commonWords : list (list N) :=
  map Js.lit
    ["the"; "and"; "for"; "are"; "but"; "not"; "you"; "all"; "can"; "her"; "was"; "one";
     "our"; "out"; "day"; "get"; "has"; "him"; "his"; "how"; "its"; "may"; "new"; "now";
     "old"; "see"; "two"; "way"; "who"; "boy"; "did"; "its"; "let"; "put"; "say"; "she";
     "too"; "use"].

Definition eqStr (a b : list N) : bool := bool_decide (a = b).

Definition isCommon (w : list N) : bool := existsb (eqStr w) commonWords.

(** [/\b(w1|w2|...)\b/i] *)
Definition reAnyWord (ws : list string) : Re.regex :=
  Re.seqs [Re.RWordB; Re.RGroup (Re.alts (map (fun w => Re.strI (Js.lit w)) ws)); Re.RWordB].

Definition reMath : Re.regex :=
  reAnyWord ["math"; "equation"; "formula"; "solve"; "calculate"; "compute"; "latex"; "tex"].
Definition reTable : Re.regex := reAnyWord ["table"; "row"; "column"; "cell"; "header"].
Definition reHeading : Re.regex := reAnyWord ["chapter"; "section"; "heading"; "title"].
Definition reFormat : Re.regex :=
  reAnyWord ["format"; "style"; "bold"; "italic"; "underline"; "font"].

Definition quotes : list N := [c_dquote; c_squote].

(** A quote, one or more units that are not quotes (captured), a quote; [g]. *)
Definition reQuoted : Re.regex :=
  Re.seqs [Re.oneOf quotes; Re.RGroup (Re.plus (Re.notIn quotes)); Re.oneOf quotes].

(** Either quote, with the [g] flag. *)
Definition reQuote : Re.regex := Re.oneOf quotes.

(** [/section\s+(\d+)/i] *)
Definition reSectionRef : Re.regex :=
  Re.seqs [Re.strI (Js.lit "section"); Re.plus Re.space; Re.RGroup (Re.plus Re.digit)].

Definition optList {A} (o : option A) (f : A -> list N) : list (list N) :=
  match o with
  | Some a => [f a]
  | None => []
  end.

Definition extractIntent (request : list N) : IntentInfo.t :=
  let lowerRequest := Js.toLowerCase request in
  let words := Re.matchAll reWord3 lowerRequest in
  let keywords := filter (fun w => negb (isCommon w) && (3 <=? lenZ w)) words in
  let intent :=
    if Re.test reMath request then Math
    else if Re.test reTable request then Table
    else if Re.test reHeading request then ChapterIntent
    else if Re.test reFormat request then Formatting
    else General in
  let quoted := Re.matchAll reQuoted request in
  let mentions := map (remove reQuote) quoted in
  let mentions :=
    mentions ++ optList (Re.capture1 reChapterRef request) (fun n => Js.lit "Chapter " ++ n) in
  let mentions :=
    mentions ++ optList (Re.capture1 reSectionRef request) (fun n => Js.lit "Section " ++ n) in
  IntentInfo.mk keywords intent mentions.

(** ** The RegExp constructor

    [compile ci src] is [new RegExp(src, flags)], [ci] telling whether the
    flags hold [i].  The parser covers alternation, groups, the greedy
    quantifiers [*], [+] and [?], classes with ranges, the dot, [^], [$] and
    the escapes [\b \d \D \w \W \s \S \n \t \r \f \v] and [\] before a syntax
    character.  A source it rejects is a [SyntaxError]; a source outside
    this fragment is [NotModelled]. *)

Module ReSyntax.
Import Re.

Inductive parsed : Type :=
| POk (r : regex) (rest : list N)
| PSyntax
| PBeyond.

Inductive parsedClass : Type :=
| COk (p : N -> bool) (rest : list N)
| CSyntax
| CBeyond.

Inductive compiled : Type :=
| Compiled (r : regex)
| SyntaxError
| NotModelled.

(** The syntax characters [^ $ \ . * + ? ( ) [ ] { } |]. *)
Definition syntaxChars : list N := Js.lit "^$\.*+?()[]{}|".

Definition isSyntaxChar (c : N) : bool := existsb (N.eqb c) syntaxChars.

(** The set denoted by the unit after a backslash. *)
Definition escapeSet (c : N) : option (N -> bool) :=
  if (c =? 100)%N then Some Js.isDigit
  else if (c =? 68)%N then Some (fun x => negb (Js.isDigit x))
  else if (c =? 119)%N then Some Js.isWordChar
  else if (c =? 87)%N then Some (fun x => negb (Js.isWordChar x))
  else if (c =? 115)%N then Some Js.isSpace
  else if (c =? 83)%N then Some (fun x => negb (Js.isSpace x))
  else if (c =? 110)%N then Some (N.eqb 10)
  else if (c =? 116)%N then Some (N.eqb 9)
  else if (c =? 114)%N then Some (N.eqb 13)
  else if (c =? 102)%N then Some (N.eqb 12)
  else if (c =? 118)%N then Some (N.eqb 11)
  else if isSyntaxChar c || (c =? 47)%N || (c =? 45)%N then Some (N.eqb c)
  else None.

Definition orSet (p q : N -> bool) : N -> bool := fun x => p x || q x.

(** The members of a class, up to and including the closing bracket. *)
Fixpoint parseClass (s : list N) (acc : N -> bool) : parsedClass :=
  match s with
  | [] => CSyntax
  | c :: s1 =>
      if (c =? 93)%N then COk acc s1
      else if (c =? 92)%N then
        match s1 with
        | [] => CSyntax
        | e :: s2 =>
            match escapeSet e with
            | Some p => parseClass s2 (orSet acc p)
            | None => CBeyond
            end
        end
      else
        match s1 with
        | d :: e :: s3 =>
            if (d =? 45)%N && negb (e =? 93)%N then
              if (e =? 92)%N then CBeyond
              else if (c <=? e)%N then parseClass s3 (orSet acc (Js.between c e))
              else CSyntax
            else parseClass s1 (orSet acc (N.eqb c))
        | _ => parseClass s1 (orSet acc (N.eqb c))
        end
  end.

(** Under the [i] flag a class holds a unit when it holds a case variant of it. *)
Definition upperInv (c : N) : N :=
  if Js.between 65 90 c then (c + 32)%N
  else if Js.between 192 222 c && negb (c =? 215)%N then (c + 32)%N
  else c.

Definition foldCase (ci : bool) (p : N -> bool) : N -> bool :=
  if ci then fun x => p x || p (Js.canonUnit x) || p (upperInv x) else p.

Definition isAssertion (r : regex) : bool :=
  match r with
  | RBol | REol | RWordB => true
  | _ => false
  end.

(** The quantifier, if any, that follows the atom [a]. *)
Definition quantify (a : regex) (s : list N) : parsed :=
  match s with
  | q :: s1 =>
      if (q =? 123)%N then PBeyond
      else if (q =? 42)%N || (q =? 43)%N || (q =? 63)%N then
        if isAssertion a then PSyntax
        else match s1 with
             | 63%N :: _ => PBeyond
             | _ =>
                 POk (if (q =? 42)%N then RStar a
                      else if (q =? 43)%N then plus a else opt a) s1
             end
      else POk a s
  | [] => POk a s
  end.

Definition closeGroup (wrap : regex -> regex) (p : parsed) : parsed :=
  match p with
  | POk r (41%N :: rest) => POk (wrap r) rest
  | POk _ _ => PSyntax
  | e => e
  end.

Fixpoint parseAlt (fuel : nat) (ci : bool) (s : list N) {struct fuel} : parsed :=
  match fuel with
  | O => PBeyond
  | S fuel' =>
      match parseSeq fuel' ci s with
      | POk r (124%N :: s') =>
          match parseAlt fuel' ci s' with
          | POk r2 rest => POk (RAlt r r2) rest
          | e => e
          end
      | other => other
      end
  end
with parseSeq (fuel : nat) (ci : bool) (s : list N) {struct fuel} : parsed :=
  match fuel with
  | O => PBeyond
  | S fuel' =>
      match s with
      | [] => POk REmpty []
      | c :: s' =>
          if (c =? 124)%N || (c =? 41)%N then POk REmpty s
          else
            match parseAtom fuel' ci c s' with
            | POk a rest =>
                match quantify a rest with
                | POk t rest' =>
                    match parseSeq fuel' ci rest' with
                    | POk r rest'' => POk (RSeq t r) rest''
                    | e => e
                    end
                | e => e
                end
            | e => e
            end
      end
  end
with parseAtom (fuel : nat) (ci : bool) (c : N) (s : list N) {struct fuel} : parsed :=
  match fuel with
  | O => PBeyond
  | S fuel' =>
      if (c =? 40)%N then
        match s with
        | 63%N :: 58%N :: body => closeGroup (fun r => r) (parseAlt fuel' ci body)
        | 63%N :: _ => PBeyond
        | body => closeGroup RGroup (parseAlt fuel' ci body)
        end
      else if (c =? 91)%N then
        match s with
        | 94%N :: body =>
            match parseClass body (fun _ => false) with
            | COk p rest => POk (RSet (fun x => negb (foldCase ci p x))) rest
            | CSyntax => PSyntax
            | CBeyond => PBeyond
            end
        | body =>
            match parseClass body (fun _ => false) with
            | COk p rest => POk (RSet (foldCase ci p)) rest
            | CSyntax => PSyntax
            | CBeyond => PBeyond
            end
        end
      else if (c =? 92)%N then
        match s with
        | [] => PSyntax
        | e :: rest =>
            if (e =? 98)%N then POk RWordB rest
            else match escapeSet e with
                 | Some p => POk (RSet p) rest
                 | None => PBeyond
                 end
        end
      else if (c =? 46)%N then POk dot s
      else if (c =? 94)%N then POk RBol s
      else if (c =? 36)%N then POk REol s
      else if (c =? 42)%N || (c =? 43)%N || (c =? 63)%N then PSyntax
      else if (c =? 123)%N then PBeyond
      else POk (if ci then chrI c else chr c) s
  end.

Definition compile (ci : bool) (src : list N) : compiled :=
  match parseAlt (3 * length src + 4) ci src with
  | POk r [] => Compiled r
  | POk _ (_ :: _) => SyntaxError
  | PSyntax => SyntaxError
  | PBeyond => NotModelled
  end.

(** [r.test(s)] for a compiled pattern, [None] when it is outside the fragment. *)
Definition testSource (ci : bool) (src s : list N) : option (result bool) :=
  match compile ci src with
  | Compiled r => Some (Ok (test r s))
  | SyntaxError => Some Throw
  | NotModelled => None
  end.

End ReSyntax.

(** *** [findRelevantSections] *)

(** The class of [keyword.replace(/[.*+?^${}()|[\]\\]/g, ...)]. *)
Definition specialChars : list N := Js.lit ".*+?^${}()|[]\".

Definition isSpecial (c : N) : bool := existsb (N.eqb c) specialChars.

(** The replacement [\\$&]: a backslash in front of the match. *)
Definition escapeRegExp (keyword : list N) : list N :=
  Re.replaceAll (Re.RSet isSpecial) (fun m => Js.backslash :: m) keyword.

(** [/\n\n+/] *)
Definition reBlankLines : Re.regex := Re.RSeq (Re.chr 10%N) (Re.plus (Re.chr 10%N)).

Module SectionEntry.
Record t : Type := mk { text : list N; score : Z; index : Z }.
End SectionEntry.

(** The inner loop: the number of matches of each escaped keyword, summed. *)
Fixpoint blockScore (block : list N) (keywords : list (list N)) (score : Z) : result Z :=
  match keywords with
  | [] => Ok score
  | keyword :: rest =>
      match ReSyntax.compile true (escapeRegExp keyword) with
      | ReSyntax.Compiled regex =>
          blockScore block rest (score + lenZ (Re.matchAll regex block))
      | ReSyntax.SyntaxError | ReSyntax.NotModelled => Throw
      end
  end.

(** The outer loop, over the blocks still to visit; [i] is the index of the
    first of them in [blocks]. *)
Fixpoint scoreBlocks (blocks : list (list N)) (keywords : list (list N))
    (todo : list (list N)) (i : Z) (sections : list SectionEntry.t) : result (list SectionEntry.t) :=
  match todo with
  | [] => Ok sections
  | b :: todo' =>
      match blockScore (Js.toLowerCase b) keywords 0 with
      | Throw => Throw
      | Ok score =>
          if 0 <? score then
            let start := Z.max 0 (i - 1) in
            let end_ := Z.min (lenZ blocks) (i + 2) in
            let context := Js.join (Js.nl ++ Js.nl) (Js.slice blocks start end_) in
            scoreBlocks blocks keywords todo' (i + 1)
                        (sections ++ [SectionEntry.mk context score i])
          else scoreBlocks blocks keywords todo' (i + 1) sections
      end
  end.

Definition findRelevantSections (markdown : list N) (keywords : list (list N))
    (maxResults : Z) : result (list (list N)) :=
  let blocks := Re.split reBlankLines markdown in
  match scoreBlocks blocks keywords blocks 0 [] with
  | Throw => Throw
  | Ok sections =>
      (* sort((a, b) => b.score - a.score) *)
      let sections := Js.sortBy (fun s => - SectionEntry.score s) sections in
      Ok (map SectionEntry.text (Js.slice sections 0 maxResults))
  end.

(** *** [getRelevantContext] *)

Definition sepLocation : list N :=
  Js.nl ++ Js.nl ++ Js.lit "[... location change ...]" ++ Js.nl ++ Js.nl.
Definition sepEllipsis : list N := Js.nl ++ Js.nl ++ Js.lit "[...]" ++ Js.nl ++ Js.nl.
Definition sepChapter : list N :=
  Js.nl ++ Js.nl ++ Js.lit "[... chapter occurrence ...]" ++ Js.nl ++ Js.nl.
Definition continuesMarker : list N :=
  Js.nl ++ Js.nl ++ Js.lit "[... document continues ...]" ++ Js.nl ++ Js.nl.
Definition truncatedMarker : list N := Js.nl ++ Js.lit "[... truncated ...]".

Definition isEmpty (s : list N) : bool :=
  match s with
  | [] => true
  | _ :: _ => false
  end.

(** [(context ? context + sep : "") + more] *)
Definition appendWith (sep context more : list N) : list N :=
  (if isEmpty context then [] else context ++ sep) ++ more.

(** [markdown.substring(max(0, at - radius), min(length, at + len + radius))] *)
Definition window (markdown : list N) (at_ len radius : Z) : list N :=
  Js.substring markdown (Z.max 0 (at_ - radius)) (Z.min (lenZ markdown) (at_ + len + radius)).

(** The branch taken when text is selected. *)
Definition selectionContext (st : MMDIndexServer) (markdown selectedText enhancedInfo : list N)
    : list N * list N :=
  let '(context, enhancedInfo) :=
    if isLoaded st then
      match findAllOccurrencesWithContext st selectedText 3 with
      | Ok occurrences =>
          if 0 <? lenZ occurrences then
            (Js.join sepLocation (map Occurrence.context occurrences),
             if 1 <? lenZ occurrences
             then enhancedInfo ++ Js.nl ++ Js.nl
                  ++ Js.lit "IMPORTANT: The selected text appears "
                  ++ Js.numToString (lenZ occurrences)
                  ++ Js.lit " times in the document. Make sure to update ALL occurrences if needed."
             else enhancedInfo)
          else ([], enhancedInfo)
      | Throw => ([], enhancedInfo)
      end
    else ([], enhancedInfo) in
  if isEmpty context then
    let selectedIndex := Js.indexOf markdown selectedText in
    if selectedIndex =? -1 then (context, enhancedInfo)
    else (window markdown selectedIndex (lenZ selectedText) 5000, enhancedInfo)
  else (context, enhancedInfo).

(** The loop over the mentions, with its [break]. *)
Fixpoint mentionContext (markdown : list N) (maxChars : Z) (mentions : list (list N))
    (context : list N) : list N :=
  match mentions with
  | [] => context
  | mention :: rest =>
      let mentionIndex := Js.indexOf markdown mention in
      if mentionIndex =? -1 then mentionContext markdown maxChars rest context
      else
        let mentionContext_ := window markdown mentionIndex (lenZ mention) 3000 in
        if 0 <? lenZ mentionContext_ then
          let context :=
            context ++ (if isEmpty context then [] else sepEllipsis) ++ mentionContext_ in
          if Js.gtDouble (lenZ context) (Js.mulDouble maxChars Js.d0_7) then context
          else mentionContext markdown maxChars rest context
        else mentionContext markdown maxChars rest context
  end.

(** [!context || context.length < n] *)
Definition shortOf (n : Z) (context : list N) : bool :=
  isEmpty context || (lenZ context <? n).

(** The chapter lookup through the index. *)
Definition chapterContext (st : MMDIndexServer) (request : list N)
    (context enhancedInfo : list N) : list N * list N :=
  match Re.capture1 reChapterRef request with
  | None => (context, enhancedInfo)
  | Some chapterNum =>
      if isLoaded st then
        let chapters := findChapter st (Js.lit "Chapter " ++ chapterNum) in
        if 0 <? lenZ chapters then
          (appendWith sepEllipsis context
             (Js.join sepChapter (map ChapterHit.context chapters)),
           enhancedInfo ++ Js.nl ++ Js.nl ++ Js.lit "Found Chapter " ++ chapterNum
           ++ Js.lit " at " ++ Js.numToString (lenZ chapters)
           ++ Js.lit " location(s) in the document.")
        else (context, enhancedInfo)
      else (context, enhancedInfo)
  end.

(** The rename pattern: one of change, update, edit; any units on the line;
    one of chapter, section, title; any units; to or as; white space; an
    optional quote; units that are not quotes (captured); an optional
    quote.  Flag [i]. *)
Definition reRename : Re.regex :=
  Re.seqs [Re.alts (map (fun w => Re.strI (Js.lit w)) ["change"; "update"; "edit"]);
           Re.RStar Re.dot;
           Re.alts (map (fun w => Re.strI (Js.lit w)) ["chapter"; "section"; "title"]);
           Re.RStar Re.dot;
           Re.alts (map (fun w => Re.strI (Js.lit w)) ["to"; "as"]);
           Re.plus Re.space;
           Re.opt (Re.oneOf quotes);
           Re.RGroup (Re.plus (Re.notIn quotes));
           Re.opt (Re.oneOf quotes)].

(** The three patterns built from the chapter number, all with flags [gi]:
    [(?:Chapter|chapter)\s*N[^\n]*], [\\section\*?\{[^}]*Chapter\s*N[^}]*\}]
    and [#+\s*Chapter\s*N[^\n]*].  [N] is a run of digits, spliced in as a
    literal. *)
Definition headingPatterns (chapterNum : list N) : list Re.regex :=
  [ Re.seqs [Re.RAlt (Re.strI (Js.lit "Chapter")) (Re.strI (Js.lit "chapter"));
             Re.RStar Re.space; Re.strI chapterNum; Re.RStar (Re.notIn [10%N])];
    Re.seqs [Re.strI (Js.lit "\section"); Re.opt (Re.chr c_star); Re.chr c_lbrace;
             Re.RStar (Re.notIn [c_rbrace]); Re.strI (Js.lit "Chapter");
             Re.RStar Re.space; Re.strI chapterNum; Re.RStar (Re.notIn [c_rbrace]);
             Re.chr c_rbrace];
    Re.seqs [Re.plus (Re.chr c_hash); Re.RStar Re.space; Re.strI (Js.lit "Chapter");
             Re.RStar Re.space; Re.strI chapterNum; Re.RStar (Re.notIn [10%N])] ].

(** The windows around the first occurrence of each match. *)
Definition matchWindows (markdown : list N) (found : list (list N)) : list (list N) :=
  flat_map
    (fun m =>
       let index := Js.indexOf markdown m in
       if index =? -1 then [] else [window markdown index (lenZ m) 2000])
    found.

(** The loop over the patterns: the first that yields a window wins. *)
Fixpoint patternContext (markdown : list N) (patterns : list Re.regex) (context : list N)
    : list N :=
  match patterns with
  | [] => context
  | pattern :: rest =>
      let found := Re.matchAll pattern markdown in
      let contextParts := matchWindows markdown found in
      if 0 <? lenZ contextParts
      then appendWith sepEllipsis context (Js.join sepEllipsis contextParts)
      else patternContext markdown rest context
  end.

Definition renameContext (markdown request context : list N) : list N :=
  if Re.test reRename request then
    match Re.capture1 reChapterRef request with
    | Some chapterNum => patternContext markdown (headingPatterns chapterNum) context
    | None => context
    end
  else context.

(** The branch taken when nothing is selected. *)
Definition requestContext (st : MMDIndexServer) (markdown request : list N) (maxChars : Z)
    (info : IntentInfo.t) (enhancedInfo : list N) : result (list N * list N) :=
  let context := mentionContext markdown maxChars (IntentInfo.mentions info) [] in
  let '(context, enhancedInfo) :=
    if shortOf 1000 context then chapterContext st request context enhancedInfo
    else (context, enhancedInfo) in
  let keywordStep :=
    if shortOf 1000 context && (0 <? lenZ (IntentInfo.keywords info)) then
      match findRelevantSections markdown (IntentInfo.keywords info) 3 with
      | Throw => Throw
      | Ok relevantSections =>
          Ok (if 0 <? lenZ relevantSections
              then Js.join sepEllipsis relevantSections else context)
      end
    else Ok context in
  match keywordStep with
  | Throw => Throw
  | Ok context =>
      Ok (if shortOf 500 context then renameContext markdown request context else context,
          enhancedInfo)
  end.

(** [if (selectedText && selectedText.trim())] *)
Definition hasSelection (selectedText : option (list N)) : option (list N) :=
  match truthy selectedText with
  | Some sel => if isEmpty (Js.trim sel) then None else Some sel
  | None => None
  end.

(** [context] and [enhancedInfo] when the default strategy is reached. *)
Definition gatherContext (st : MMDIndexServer) (markdown : list N)
    (selectedText : option (list N)) (request : list N) (maxChars : Z)
    : result (list N * list N) :=
  let info := extractIntent request in
  let enhancedInfo :=
    if isLoaded st then getEnhancedContext st markdown selectedText request else [] in
  match hasSelection selectedText with
  | Some sel => Ok (selectionContext st markdown sel enhancedInfo)
  | None => requestContext st markdown request maxChars info enhancedInfo
  end.

(** The default strategy: the whole document, or its head and tail. *)
Definition defaultContext (markdown : list N) (maxChars : Z) : list N :=
  if maxChars <? lenZ markdown then
    let firstPortion := Js.substring markdown 0 (Js.floorDouble (Js.mulDouble maxChars Js.d0_7)) in
    let lastPortion :=
      Js.substringFrom markdown
        (lenZ markdown - Js.floorDouble (Js.mulDouble maxChars Js.d0_3)) in
    firstPortion ++ continuesMarker ++ lastPortion
  else markdown.

(** [if (context.length > maxChars) context = context.substring(0, maxChars) + marker] *)
Definition limitContext (context : list N) (maxChars : Z) : list N :=
  if maxChars <? lenZ context
  then Js.substring context 0 maxChars ++ truncatedMarker
  else context.

(** [if (enhancedInfo && enhancedInfo.length < 2000) context += enhancedInfo] *)
Definition appendInfo (context enhancedInfo : list N) : list N :=
  if negb (isEmpty enhancedInfo) && (lenZ enhancedInfo <? 2000)
  then context ++ enhancedInfo
  else context.

(** [st] is the instance that [getMMDIndex()] returns during the call. *)
Definition getRelevantContext (st : MMDIndexServer) (markdown : list N)
    (selectedText : option (list N)) (request : list N) (maxChars : Z)
    : result (list N) :=
  match gatherContext st markdown selectedText request maxChars with
  | Throw => Throw
  | Ok (context, enhancedInfo) =>
      let context := if isEmpty context then defaultContext markdown maxChars else context in
      Ok (appendInfo (limitContext context maxChars) enhancedInfo)
  end.

(** ** The client-side index ([class MMDIndex])

    Only what [findAllOccurrences] reads is kept: the [loaded] flag and
    [linesData]. *)

Module Client.

Record MMDIndex : Type := mkIndex { linesData : option MMDLinesData; loaded : bool }.

Module Hit.
Record t : Type := mk { lineNum : Z; text : list N; page : Z }.
End Hit.

(** The inner loop over the lines of one page; [lineNum] is the counter. *)
Fixpoint scanPage (regex : Re.regex) (currentPage : Z) (ls : list MMDLine) (lineNum : Z)
    (results : list Hit.t) : Z * list Hit.t :=
  match ls with
  | [] => (lineNum, results)
  | l :: ls' =>
      scanPage regex currentPage ls' (lineNum + 1)
               (if Re.test regex (text l)
                then results ++ [Hit.mk lineNum (text l) currentPage]
                else results)
  end.

Fixpoint scanPages (regex : Re.regex) (ps : list MMDPage) (lineNum : Z)
    (results : list Hit.t) : list Hit.t :=
  match ps with
  | [] => results
  | p :: ps' =>
      let '(lineNum, results) := scanPage regex (page p) (lines p) lineNum results in
      scanPages regex ps' lineNum results
  end.

(** [new RegExp(pattern, "i")] is given the caller's [pattern] as it is.
    The result is [None] when the pattern is outside the modelled syntax. *)
Definition findAllOccurrences (idx : MMDIndex) (pattern : list N)
    : option (result (list Hit.t)) :=
  match linesData idx with
  | Some d =>
      if loaded idx then
        match ReSyntax.compile true pattern with
        | ReSyntax.Compiled regex => Some (Ok (scanPages regex (pages d) 0 []))
        | ReSyntax.SyntaxError => Some Throw
        | ReSyntax.NotModelled => None
        end
      else Some (Ok [])
  | None => Some (Ok [])
  end.

End Client.

(** ** Sample transcripts *)

Definition mkLine (s : string) : MMDLine := {| text := Js.lit s; line := 1; column := 1 |}.

Definition sampleData : MMDLinesData :=
  {| pages :=
       [ {| image_id := Js.lit "p1"; page := 1;
            lines := [mkLine "Contents"; mkLine "Chapter 3: Origins ..... 7"] |};
         {| image_id := Js.lit "p7"; page := 7;
            lines := [mkLine "  \section*{Chapter 3: Origins}  ";
                      mkLine "It began with a single spark.";
                      mkLine "The spark became a fire."] |} ] |}.

Definition sampleIndex : MMDIndexServer := getMMDIndex (Some sampleData) None.

(** ** Notions used in the statements *)

(** The texts of all lines of a transcript, in page order. *)
Definition allLines (d : MMDLinesData) : list (list N) :=
  concat (map (fun p => map text (lines p)) (pages d)).

(** The index that a first [getMMDIndex()] returns when the transcript parses. *)
Definition builtIndex (d : MMDLinesData) : MMDIndexServer := getMMDIndex (Some d) None.

(** The bounds every returned occurrence meets. *)
Definition occurrenceBounded (st : MMDIndexServer) (o : Occurrence.t) : Prop :=
  lenZ (Occurrence.context o) <= 1000
  /\ lenZ (Occurrence.text o) <= 200
  /\ 0 <= Occurrence.lineNum o < lenZ (lineTexts st).

(** The number of lines on the pages [ps]. *)
Definition lineCount (ps : list MMDPage) : Z :=
  fold_right (fun p n => lenZ (lines p) + n) 0 ps.

(** A transcript whose only page is numbered 0. *)
Definition pageZeroData : MMDLinesData :=
  {| pages := [ {| image_id := Js.lit "cover"; page := 0; lines := [mkLine "Title"] |} ] |}.

(** The word keys a line contributes. *)
Definition lineWords (lineText : list N) : list (list N) :=
  let normalizedText := Js.toLowerCase (Js.trim lineText) in
  if (2 <? length normalizedText)%nat then indexedWords normalizedText else [].

(** [key] is a word token of some line of the transcript. *)
Definition isWordKey (d : MMDLinesData) (key : list N) : Prop :=
  exists t, t ∈ allLines d /\ key ∈ lineWords t.

(** What holds of the list stored under [key] once the lines [texts] have
    been indexed. *)
Definition tokenList (texts : list (list N)) (key : list N) (l : list Z) : Prop :=
  StronglySorted Z.lt l
  /\ Forall (fun x => x < lenZ texts) l
  /\ (length l <= 100)%nat
  /\ ((forall t, t ∈ texts -> key ∉ lineWords t) -> (length l <= 50)%nat).

Definition tokenIndexInv (st : MMDIndexServer) : Prop :=
  forall key l, textToLinesMap st !! key = Some l -> tokenList (lineTexts st) key l.

(** The state of a list while line [n] is being indexed: entries are at
    most [n], and at most 50 unless the key is one of the words [seen]. *)
Definition midList (n : Z) (seen : list N -> Prop) (key : list N) (l : list Z) : Prop :=
  StronglySorted Z.lt l
  /\ Forall (fun x => x <= n) l
  /\ (length l <= 100)%nat
  /\ (~ seen key -> (length l <= 50)%nat).

(** Fifty-one lines that all read hello. *)
Definition helloData : MMDLinesData :=
  {| pages := [ {| image_id := Js.lit "p"; page := 1;
                   lines := replicate 51 (mkLine "hello") |} ] |}.

(** The heading line of the example. *)
Definition originsLine : list N := Js.lit "\section*{Chapter 3: Origins}".

(** What the escaping does to one code unit. *)
Definition escapeUnit (c : N) : list N :=
  if isSpecial c then [Js.backslash; c] else [c].

(** The pattern that matches [keyword] literally. *)
Definition literalAtom (c : N) : Re.regex :=
  if isSpecial c then Re.RSet (N.eqb c) else Re.chrI c.

Definition literalPattern (keyword : list N) : Re.regex :=
  foldr (fun c r => Re.RSeq (literalAtom c) r) Re.REmpty keyword.

(** The text on which the finalization works: what the strategies gathered,
    or the default when they gathered nothing. *)
Definition assembledText (markdown context : list N) (maxChars : Z) : list N :=
  if isEmpty context then defaultContext markdown maxChars else context.

(** The annotations that are appended: dropped when empty or 2000 units long. *)
Definition keptInfo (enhancedInfo : list N) : list N :=
  if negb (isEmpty enhancedInfo) && (lenZ enhancedInfo <? 2000) then enhancedInfo else [].

(** A document of thirty code units. *)
Definition thirty : list N := Js.lit "0123456789ABCDEFGHIJKLMNOPQRST".

(** The head and the tail cut by the default strategy. *)
Definition firstPortion (markdown : list N) (maxChars : Z) : list N :=
  Js.substring markdown 0 (Js.floorDouble (Js.mulDouble maxChars Js.d0_7)).

Definition lastPortion (markdown : list N) (maxChars : Z) : list N :=
  Js.substringFrom markdown (lenZ markdown - Js.floorDouble (Js.mulDouble maxChars Js.d0_3)).

(** The second loop of [findChapter], from the results of the first. *)
Definition numberLoop (st : MMDIndexServer) (num : list N)
    (chs : list Chapter.t) (results : list ChapterHit.t) : list ChapterHit.t :=
  fold_left
    (fun results chapter =>
       if numberMatches num chapter && negb (alreadyFound results chapter)
       then results ++ [toHit st chapter]
       else results)
    chs results.

(** A transcript whose only heading is spelled in capitals. *)
Definition capitalsData : MMDLinesData :=
  {| pages := [ {| image_id := Js.lit "p"; page := 1;
                   lines := [mkLine "\section*{CHAPTER 3: Origins}";
                             mkLine "It began with a single spark."] |} ] |}.

Definition clientSample : Client.MMDIndex :=
  Client.mkIndex (Some sampleData) true.

(** ** Further parts of the program, with the notions their properties use *)

(** The normalized text under which [buildIndex] files a line. *)
Definition normalizedLine (lineText : list N) : list N := Js.toLowerCase (Js.trim lineText).

(** [key] is a key under which [buildIndex] files the line [lineText]: its
    normalized text when that is 3 to 199 units long, or one of its words. *)
Definition keyOfLine (lineText key : list N) : Prop :=
  (key = normalizedLine lineText
   /\ (2 < length (normalizedLine lineText) < 200)%nat)
  \/ key ∈ lineWords lineText.

(** Every entry of every list is the index of a line filed under the key. *)
Definition tokenIndexSound (st : MMDIndexServer) : Prop :=
  forall key l i,
    textToLinesMap st !! key = Some l -> i ∈ l ->
    0 <= i /\ exists t, lineTexts st !! Z.to_nat i = Some t /\ keyOfLine t key.

(** The list under [key] holds [i], or is already [cap] entries long. *)
Definition filed (m : gmap (list N) (list Z)) (key : list N) (i : Z) (cap : nat) : Prop :=
  exists l, m !! key = Some l /\ (i ∈ l \/ (cap <= length l)%nat).

(** Every line indexed so far is filed under each of its keys. *)
Definition tokenIndexComplete (st : MMDIndexServer) : Prop :=
  forall (i : nat) t,
    lineTexts st !! i = Some t ->
    (forall w, w ∈ lineWords t -> filed (textToLinesMap st) w (Z.of_nat i) 100)
    /\ ((2 < length (normalizedLine t) < 200)%nat ->
        filed (textToLinesMap st) (normalizedLine t) (Z.of_nat i) 50).

(** [c] is the heading that [buildIndex] makes of some line of the
    transcript that matches a heading pattern. *)
Definition chapterAt (d : MMDLinesData) (c : Chapter.t) : Prop :=
  exists before p after above l below,
    pages d = before ++ p :: after
    /\ lines p = above ++ l :: below
    /\ isChapter (Js.trim (text l)) = true
    /\ c = Chapter.mk (chapterTitle (Js.trim (text l)))
                      (lineCount before + lenZ above) (page p).

Definition lineNumLt (a b : Chapter.t) : Prop := Chapter.lineNum a < Chapter.lineNum b.

(** The state of the heading list during the build. *)
Definition chaptersOk (d : MMDLinesData) (st : MMDIndexServer) : Prop :=
  Forall (chapterAt d) (chapters st)
  /\ StronglySorted lineNumLt (chapters st)
  /\ Forall (fun c => Chapter.lineNum c < lenZ (lineTexts st)) (chapters st).

(** The words of a fragment that [findTextLines] looks up. *)
Definition fragmentWords (normalized : list N) : list (list N) :=
  filter (fun w => (2 <? length w)%nat) (Re.split reSpaces normalized).

(** Why [findTextLines] returns the line [t] for the normalized fragment:
    the line contains it, or is filed under it or under one of its words. *)
Definition relatedLine (normalized t : list N) : Prop :=
  Js.includes (Js.toLowerCase t) normalized = true
  \/ keyOfLine t normalized
  \/ exists w, w ∈ fragmentWords normalized /\ keyOfLine t w.

(** The lines [lo], ..., [hi - 1] of the index, joined. *)
Definition linesBetween (st : MMDIndexServer) (lo hi : Z) : list N :=
  concat (take (Z.to_nat (hi - lo)) (drop (Z.to_nat lo) (lineTexts st))).

(** The occurrence that [findAllOccurrencesWithContext] makes of a line. *)
Definition occurrenceOf (st : MMDIndexServer) (lineNum : Z) : Occurrence.t :=
  Occurrence.mk lineNum
                (Js.substring (lineTextAt st lineNum) 0 200)
                (getPageForLine st lineNum)
                (Js.substring (getContextAroundLines st [lineNum] 8) 0 1000).

(** The pattern that asks for one unit after the other, each by its test. *)
Definition unitsPattern (ps : list (N -> bool)) : Re.regex :=
  foldr (fun p r => Re.RSeq (Re.RSet p) r) Re.REmpty ps.

(** [s] starts with units that pass the tests [ps], one for one. *)
Fixpoint prefixBy (ps : list (N -> bool)) (s : list N) : bool :=
  match ps, s with
  | [], _ => true
  | _ :: _, [] => false
  | p :: ps', c :: s' => p c && prefixBy ps' s'
  end.

(** The offset of the first place in [s] where [prefixBy ps] holds. *)
Fixpoint searchBy (ps : list (N -> bool)) (s : list N) {struct s} : option nat :=
  if prefixBy ps s then Some 0%nat
  else match s with
       | [] => None
       | _ :: s' => S <$> searchBy ps s'
       end.

(** [a[i]] for an array and a number: [None] is [undefined]. *)
Definition at_ {A} (a : list A) (i : Z) : option A :=
  if i <? 0 then None else a !! Z.to_nat i.

(** The store of [useMarkdownStore] with the operations that the pages
    call.  The setters [setHistory] and [setHistoryIndex], which no caller
    uses, and the persistence to local storage are left out. *)
Module Store.

(** The state of the store; a [markdown] of [None] is [undefined]. *)
Record t : Type := mk {
  markdown : option (list N);
  history : list (list N);
  historyIndex : Z
}.

Definition initial : t := mk (Some []) [] (-1).

Definition setMarkdown (newMd : list N) (s : t) : t :=
  let newHistory := Js.slice (history s) 0 (historyIndex s + 1) ++ [newMd] in
  mk (Some newMd) newHistory (lenZ newHistory - 1).

Definition canUndo (s : t) : bool := 0 <? historyIndex s.

Definition canRedo (s : t) : bool := historyIndex s <? lenZ (history s) - 1.

Definition undo (s : t) : t :=
  if 0 <? historyIndex s then
    let newIndex := historyIndex s - 1 in
    mk (at_ (history s) newIndex) (history s) newIndex
  else s.

Definition redo (s : t) : t :=
  if historyIndex s <? lenZ (history s) - 1 then
    let newIndex := historyIndex s + 1 in
    mk (at_ (history s) newIndex) (history s) newIndex
  else s.

(** The text shown when [/manual.mmd] cannot be fetched. *)
Definition welcome : list N :=
  Js.lit "# Welcome" ++ Js.nl ++ Js.nl ++ Js.lit "Paste your markdown here.".

(** [loadMarkdown]; [fetched] is the body of the response, [None] when the
    fetch fails or the response is not ok. *)
Definition loadMarkdown (fetched : option (list N)) (s : t) : t :=
  match fetched with
  | Some text => mk (Some text) [text] 0
  | None => mk (Some welcome) [welcome] 0
  end.

(** The actions a user of the store can take. *)
Inductive action : Type :=
| SetMarkdown (newMd : list N)
| Undo
| Redo
| LoadMarkdown (fetched : option (list N)).

Definition step (s : t) (a : action) : t :=
  match a with
  | SetMarkdown newMd => setMarkdown newMd s
  | Undo => undo s
  | Redo => redo s
  | LoadMarkdown fetched => loadMarkdown fetched s
  end.

Definition run (actions : list action) (s : t) : t := fold_left step actions s.

(** The history is empty and nothing was loaded, or the index points into
    the history at the text that is shown. *)
Definition wellFormed (s : t) : Prop :=
  (historyIndex s = -1 /\ history s = [] /\ markdown s = Some [])
  \/ (0 <= historyIndex s < lenZ (history s)
      /\ markdown s = at_ (history s) (historyIndex s)).

End Store.

(** A store in which two texts were set after a load. *)
Definition sampleStore : Store.t :=
  Store.run [Store.LoadMarkdown (Some (Js.lit "one")); Store.SetMarkdown (Js.lit "two");
             Store.SetMarkdown (Js.lit "three"); Store.Undo] Store.initial.

(** The test that an escaped unit compiles to, with or without the [i] flag. *)
Definition unitTest (ci : bool) (c : N) : N -> bool :=
  if isSpecial c then N.eqb c
  else if ci then (fun x => (Js.canonUnit x =? Js.canonUnit c)%N)
  else N.eqb c.

(** [EditProposal]; an absent [replaceAll] is [false]. *)
Module EditProposal.
Record t : Type := mk {
  oldContent : list N;
  newContent : list N;
  description : list N;
  isSafe : bool;
  replaceAll : bool
}.
End EditProposal.

(** GetSubstitution for a match without captures: [$$] is a dollar, [$&]
    the match, [$`] the text before it and [$'] the text after it; any other
    dollar stands for itself. *)
Fixpoint getSubstitution (matched before after replacement : list N) : list N :=
  match replacement with
  | [] => []
  | c :: r =>
      if (c =? 36)%N then
        match r with
        | d :: r' =>
            if (d =? 36)%N then 36%N :: getSubstitution matched before after r'
            else if (d =? 38)%N then matched ++ getSubstitution matched before after r'
            else if (d =? 96)%N then before ++ getSubstitution matched before after r'
            else if (d =? 39)%N then after ++ getSubstitution matched before after r'
            else c :: getSubstitution matched before after r
        | [] => [c]
        end
      else c :: getSubstitution matched before after r
  end.

(** [s.replace(pattern, replacement)] for a string [pattern]. *)
Definition replaceFirst (s pattern replacement : list N) : list N :=
  match Js.search pattern s with
  | None => s
  | Some i =>
      let before := take i s in
      let after := drop (i + length pattern) s in
      before ++ getSubstitution pattern before after replacement ++ after
  end.

(** [s.replace(r, replacement)] for a RegExp with the [g] flag and no
    group; [before] is the text in front of the matches still to replace. *)
Fixpoint substituteAll (replacement before : list N) (fs : list Re.found) (tail : list N)
    : list N :=
  match fs with
  | [] => tail
  | f :: fs' =>
      Re.skipped f
      ++ getSubstitution (Re.matched f) (before ++ Re.skipped f) (Re.rest f) replacement
      ++ substituteAll replacement (before ++ Re.skipped f ++ Re.matched f) fs' (Re.rest f)
  end.

Definition replaceGlobal (r : Re.regex) (replacement s : list N) : list N :=
  substituteAll replacement [] (Re.matches r s) s.

(** The text that [acceptEdit] hands to [setMarkdown]. *)
Definition editedMarkdown (markdown : option (list N)) (proposal : EditProposal.t)
    : result (list N) :=
  if isEmpty (EditProposal.oldContent proposal) then Ok (EditProposal.newContent proposal)
  else
    match markdown with
    | None => Throw
    | Some md =>
        if EditProposal.replaceAll proposal then
          match ReSyntax.compile false (escapeRegExp (EditProposal.oldContent proposal)) with
          | ReSyntax.Compiled regex =>
              Ok (replaceGlobal regex (EditProposal.newContent proposal) md)
          | ReSyntax.SyntaxError | ReSyntax.NotModelled => Throw
          end
        else Ok (replaceFirst md (EditProposal.oldContent proposal)
                              (EditProposal.newContent proposal))
    end.

(** [acceptEdit], on the store; the chat message list it also updates is
    left out.  A proposal without [newContent] changes nothing. *)
Definition acceptEdit (s : Store.t) (proposal : EditProposal.t) : result Store.t :=
  if isEmpty (EditProposal.newContent proposal) then Ok s
  else
    match editedMarkdown (Store.markdown s) proposal with
    | Ok newMarkdown => Ok (Store.setMarkdown newMarkdown s)
    | Throw => Throw
    end.

(** Every occurrence of [old] in [s] replaced by [new], left to right,
    occurrences that overlap an earlier one being passed over. *)
Fixpoint replaceEvery (fuel : nat) (old new s : list N) : list N :=
  match fuel with
  | O => s
  | S fuel' =>
      match Js.search old s with
      | None => s
      | Some i =>
          take i s ++ new ++ replaceEvery fuel' old new (drop (i + length old) s)
      end
  end.

Definition sampleProposal (replaceAll : bool) : EditProposal.t :=
  EditProposal.mk (Js.lit "a.c") (Js.lit "X") (Js.lit "swap") true replaceAll.

Definition abcStore : Store.t :=
  Store.run [Store.LoadMarkdown (Some (Js.lit "a.c abc a.c"))] Store.initial.

(** [keyword] occurs in [block], letters compared up to case. *)
Definition occursIn (keyword block : list N) : bool :=
  match searchBy (map (unitTest true) keyword) block with
  | Some _ => true
  | None => false
  end.

(** Some keyword occurs in the lower-cased block. *)
Definition mentionsAny (keywords : list (list N)) (block : list N) : bool :=
  existsb (fun keyword => occursIn keyword (Js.toLowerCase block)) keywords.

(** The block at index [i] with the block before it and the block after it,
    joined by blank lines. *)
Definition sectionAround (blocks : list (list N)) (i : Z) : list N :=
  Js.join (Js.nl ++ Js.nl) (Js.slice blocks (Z.max 0 (i - 1)) (Z.min (lenZ blocks) (i + 2))).

(** What [scoreBlocks] keeps of its sections: each one stands for a block
    that mentions a keyword and carries the text around that block. *)
Definition sectionOk (blocks keywords : list (list N)) (e : SectionEntry.t) : Prop :=
  exists b, at_ blocks (SectionEntry.index e) = Some b
            /\ mentionsAny keywords b = true
            /\ SectionEntry.text e = sectionAround blocks (SectionEntry.index e).

Definition notesText : list N :=
  Js.lit "Intro" ++ Js.nl ++ Js.nl ++ Js.lit "The Cat sat" ++ Js.nl ++ Js.nl
  ++ Js.lit "A dog" ++ Js.nl ++ Js.nl ++ Js.lit "End".

(** [s.indexOf(p, position)]: the search starts at the clamped position. *)
Definition indexOfFrom (s p : list N) (position : Z) : Z :=
  let start := Js.clampIdx (length s) position in
  match Js.search p (drop start s) with
  | Some i => Z.of_nat (start + i)
  | None => -1
  end.

Module Route.

(** The [while] loop; [index] is the offset found last.  The result is
    [None] when the loop is still running after [fuel] rounds. *)
Fixpoint occurrenceLoop (fuel : nat) (markdown pattern : list N) (index : Z)
    (occurrences : list Z) : option (list Z) :=
  match fuel with
  | O => None
  | S fuel' =>
      if index =? -1 then Some occurrences
      else occurrenceLoop fuel' markdown pattern
                          (indexOfFrom markdown pattern (index + 1))
                          (occurrences ++ [index])
  end.

Definition findAllOccurrences (fuel : nat) (markdown pattern : list N) : option (list Z) :=
  occurrenceLoop fuel markdown pattern (Js.indexOf markdown pattern) [].

End Route.

(** [pattern] stands in [s] at offset [i]. *)
Definition occursAt (pattern s : list N) (i : nat) : bool :=
  Js.isPrefix pattern (drop i s).

(** The offsets from [start] on at which [pattern] stands in [s], ascending. *)
Definition offsetsFrom (pattern s : list N) (start : nat) : list Z :=
  map Z.of_nat (List.filter (occursAt pattern s) (seq start (S (length s) - start))).

Module ClientIndex.

(** [getPageForLine] of the client's index. *)
Definition getPageForLine (idx : Client.MMDIndex) (lineNum : Z) : Z :=
  match Client.linesData idx with
  | Some d =>
      if Client.loaded idx then
        match pageScan (pages d) 0 lineNum with
        | Some pg => pg
        | None =>
            match last (pages d) with
            | Some p => if page p =? 0 then 1 else page p
            | None => 1
            end
        end
      else 1
  | None => 1
  end.

End ClientIndex.

(** The hits among the lines [ls] of a page, the first of which has the
    number [lineNum]. *)
Fixpoint pageHits (regex : Re.regex) (currentPage : Z) (ls : list MMDLine) (lineNum : Z)
    : list Client.Hit.t :=
  match ls with
  | [] => []
  | l :: ls' =>
      (if Re.test regex (text l) then [Client.Hit.mk lineNum (text l) currentPage] else [])
      ++ pageHits regex currentPage ls' (lineNum + 1)
  end.

Fixpoint pagesHits (regex : Re.regex) (ps : list MMDPage) (lineNum : Z) : list Client.Hit.t :=
  match ps with
  | [] => []
  | p :: ps' =>
      pageHits regex (page p) (lines p) lineNum
      ++ pagesHits regex ps' (lineNum + lenZ (lines p))
  end.

(** The texts of the lines of the pages [ps], in order. *)
Definition pageTexts (ps : list MMDPage) : list (list N) :=
  concat (map (fun p => map text (lines p)) ps).

(** What holds of a hit reported for the pages [ps] when the first line of
    [ps] has the number [n]. *)
Definition hitOk (regex : Re.regex) (ps : list MMDPage) (n : Z) (h : Client.Hit.t) : Prop :=
  n <= Client.Hit.lineNum h
  /\ pageTexts ps !! Z.to_nat (Client.Hit.lineNum h - n) = Some (Client.Hit.text h)
  /\ Re.test regex (Client.Hit.text h) = true
  /\ pageScan ps n (Client.Hit.lineNum h) = Some (Client.Hit.page h).

Definition hitBefore (a b : Client.Hit.t) : Prop := Client.Hit.lineNum a < Client.Hit.lineNum b.

Definition loadedClient : Client.MMDIndex := Client.mkIndex (Some sampleData) true.

(** * Properties *)

(** ** The model at work *)

Example numToString_ex :
  Js.numToString 25000 = Js.lit "25000" /\ Js.numToString 0 = Js.lit "0"
  /\ Js.numToString (-7) = Js.lit "-7".
Proof. vm_compute. auto. Qed.

Example floor_07_25000 : Js.floorDouble (Js.mulDouble 25000 Js.d0_7) = 17500.
Proof. reflexivity. Qed.

Example floor_07_90 : Js.floorDouble (Js.mulDouble 90 Js.d0_7) = 62.
Proof. reflexivity. Qed.

Example substring_ex :
  Js.substring (Js.lit "abcdef") 4 1 = Js.lit "bcd"
  /\ Js.substring (Js.lit "abcdef") (-3) 2 = Js.lit "ab"
  /\ Js.substringFrom (Js.lit "abcdef") 4 = Js.lit "ef"
  /\ Js.trim (Js.lit "  a b ") = Js.lit "a b"
  /\ Js.indexOf (Js.lit "abcabc") (Js.lit "ca") = 2
  /\ Js.indexOf (Js.lit "abc") (Js.lit "x") = -1
  /\ Js.indexOf [] [] = 0.
Proof. vm_compute. repeat split. Qed.

Example re_ex1 :
  Re.matchAll (Re.seqs [Re.RWordB; Re.atLeast 3 Re.word; Re.RWordB])
    (Js.lit "fix the big typo in ch 12_a") = [Js.lit "fix"; Js.lit "the"; Js.lit "big"; Js.lit "typo"; Js.lit "12_a"].
Proof. vm_compute. reflexivity. Qed.

Example re_ex2 :
  Re.capture1 (Re.seqs [Re.strI (Js.lit "chapter"); Re.plus Re.space; Re.RGroup (Re.plus Re.digit)])
    (Js.lit "see CHAPTER   42b") = Some (Js.lit "42").
Proof. vm_compute. reflexivity. Qed.

Example re_ex3 :
  Re.split (Re.plus Re.space) (Js.lit "a  b c ") = [Js.lit "a"; Js.lit "b"; Js.lit "c"; []]
  /\ Re.split (Re.plus Re.space) [] = [[]]
  /\ Re.replaceAll (Re.chr 125) (fun _ => []) (Js.lit "a}b}}") = Js.lit "ab".
Proof. vm_compute. repeat split. Qed.

Example extractIntent_ex :
  let i := extractIntent (Js.lit "Change the title of Chapter 12 to 'New Dawn' please") in
  IntentInfo.keywords i = map Js.lit ["change"; "title"; "chapter"; "dawn"; "please"]
  /\ IntentInfo.intent i = ChapterIntent
  /\ IntentInfo.mentions i = map Js.lit ["New Dawn"; "Chapter 12"].
Proof. vm_compute. repeat split. Qed.

Example compile_ex :
  ReSyntax.testSource true (Js.lit "(?:Chapter|chapter)\s*12[^\n]*") (Js.lit "see CHAPTER 12: x")
    = Some (Ok true)
  /\ ReSyntax.testSource true (Js.lit "a.c") (Js.lit "xxABCxx") = Some (Ok true)
  /\ ReSyntax.testSource true (Js.lit "a\.c") (Js.lit "xxABCxx") = Some (Ok false)
  /\ ReSyntax.testSource true (Js.lit "(") (Js.lit "f(x)") = Some Throw
  /\ ReSyntax.testSource true (Js.lit "a)") (Js.lit "a)") = Some Throw
  /\ ReSyntax.testSource true (Js.lit "*a") (Js.lit "a") = Some Throw
  /\ ReSyntax.testSource true (Js.lit "[a-c]+\d") (Js.lit "xB7") = Some (Ok true)
  /\ ReSyntax.testSource false (Js.lit "x{2}") (Js.lit "xx") = None.
Proof. vm_compute. repeat split. Qed.

Example sampleIndex_chapters :
  chapters sampleIndex = [Chapter.mk (Js.lit "Chapter 3: Origins") 2 7]
  /\ loaded sampleIndex = true
  /\ findTextLines sampleIndex (Js.lit " SPARK ") = [3; 4]
  /\ textToLinesMap sampleIndex !! Js.lit "spark" = Some [4]
  /\ getPageForLine sampleIndex 1 = 1 /\ getPageForLine sampleIndex 2 = 7
  /\ map ChapterHit.lineNum (findChapter sampleIndex (Js.lit "3")) = [2].
Proof. vm_compute. repeat split. Qed.

Example getRelevantContext_small :
  getRelevantContext newIndex (Js.lit "0123456789ABCDEFGHIJKLMNOPQRST") None [] 10
  = Ok (Js.lit "0123456" ++ Js.nl ++ Js.nl ++ Js.lit "[" ++ Js.nl ++ Js.lit "[... truncated ...]").
Proof. vm_compute. reflexivity. Qed.

Example getRelevantContext_fits :
  getRelevantContext newIndex (Js.lit "short document") None (Js.lit "tidy it") 25000
  = Ok (Js.lit "short document").
Proof. vm_compute. reflexivity. Qed.

Example floor_03 :
  Js.floorDouble (Js.mulDouble 25000 Js.d0_3) = 7500
  /\ Js.floorDouble (Js.mulDouble 90 Js.d0_3) = 27
  /\ Js.floorDouble (Js.mulDouble 10 Js.d0_7) = 7.
Proof. repeat split. Qed.

Example isChapter_ex :
  map isChapter [Js.lit "## Chapter 1"; Js.lit "####### Chapter 1"; Js.lit "Chapter 12 ends}";
                 Js.lit "Chapter 12"; Js.lit "\SECTION{x}"; Js.lit "a \section{x}";
                 Js.lit "\chapter*{Intro}"]
  = [true; false; true; false; true; false; true]
  /\ chapterTitle (Js.lit "\chapter{Intro} \title{X}") = Js.lit "Intro X"
  /\ chapterTitle (Js.lit "}}}}}}") = Js.lit "}}}}}}".
Proof. vm_compute. repeat split. Qed.

(** The three heading patterns of the rename step find what their sources,
    given to the RegExp constructor, find. *)
Example headingPatterns_as_compiled :
  let doc := Js.lit "# Chapter 12: Dawn" ++ Js.nl ++ Js.lit "\section*{The CHAPTER  12 story} chapter 121" in
  let sources := [Js.lit "(?:Chapter|chapter)\s*12[^\n]*";
                  Js.lit "\\section\*?\{[^}]*Chapter\s*12[^}]*\}";
                  Js.lit "#+\s*Chapter\s*12[^\n]*"] in
  map (fun src => match ReSyntax.compile true src with
                  | ReSyntax.Compiled r => Some (Re.matchAll r doc)
                  | _ => None
                  end) sources
  = map (fun r => Some (Re.matchAll r doc)) (headingPatterns (Js.lit "12")).
Proof. vm_compute. reflexivity. Qed.

Example getRelevantContext_selection :
  getRelevantContext sampleIndex (Js.lit "It began with a single spark.") (Some (Js.lit "spark"))
    (Js.lit "dim it") 25000
  = Ok (Js.lit "Contents" ++ Js.lit "Chapter 3: Origins ..... 7"
        ++ Js.lit "  \section*{Chapter 3: Origins}  " ++ Js.lit "It began with a single spark."
        ++ Js.lit "The spark became a fire."
        ++ sepLocation
        ++ Js.lit "Contents" ++ Js.lit "Chapter 3: Origins ..... 7"
        ++ Js.lit "  \section*{Chapter 3: Origins}  " ++ Js.lit "It began with a single spark."
        ++ Js.lit "The spark became a fire."
        ++ Js.nl ++ Js.nl ++ Js.lit "[Selected Text Location] Found at:" ++ Js.nl
        ++ Js.lit "- Page 7, Line 3" ++ Js.nl ++ Js.lit "- Page 7, Line 4" ++ Js.nl
        ++ warningSign ++ Js.lit " IMPORTANT: This text appears 2 times. Update ALL occurrences."
        ++ Js.nl ++ Js.nl ++ Js.nl
        ++ Js.lit "IMPORTANT: The selected text appears 2 times in the document. Make sure to update ALL occurrences if needed.").
Proof. vm_compute. reflexivity. Qed.

(** ** Strings, sets and sorting *)

Section ListFacts.

Lemma lenZ_nonneg {A} (l : list A) : 0 <= lenZ l.
Proof. unfold lenZ. lia. Qed.

Lemma lenZ_app {A} (l1 l2 : list A) : lenZ (l1 ++ l2) = lenZ l1 + lenZ l2.
Proof. unfold lenZ. rewrite length_app. lia. Qed.

Lemma isEmpty_true (s : list N) : isEmpty s = true <-> s = [].
Proof. destruct s; simpl; split; congruence. Qed.

Lemma isEmpty_false (s : list N) : isEmpty s = false <-> s <> [].
Proof. destruct s; simpl; split; congruence. Qed.

Lemma substring_prefix (s : list N) (b : Z) :
  Js.substring s 0 b = take (Z.to_nat b) s.
Proof.
  unfold Js.substring, Js.clampIdx.
  replace (Z.to_nat (Z.min (Z.max 0 0) (Z.of_nat (length s)))) with 0%nat by lia.
  rewrite Nat.min_0_l, Nat.max_0_l, Nat.sub_0_r. simpl.
  destruct (Z_le_gt_dec b (Z.of_nat (length s))).
  - f_equal. lia.
  - rewrite (take_ge s (Z.to_nat b)) by lia. apply take_ge. lia.
Qed.

Lemma length_substring_prefix (s : list N) (b : Z) :
  0 <= b -> lenZ (Js.substring s 0 b) <= b.
Proof.
  intros Hb. rewrite substring_prefix. unfold lenZ. rewrite length_take. lia.
Qed.

Lemma length_substring_le (s : list N) (a b : Z) :
  (length (Js.substring s a b) <= length s)%nat.
Proof.
  unfold Js.substring. rewrite length_take, length_drop. lia.
Qed.

(** [setAdd] and [setAddAll] *)

Lemma inZ_spec (x : Z) (l : list Z) : Js.inZ x l = true <-> x ∈ l.
Proof.
  unfold Js.inZ. rewrite existsb_exists. split.
  - intros (y & Hy & Heq). apply Z.eqb_eq in Heq. subst. now apply list_elem_of_In.
  - intros H. exists x. split; [now apply list_elem_of_In | apply Z.eqb_refl].
Qed.

Lemma elem_of_setAdd (s : list Z) (x y : Z) : y ∈ Js.setAdd s x <-> y ∈ s \/ y = x.
Proof.
  unfold Js.setAdd. destruct (Js.inZ x s) eqn:E.
  - apply inZ_spec in E. split; [auto | intros [H | ->]; auto].
  - rewrite elem_of_app, list_elem_of_singleton. tauto.
Qed.

Lemma NoDup_setAdd (s : list Z) (x : Z) : NoDup s -> NoDup (Js.setAdd s x).
Proof.
  intros H. unfold Js.setAdd. destruct (Js.inZ x s) eqn:E; auto.
  apply NoDup_app. repeat split; auto.
  - intros y Hy Hx. apply list_elem_of_singleton in Hx. subst.
    apply inZ_spec in Hy. congruence.
  - apply NoDup_singleton.
Qed.

Lemma elem_of_setAddAll (xs s : list Z) (y : Z) :
  y ∈ Js.setAddAll s xs <-> y ∈ s \/ y ∈ xs.
Proof.
  unfold Js.setAddAll. revert s. induction xs as [| x xs IH]; intros s; simpl.
  - rewrite elem_of_nil. tauto.
  - rewrite IH, elem_of_setAdd, elem_of_cons. tauto.
Qed.

Lemma NoDup_setAddAll (xs s : list Z) : NoDup s -> NoDup (Js.setAddAll s xs).
Proof.
  unfold Js.setAddAll. revert s. induction xs as [| x xs IH]; intros s H; simpl; auto.
  apply IH. now apply NoDup_setAdd.
Qed.

(** [sortBy] *)

Context {A : Type} (key : A -> Z).

Lemma insertSorted_perm (x : A) (l : list A) : Js.insertSorted key x l ≡ₚ x :: l.
Proof.
  induction l as [| y l IH]; simpl; auto.
  destruct (key y <? key x); auto.
  rewrite IH. apply Permutation_swap.
Qed.

Lemma sortBy_perm (l : list A) : Js.sortBy key l ≡ₚ l.
Proof.
  induction l as [| x l IH]; simpl; auto.
  unfold Js.sortBy in *. simpl. rewrite insertSorted_perm. now constructor.
Qed.

Lemma elem_of_sortBy (l : list A) (x : A) : x ∈ Js.sortBy key l <-> x ∈ l.
Proof. now rewrite sortBy_perm. Qed.

Lemma length_sortBy (l : list A) : length (Js.sortBy key l) = length l.
Proof. now rewrite sortBy_perm. Qed.

Lemma insertSorted_sorted (x : A) (l : list A) :
  StronglySorted (Js.keyLe key) l -> StronglySorted (Js.keyLe key) (Js.insertSorted key x l).
Proof.
  induction 1 as [| y l Hs IH Hall]; simpl.
  - repeat constructor.
  - destruct (key y <? key x) eqn:E.
    + constructor; auto.
      rewrite insertSorted_perm. constructor; auto.
      unfold Js.keyLe. apply Z.ltb_lt in E. lia.
    + apply Z.ltb_ge in E. constructor.
      * now constructor.
      * constructor; auto.
        eapply Forall_impl; [exact Hall |]. unfold Js.keyLe. intros; simpl in *. lia.
Qed.

Lemma sortBy_sorted (l : list A) : StronglySorted (Js.keyLe key) (Js.sortBy key l).
Proof.
  induction l as [| x l IH]; [constructor |].
  unfold Js.sortBy in *. simpl. now apply insertSorted_sorted.
Qed.

End ListFacts.

Lemma sortNum_strict (l : list Z) : NoDup l -> StronglySorted Z.lt (Js.sortNum l).
Proof.
  intros Hnd.
  assert (Hs : StronglySorted (Js.keyLe id) (Js.sortNum l)) by apply sortBy_sorted.
  assert (Hn : NoDup (Js.sortNum l)).
  { unfold Js.sortNum. now rewrite sortBy_perm. }
  induction Hs as [| x m Hs IH Hall]; constructor.
  - apply IH. now inversion Hn.
  - inversion Hn as [| ? ? Hx Hm]; subst.
    rewrite Forall_forall in *. intros y Hy.
    specialize (Hall y Hy). unfold Js.keyLe, id in Hall.
    assert (x <> y) by (intros ->; auto). lia.
Qed.

Lemma elem_of_sortNum (l : list Z) (x : Z) : x ∈ Js.sortNum l <-> x ∈ l.
Proof. apply elem_of_sortBy. Qed.

(** ** The built index *)

Lemma buildPage_fields (p : MMDPage) (st : MMDIndexServer) :
  linesData (buildPage st p) = linesData st
  /\ loaded (buildPage st p) = loaded st
  /\ lineTexts (buildPage st p) = lineTexts st ++ map text (lines p).
Proof.
  unfold buildPage. generalize (page p). intros pg.
  revert st. induction (lines p) as [| l ls IH]; intros st; simpl.
  - now rewrite app_nil_r.
  - destruct (IH (buildLine pg st l)) as (H1 & H2 & H3).
    rewrite H1, H2, H3. simpl. now rewrite <- app_assoc.
Qed.

Lemma buildPages_fields (ps : list MMDPage) (st : MMDIndexServer) :
  linesData (fold_left buildPage ps st) = linesData st
  /\ loaded (fold_left buildPage ps st) = loaded st
  /\ lineTexts (fold_left buildPage ps st)
     = lineTexts st ++ concat (map (fun p => map text (lines p)) ps).
Proof.
  revert st. induction ps as [| p ps IH]; intros st; simpl.
  - now rewrite app_nil_r.
  - destruct (IH (buildPage st p)) as (H1 & H2 & H3).
    destruct (buildPage_fields p st) as (G1 & G2 & G3).
    rewrite H1, H2, H3, G1, G2, G3. now rewrite <- app_assoc.
Qed.

Lemma builtIndex_fields (d : MMDLinesData) :
  linesData (builtIndex d) = Some d
  /\ loaded (builtIndex d) = true
  /\ lineTexts (builtIndex d) = allLines d.
Proof.
  unfold builtIndex, getMMDIndex, load, buildIndex, allLines. simpl.
  destruct (buildPages_fields (pages d) (mkIndex (Some d) ∅ [] [] false)) as (H1 & H2 & H3).
  simpl in *. now rewrite H1, H3.
Qed.

Lemma builtIndex_available (d : MMDLinesData) : unavailable (builtIndex d) = false.
Proof.
  destruct (builtIndex_fields d) as (H1 & H2 & _).
  unfold unavailable. now rewrite H1, H2.
Qed.

(** ** [findTextLines] *)

Lemma scanLines_complete (normalized : list N) (texts : list (list N)) :
  forall (i0 : Z) (j : nat) (t : list N),
    texts !! j = Some t ->
    Js.includes (Js.toLowerCase t) normalized = true ->
    i0 + Z.of_nat j ∈ scanLines normalized i0 texts.
Proof.
  induction texts as [| u texts IH]; intros i0 j t Hj Hinc; [discriminate |].
  destruct j as [| j].
  - simpl in *. injection Hj as ->. rewrite Hinc. rewrite Z.add_0_r. constructor.
  - replace (i0 + Z.of_nat (S j)) with ((i0 + 1) + Z.of_nat j) by lia.
    simpl in *.
    destruct (Js.includes (Js.toLowerCase u) normalized).
    + apply elem_of_cons. right. eapply IH; eauto.
    + eapply IH; eauto.
Qed.

Lemma NoDup_fold_setAddAll {B} (f : B -> list Z) (ws : list B) (acc : list Z) :
  NoDup acc -> NoDup (fold_left (fun acc w => Js.setAddAll acc (f w)) ws acc).
Proof.
  revert acc. induction ws as [| w ws IH]; intros acc Hacc; simpl; auto.
  apply IH. now apply NoDup_setAddAll.
Qed.

Lemma findTextLines_NoDup (st : MMDIndexServer) (fragment : list N) :
  NoDup (findTextLines st fragment).
Proof.
  unfold findTextLines. destruct (unavailable st); [apply NoDup_nil_2 |].
  unfold Js.sortNum. rewrite sortBy_perm.
  apply NoDup_setAddAll, NoDup_fold_setAddAll, NoDup_setAddAll, NoDup_nil_2.
Qed.

(** C2.  For the index built from any transcript and for any fragment,
    [findTextLines] returns global line indices in strictly ascending order,
    hence without duplicates, and the index of every line whose lowercased
    text contains the trimmed, lowercased fragment is among them. *)
Theorem findTextLines_sorted_complete (d : MMDLinesData) (fragment : list N) :
  StronglySorted Z.lt (findTextLines (builtIndex d) fragment)
  /\ NoDup (findTextLines (builtIndex d) fragment)
  /\ forall (i : nat) (t : list N),
       allLines d !! i = Some t ->
       Js.includes (Js.toLowerCase t) (Js.toLowerCase (Js.trim fragment)) = true ->
       Z.of_nat i ∈ findTextLines (builtIndex d) fragment.
Proof.
  split; [| split].
  - pose proof (findTextLines_NoDup (builtIndex d) fragment) as Hnd.
    unfold findTextLines in *. destruct (unavailable (builtIndex d)); [constructor |].
    apply sortNum_strict. unfold Js.sortNum in Hnd. now rewrite sortBy_perm in Hnd.
  - apply findTextLines_NoDup.
  - intros i t Hi Hinc. unfold findTextLines.
    rewrite builtIndex_available.
    apply elem_of_sortNum, elem_of_setAddAll. right.
    destruct (builtIndex_fields d) as (_ & _ & ->).
    now apply (scanLines_complete _ _ 0 i t).
Qed.

(** ** [findAllOccurrencesWithContext] *)

Lemma collectOccurrences_bounded (st : MMDIndexServer) (lineNums : list Z) :
  forall results : list Occurrence.t,
    Forall (occurrenceBounded st) results ->
    exists occs, collectOccurrences st lineNums results = Ok occs
                 /\ Forall (occurrenceBounded st) occs.
Proof.
  induction lineNums as [| n lineNums IH]; intros results Hres; simpl.
  - eauto.
  - destruct ((0 <=? n) && (n <? Z.of_nat (length (lineTexts st)))) eqn:Hguard.
    + apply andb_true_iff in Hguard as [H0 H1].
      apply Z.leb_le in H0. apply Z.ltb_lt in H1.
      destruct (lookup_lt_is_Some_2 (lineTexts st) (Z.to_nat n)) as [t Ht]; [lia |].
      rewrite Ht. apply IH.
      apply Forall_app. split; [assumption |].
      constructor; [| constructor].
      unfold occurrenceBounded; simpl. repeat split.
      * apply length_substring_prefix. lia.
      * apply length_substring_prefix. lia.
      * assumption.
      * unfold lenZ. assumption.
    + now apply IH.
Qed.

(** C6.  For every index, fragment and [maxResults],
    [findAllOccurrencesWithContext] returns normally, and each occurrence it
    returns has a context of at most 1000 code units, a text of at most 200
    code units and a line index within [0, number of lines). *)
Theorem windowed_occurrences_bounded (st : MMDIndexServer) (text : list N) (maxResults : Z) :
  exists occs : list Occurrence.t,
    findAllOccurrencesWithContext st text maxResults = Ok occs
    /\ Forall (occurrenceBounded st) occs.
Proof.
  unfold findAllOccurrencesWithContext.
  destruct (unavailable st || (length (Js.trim text) =? 0)%nat).
  - exists []. split; [reflexivity | constructor].
  - apply collectOccurrences_bounded. constructor.
Qed.

(** ** The unloaded index *)

Lemma getMMDIndex_missing : loaded (getMMDIndex None None) = false.
Proof. reflexivity. Qed.

Lemma getMMDIndex_retry_missing (st : MMDIndexServer) :
  loaded st = false -> loaded (getMMDIndex None (Some st)) = false.
Proof. intros H. unfold getMMDIndex, load. now rewrite !H. Qed.

Lemma unavailable_unloaded (st : MMDIndexServer) : loaded st = false -> unavailable st = true.
Proof. intros H. unfold unavailable. now rewrite H. Qed.

(** C9.  While the index is not loaded every query method returns its
    empty result and none throws: [findTextLines], [findChapter] and
    [findAllOccurrencesWithContext] return the empty list,
    [getContextAroundLines] and [getEnhancedContext] the empty string, and
    [getDocumentStructure] no chapter, zero pages and zero lines. *)
Theorem unloaded_queries_empty (st : MMDIndexServer) (text query markdown request : list N)
    (selectedText : option (list N)) (lineNums : list Z) (contextLines maxResults : Z) :
  loaded st = false ->
  findTextLines st text = []
  /\ findChapter st query = []
  /\ findAllOccurrencesWithContext st text maxResults = Ok []
  /\ getContextAroundLines st lineNums contextLines = []
  /\ getEnhancedContext st markdown selectedText request = []
  /\ getDocumentStructure st = Structure.mk [] 0 0.
Proof.
  intros Hl. pose proof (unavailable_unloaded st Hl) as Hu.
  unfold findTextLines, findChapter, findAllOccurrencesWithContext,
    getContextAroundLines, getEnhancedContext, getDocumentStructure.
  rewrite Hu, Hl. simpl. repeat split. now destruct (linesData st).
Qed.

Lemma unloaded_queries_empty_witness :
  loaded (getMMDIndex None None) = false
  /\ findTextLines (getMMDIndex None None) (Js.lit "spark") = []
  /\ getEnhancedContext (getMMDIndex None None) (Js.lit "doc") (Some (Js.lit "doc"))
       (Js.lit "fix chapter 3") = [].
Proof.
  pose proof (unloaded_queries_empty (getMMDIndex None None) (Js.lit "spark") []
                (Js.lit "doc") (Js.lit "fix chapter 3") (Some (Js.lit "doc")) [] 15 5
                getMMDIndex_missing) as (H1 & _ & _ & _ & H5 & _).
  split; [apply getMMDIndex_missing | split; assumption].
Defined.

(** ** [getPageForLine] *)

Lemma lineCount_nonneg (ps : list MMDPage) : 0 <= lineCount ps.
Proof.
  induction ps as [| p ps IH]; simpl; [lia |].
  pose proof (lenZ_nonneg (lines p)). lia.
Qed.

Lemma pageScan_inside (before : list MMDPage) (p : MMDPage) (after : list MMDPage) :
  forall c lineNum : Z,
    c + lineCount before <= lineNum < c + lineCount before + lenZ (lines p) ->
    pageScan (before ++ p :: after) c lineNum = Some (page p).
Proof.
  induction before as [| q before IH]; intros c lineNum H; simpl in *.
  - unfold lenZ in H. destruct (Z.ltb_spec lineNum (c + Z.of_nat (length (lines p)))); [auto | lia].
  - pose proof (lineCount_nonneg before). unfold lenZ in H.
    destruct (Z.ltb_spec lineNum (c + Z.of_nat (length (lines q)))) as [Hlt | Hge]; [lia |].
    apply IH. unfold lenZ in *. lia.
Qed.

Lemma pageScan_beyond (ps : list MMDPage) :
  forall c lineNum : Z, c + lineCount ps <= lineNum -> pageScan ps c lineNum = None.
Proof.
  induction ps as [| q ps IH]; intros c lineNum H; simpl in *; auto.
  pose proof (lineCount_nonneg ps). unfold lenZ in H.
  destruct (Z.ltb_spec lineNum (c + Z.of_nat (length (lines q)))) as [Hlt | Hge]; [lia |].
  apply IH. lia.
Qed.

(** C10 (amended).  [getPageForLine] is a total function.  It returns 1
    while the index is not loaded; for a line index within
    [0, number of lines) it returns the page number of the page that holds
    the line, line counts being accumulated in page order; for a line index
    at or beyond the number of lines it returns the page number of the last
    page when that number is not 0, and 1 when there is no page or the last
    page is numbered 0. *)
Theorem getPageForLine_spec (st : MMDIndexServer) (lineNum : Z) :
  (unavailable st = true -> getPageForLine st lineNum = 1)
  /\ (forall d before p after,
        linesData st = Some d -> loaded st = true ->
        pages d = before ++ p :: after ->
        lineCount before <= lineNum < lineCount before + lenZ (lines p) ->
        getPageForLine st lineNum = page p)
  /\ (forall d,
        linesData st = Some d -> loaded st = true ->
        lineCount (pages d) <= lineNum ->
        (pages d = [] -> getPageForLine st lineNum = 1)
        /\ (forall p, last (pages d) = Some p -> page p <> 0 ->
                      getPageForLine st lineNum = page p)
        /\ (forall p, last (pages d) = Some p -> page p = 0 ->
                      getPageForLine st lineNum = 1)).
Proof.
  unfold getPageForLine, unavailable. split; [| split].
  - destruct (linesData st); [| reflexivity].
    destruct (loaded st); [discriminate | reflexivity].
  - intros d before p after Hd Hl Hp Hin. rewrite Hd, Hl, Hp.
    now rewrite (pageScan_inside before p after 0 lineNum) by lia.
  - intros d Hd Hl Hge. rewrite Hd, Hl.
    rewrite (pageScan_beyond (pages d) 0 lineNum) by lia.
    split; [| split].
    + intros Hnil. rewrite Hnil. reflexivity.
    + intros p Hp Hne. rewrite Hp.
      destruct (Z.eqb_spec (page p) 0); [contradiction | reflexivity].
    + intros p Hp H0. rewrite Hp, H0. reflexivity.
Qed.

Lemma getPageForLine_spec_witness :
  getPageForLine (getMMDIndex None None) 3 = 1
  /\ getPageForLine sampleIndex 3 = 7
  /\ getPageForLine sampleIndex 5 = 7
  /\ getPageForLine (builtIndex pageZeroData) 1 = 1.
Proof.
  destruct (getPageForLine_spec (getMMDIndex None None) 3) as (H1 & _ & _).
  destruct (getPageForLine_spec sampleIndex 3) as (_ & H2 & _).
  destruct (getPageForLine_spec sampleIndex 5) as (_ & _ & H3).
  destruct (getPageForLine_spec (builtIndex pageZeroData) 1) as (_ & _ & H4).
  split; [| split; [| split]].
  - apply H1. reflexivity.
  - apply (H2 sampleData [List.nth 0 (pages sampleData) {| image_id := []; page := 0; lines := [] |}]
              (List.nth 1 (pages sampleData) {| image_id := []; page := 0; lines := [] |}) []);
      [reflexivity | reflexivity | reflexivity | unfold lineCount, lenZ; simpl; lia].
  - destruct (H3 sampleData) as (_ & H & _); [reflexivity | reflexivity | unfold lineCount, lenZ; simpl; lia |].
    apply (H (List.nth 1 (pages sampleData) {| image_id := []; page := 0; lines := [] |}));
      [reflexivity | vm_compute; discriminate].
  - destruct (H4 pageZeroData) as (_ & _ & H); [reflexivity | reflexivity | unfold lineCount, lenZ; simpl; lia |].
    apply (H (List.nth 0 (pages pageZeroData) {| image_id := []; page := 1; lines := [] |}));
      reflexivity.
Defined.

(** C10, counterexample.  Where the last page is numbered 0 the method
    answers 1 for a line index past the last line, which is not the page
    number of the last page. *)
Lemma getPageForLine_last_page_zero :
  lineCount (pages pageZeroData) <= 1
  /\ page <$> last (pages pageZeroData) = Some 0
  /\ getPageForLine (builtIndex pageZeroData) 1 = 1.
Proof.
  split; [vm_compute; discriminate | split; reflexivity].
Qed.

(** ** The token index *)

Lemma sorted_snoc (l : list Z) (n : Z) :
  StronglySorted Z.lt l -> Forall (fun x => x < n) l -> StronglySorted Z.lt (l ++ [n]).
Proof.
  induction 1 as [| x l Hs IH Hall]; intros Hlt; simpl.
  - repeat constructor.
  - inversion Hlt; subst. constructor; auto.
    apply Forall_app. split; auto.
Qed.

Lemma indexFullText_lookup (n : Z) (t : list N) (m : gmap (list N) (list Z)) key l :
  indexFullText n t m !! key = Some l ->
  m !! key = Some l
  \/ (key = t /\ exists l0, (m !! key = Some l0 \/ (m !! key = None /\ l0 = []))
                            /\ l = l0 ++ [n] /\ (length l0 < 50)%nat).
Proof.
  unfold indexFullText. destruct (length t <? 200)%nat; [| auto].
  destruct (m !! t) as [existing |] eqn:Hm.
  - destruct (length existing <? 50)%nat eqn:Hlen; [| auto].
    destruct (decide (t = key)) as [<- | Hne].
    + rewrite lookup_insert_eq. intros [= <-]. right. split; auto.
      exists existing. apply Nat.ltb_lt in Hlen. auto.
    + rewrite lookup_insert_ne by assumption. auto.
  - destruct (decide (t = key)) as [<- | Hne].
    + rewrite lookup_insert_eq. intros [= <-]. right. split; auto.
      exists []. simpl. repeat split; auto; lia.
    + rewrite lookup_insert_ne by assumption. auto.
Qed.

Lemma indexWord_lookup (n : Z) (m : gmap (list N) (list Z)) (w : list N) key l :
  indexWord n m w !! key = Some l ->
  m !! key = Some l
  \/ (key = w /\ exists l0, (m !! key = Some l0 \/ (m !! key = None /\ l0 = []))
                            /\ l = l0 ++ [n] /\ (n ∉ l0) /\ (length l0 < 100)%nat).
Proof.
  unfold indexWord. destruct (m !! w) as [occ |] eqn:Hm.
  - destruct (negb (Js.inZ n occ) && (length occ <? 100)%nat) eqn:Hc; [| auto].
    apply andb_true_iff in Hc as [Hin Hlen].
    apply negb_true_iff in Hin. apply Nat.ltb_lt in Hlen.
    destruct (decide (w = key)) as [<- | Hne].
    + rewrite lookup_insert_eq. intros [= <-]. right. split; auto.
      exists occ. repeat split; auto.
      intros Hel. apply inZ_spec in Hel. congruence.
    + rewrite lookup_insert_ne by assumption. auto.
  - destruct (decide (w = key)) as [<- | Hne].
    + rewrite lookup_insert_eq. intros [= <-]. right. split; auto.
      exists []. simpl. repeat split; auto; [apply not_elem_of_nil | lia].
    + rewrite lookup_insert_ne by assumption. auto.
Qed.

Lemma Forall_lt_le (n : Z) (l : list Z) :
  Forall (fun x => x < n) l -> Forall (fun x => x <= n) l.
Proof. intros H. eapply Forall_impl; [exact H |]. intros; simpl in *; lia. Qed.

Lemma Forall_le_notin (n : Z) (l : list Z) :
  Forall (fun x => x <= n) l -> n ∉ l -> Forall (fun x => x < n) l.
Proof.
  rewrite !Forall_forall. intros H Hn x Hx.
  specialize (H x Hx). assert (x <> n) by (intros ->; auto). lia.
Qed.

Lemma Forall_snoc_le (n : Z) (l : list Z) :
  Forall (fun x => x < n) l -> Forall (fun x => x <= n) (l ++ [n]).
Proof.
  intros H. apply Forall_app. split; [now apply Forall_lt_le |].
  repeat constructor. lia.
Qed.

Lemma indexWords_mid (n : Z) (seen : list N -> Prop) (ws : list (list N)) :
  forall m : gmap (list N) (list Z),
    (forall w, w ∈ ws -> seen w) ->
    (forall key l, m !! key = Some l -> midList n seen key l) ->
    forall key l, fold_left (indexWord n) ws m !! key = Some l -> midList n seen key l.
Proof.
  induction ws as [| w ws IH]; intros m Hseen Hm key l; simpl; [apply Hm |].
  apply IH.
  - intros w' Hw'. apply Hseen. now right.
  - clear key l. intros key l Hl.
    apply indexWord_lookup in Hl as [Hl | (-> & l0 & Hl0 & -> & Hnot & Hlen)]; [now apply Hm |].
    assert (Hmid : midList n seen w l0).
    { destruct Hl0 as [Hl0 | [_ ->]]; [now apply Hm |].
      repeat split; try constructor; simpl; lia. }
    destruct Hmid as (Hs & Hle & _ & _).
    pose proof (Forall_le_notin n l0 Hle Hnot) as Hlt.
    repeat split.
    + now apply sorted_snoc.
    + now apply Forall_snoc_le.
    + rewrite length_app. simpl. lia.
    + intros Hns. exfalso. apply Hns, Hseen. now left.
Qed.

Lemma buildLine_tokenIndexInv (pg : Z) (st : MMDIndexServer) (ln : MMDLine) :
  tokenIndexInv st -> tokenIndexInv (buildLine pg st ln).
Proof.
  intros Hinv. unfold tokenIndexInv, buildLine. simpl.
  set (n := Z.of_nat (length (lineTexts st))).
  set (t := text ln).
  set (seen := fun k : list N => exists u, u ∈ lineTexts st ++ [t] /\ k ∈ lineWords u).
  assert (Hfinal : forall key l, midList n seen key l -> tokenList (lineTexts st ++ [t]) key l).
  { intros key l (Hs & Hle & H100 & H50). repeat split; auto.
    - rewrite lenZ_app. unfold lenZ. simpl. fold n.
      eapply Forall_impl; [exact Hle |]. intros; simpl in *; lia.
    - intros Hno. apply H50. intros (u & Hu & Hk). exact (Hno u Hu Hk). }
  assert (Hold : forall key l, textToLinesMap st !! key = Some l -> midList n seen key l).
  { intros key l Hk. destruct (Hinv key l Hk) as (Hs & Hlt & H100 & H50).
    repeat split; auto.
    - now apply Forall_lt_le.
    - intros Hns. apply H50. intros u Hu Hk'. apply Hns. exists u. split; auto.
      apply elem_of_app. now left. }
  intros key l Hl. apply Hfinal. revert key l Hl.
  unfold indexLineText. fold t.
  assert (Hw : lineWords t = if (2 <? length (Js.toLowerCase (Js.trim t)))%nat
                             then indexedWords (Js.toLowerCase (Js.trim t)) else [])
    by reflexivity.
  destruct (2 <? length (Js.toLowerCase (Js.trim t)))%nat; [| exact Hold].
  apply indexWords_mid.
  - intros w Hin. exists t. split; [apply elem_of_app; right; constructor |].
    now rewrite Hw.
  - intros key l Hl.
    apply indexFullText_lookup in Hl as [Hl | (-> & l0 & Hl0 & -> & Hlen)]; [now apply Hold |].
    assert (Hl0' : StronglySorted Z.lt l0 /\ Forall (fun x => x < n) l0).
    { destruct Hl0 as [Hl0 | [_ ->]].
      - destruct (Hinv _ _ Hl0) as (Hs & Hlt & _). auto.
      - split; constructor. }
    destruct Hl0' as [Hs Hlt].
    repeat split.
    + now apply sorted_snoc.
    + now apply Forall_snoc_le.
    + rewrite length_app. simpl. lia.
    + intros _. rewrite length_app. simpl. lia.
Qed.

Lemma buildPage_tokenIndexInv (p : MMDPage) (st : MMDIndexServer) :
  tokenIndexInv st -> tokenIndexInv (buildPage st p).
Proof.
  unfold buildPage. generalize (page p). intros pg. revert st.
  induction (lines p) as [| l ls IH]; intros st H; simpl; auto.
  apply IH. now apply buildLine_tokenIndexInv.
Qed.

Lemma builtIndex_tokenIndexInv (d : MMDLinesData) : tokenIndexInv (builtIndex d).
Proof.
  assert (H : forall ps st, tokenIndexInv st -> tokenIndexInv (fold_left buildPage ps st)).
  { induction ps as [| p ps IH]; intros st Hst; simpl; auto.
    apply IH. now apply buildPage_tokenIndexInv. }
  unfold builtIndex, getMMDIndex, load, buildIndex. simpl.
  specialize (H (pages d) (mkIndex (Some d) ∅ [] [] false)).
  unfold tokenIndexInv in *. simpl in *. apply H.
  intros key l Hl. now rewrite lookup_empty in Hl.
Qed.

Lemma sorted_lt_NoDup (l : list Z) : StronglySorted Z.lt l -> NoDup l.
Proof.
  induction 1 as [| x l Hs IH Hall]; constructor; auto.
  intros Hx. rewrite Forall_forall in Hall. specialize (Hall x Hx). lia.
Qed.

(** C8 (amended).  After [buildIndex], every list of the token index is
    strictly increasing, hence ordered and free of duplicates, and holds at
    most 100 line indices; a key that is not a word token of any line holds
    at most 50. *)
Theorem token_lists_bounded (d : MMDLinesData) (key : list N) (l : list Z) :
  textToLinesMap (builtIndex d) !! key = Some l ->
  StronglySorted Z.lt l
  /\ NoDup l
  /\ (length l <= 100)%nat
  /\ (~ isWordKey d key -> (length l <= 50)%nat).
Proof.
  intros Hl. destruct (builtIndex_tokenIndexInv d key l Hl) as (Hs & _ & H100 & H50).
  repeat split; auto.
  - now apply sorted_lt_NoDup.
  - intros Hno. apply H50. intros t Ht Hk. apply Hno. exists t. split; auto.
    destruct (builtIndex_fields d) as (_ & _ & <-). exact Ht.
Qed.

Lemma token_lists_bounded_witness :
  textToLinesMap sampleIndex !! Js.lit "spark" = Some [4]
  /\ StronglySorted Z.lt [4] /\ (length [4] <= 100)%nat.
Proof.
  destruct (token_lists_bounded sampleData (Js.lit "spark") [4]) as (H1 & _ & H3 & _).
  - vm_compute. reflexivity.
  - split; [vm_compute; reflexivity | split; assumption].
Defined.

(** C8, counterexample.  A full-line key that is also a word token is not
    held to 50 entries: the normalized text of every line is the key hello,
    and its list holds 51 line indices. *)
Lemma full_line_key_over_50 :
  Js.toLowerCase (Js.trim (Js.lit "hello")) = Js.lit "hello"
  /\ length <$> (textToLinesMap (builtIndex helloData) !! Js.lit "hello") = Some 51%nat.
Proof. split; vm_compute; reflexivity. Qed.

(** ** The shortest match of a pattern *)

Module ReFacts.
Import Re.

Lemma rmatch_passes (r : regex) : passes r.
Proof.
  induction r as [| p | r1 IH1 r2 IH2 | r1 IH1 r2 IH2 | r1 IH1 | r1 IH1 | | |];
    intros prev s caps k o H; simpl in H.
  - exists prev, s, caps. split; [assumption | simpl; lia].
  - destruct s as [| c s']; [discriminate |].
    destruct (p c); [| discriminate].
    exists (Some c), s', caps. split; [assumption | simpl; lia].
  - apply IH1 in H as (prev1 & s1 & caps1 & H & Hlen1).
    apply IH2 in H as (prev2 & s2 & caps2 & H & Hlen2).
    exists prev2, s2, caps2. split; [assumption | simpl; lia].
  - destruct (rmatch r1 prev s caps k) as [o1 |] eqn:E1.
    + injection H as ->. apply IH1 in E1 as (prev1 & s1 & caps1 & H & Hlen).
      exists prev1, s1, caps1. split; [assumption | simpl; lia].
    + apply IH2 in H as (prev2 & s2 & caps2 & H & Hlen).
      exists prev2, s2, caps2. split; [assumption | simpl; lia].
  - revert H. generalize (length s) at 1. intros n. revert prev s caps.
    induction n as [| n IHn]; intros prev s caps H.
    + exists prev, s, caps. split; [assumption | simpl; lia].
    + match type of H with
      | match ?m with _ => _ end = _ => destruct m as [o1 |] eqn:E1
      end.
      * injection H as ->. apply IH1 in E1 as (prev1 & s1 & caps1 & H & Hlen).
        destruct (length s1 <? length s)%nat; [| discriminate].
        apply IHn in H as (prev2 & s2 & caps2 & H & Hlen2).
        exists prev2, s2, caps2. split; [assumption | simpl in *; lia].
      * exists prev, s, caps. split; [assumption | simpl; lia].
  - apply IH1 in H as (prev1 & s1 & caps1 & H & Hlen).
    eexists _, _, _. split; [exact H | simpl; lia].
  - destruct prev; [discriminate |]. exists None, s, caps. split; [assumption | simpl; lia].
  - destruct s; [| discriminate]. exists prev, [], caps. split; [assumption | simpl; lia].
  - destruct (xorb _ _); [| discriminate].
    exists prev, s, caps. split; [assumption | simpl; lia].
Qed.

Lemma exec_minLen (r : regex) (s : list N) :
  forall prev f, exec r prev s = Some f -> (minLen r <= length s)%nat.
Proof.
  induction s as [| c s IH]; intros prev f H; simpl in H.
  - destruct (rmatch r prev [] [] accept) as [[s' caps] |] eqn:E; [| discriminate].
    apply rmatch_passes in E as (? & ? & ? & _ & Hlen). simpl in *. lia.
  - destruct (rmatch r prev (c :: s) [] accept) as [[s' caps] |] eqn:E.
    + apply rmatch_passes in E as (? & ? & ? & _ & Hlen). simpl in *. lia.
    + destruct (exec r (Some c) s) as [g |] eqn:Eg; [| discriminate].
      apply IH in Eg. simpl. lia.
Qed.

Lemma test_minLen (r : regex) (s : list N) :
  test r s = true -> (minLen r <= length s)%nat.
Proof.
  unfold test. destruct (exec r None s) as [f |] eqn:E; [| discriminate].
  intros _. eapply exec_minLen; eauto.
Qed.

End ReFacts.

(** Every line that one of the heading patterns matches is longer than five
    code units, so the length test of [buildIndex] never rejects it. *)
Lemma isChapter_length (t : list N) : isChapter t = true -> (5 <? length t)%nat = true.
Proof.
  unfold isChapter. intros H. apply Nat.ltb_lt.
  repeat (apply orb_true_iff in H as [H | H]);
    apply ReFacts.test_minLen in H;
    match type of H with (?m <= _)%nat => 
      let v := eval vm_compute in m in change m with v in H end; lia.
Qed.

(** ** Headings registered by [buildIndex] *)

Lemma buildLines_lineTexts (pg : Z) (ls : list MMDLine) :
  forall st, lineTexts (fold_left (buildLine pg) ls st) = lineTexts st ++ map text ls.
Proof.
  induction ls as [| l ls IH]; intros st; simpl.
  - now rewrite app_nil_r.
  - rewrite IH. simpl. now rewrite <- app_assoc.
Qed.

Lemma buildLine_chapters_mono (pg : Z) (st : MMDIndexServer) (l : MMDLine) (c : Chapter.t) :
  c ∈ chapters st -> c ∈ chapters (buildLine pg st l).
Proof.
  intros H. unfold buildLine, detectChapter. simpl.
  destruct (_ && _); [apply elem_of_app; now left | assumption].
Qed.

Lemma buildLines_chapters_mono (pg : Z) (ls : list MMDLine) (c : Chapter.t) :
  forall st, c ∈ chapters st -> c ∈ chapters (fold_left (buildLine pg) ls st).
Proof.
  induction ls as [| l ls IH]; intros st H; simpl; auto.
  apply IH. now apply buildLine_chapters_mono.
Qed.

Lemma buildPages_chapters_mono (ps : list MMDPage) (c : Chapter.t) :
  forall st, c ∈ chapters st -> c ∈ chapters (fold_left buildPage ps st).
Proof.
  induction ps as [| p ps IH]; intros st H; simpl; auto.
  apply IH. unfold buildPage. now apply buildLines_chapters_mono.
Qed.

Lemma buildPage_registers (st : MMDIndexServer) (p : MMDPage)
    (above : list MMDLine) (l : MMDLine) (below : list MMDLine) :
  lines p = above ++ l :: below ->
  isChapter (Js.trim (text l)) = true ->
  Chapter.mk (chapterTitle (Js.trim (text l))) (lenZ (lineTexts st) + lenZ above) (page p)
    ∈ chapters (buildPage st p).
Proof.
  intros Hl Hc. unfold buildPage. rewrite Hl, fold_left_app. simpl.
  apply buildLines_chapters_mono.
  unfold buildLine at 1, detectChapter. simpl.
  rewrite Hc, (isChapter_length _ Hc). simpl.
  apply elem_of_app. right.
  rewrite buildLines_lineTexts, length_app, length_map.
  unfold lenZ. rewrite Nat2Z.inj_add. constructor.
Qed.

Lemma lineCount_lineTexts (ps : list MMDPage) :
  lineCount ps = lenZ (concat (map (fun p => map text (lines p)) ps)).
Proof.
  induction ps as [| p ps IH]; simpl; [reflexivity |].
  rewrite lenZ_app, IH. unfold lenZ. now rewrite length_map.
Qed.

Lemma buildPages_registers (before : list MMDPage) (p : MMDPage) (after : list MMDPage)
    (above : list MMDLine) (l : MMDLine) (below : list MMDLine) (st : MMDIndexServer) :
  lineTexts st = [] ->
  lines p = above ++ l :: below ->
  isChapter (Js.trim (text l)) = true ->
  Chapter.mk (chapterTitle (Js.trim (text l))) (lineCount before + lenZ above) (page p)
    ∈ chapters (fold_left buildPage (before ++ p :: after) st).
Proof.
  intros Hst Hl Hc. rewrite fold_left_app. simpl.
  apply buildPages_chapters_mono.
  pose proof (buildPage_registers (fold_left buildPage before st) p above l below Hl Hc) as H.
  destruct (buildPages_fields before st) as (_ & _ & Ht).
  rewrite Ht, Hst in H. simpl in H. now rewrite lineCount_lineTexts.
Qed.

(** C7.  During the index build a line whose trimmed text matches a heading
    pattern is registered as a heading that carries the line's global index
    and the page number of the page holding the line; a line reading
    [\section*{Chapter 3: Origins}] is registered so with a title that
    contains [Chapter 3]. *)
Theorem heading_registered (d : MMDLinesData)
    (before : list MMDPage) (p : MMDPage) (after : list MMDPage)
    (above : list MMDLine) (l : MMDLine) (below : list MMDLine) :
  pages d = before ++ p :: after ->
  lines p = above ++ l :: below ->
  (isChapter (Js.trim (text l)) = true ->
   Chapter.mk (chapterTitle (Js.trim (text l))) (lineCount before + lenZ above) (page p)
     ∈ chapters (builtIndex d))
  /\ (Js.trim (text l) = originsLine ->
      exists c, c ∈ chapters (builtIndex d)
                /\ Chapter.lineNum c = lineCount before + lenZ above
                /\ Chapter.page c = page p
                /\ Js.includes (Chapter.title c) (Js.lit "Chapter 3") = true).
Proof.
  intros Hp Hl.
  assert (Hgen : isChapter (Js.trim (text l)) = true ->
                 Chapter.mk (chapterTitle (Js.trim (text l)))
                            (lineCount before + lenZ above) (page p)
                   ∈ chapters (builtIndex d)).
  { intros Hc. unfold builtIndex, getMMDIndex, load, buildIndex. simpl.
    apply elem_of_sortBy. rewrite Hp.
    now apply (buildPages_registers before p after above l below). }
  split; [exact Hgen |].
  intros Ht. eexists. split; [apply Hgen; rewrite Ht; vm_compute; reflexivity |].
  simpl. rewrite Ht. repeat split. 
Qed.

Lemma heading_registered_witness :
  Chapter.mk (Js.lit "Chapter 3: Origins") 2 7 ∈ chapters sampleIndex
  /\ exists c, c ∈ chapters sampleIndex /\ Chapter.lineNum c = 2 /\ Chapter.page c = 7
               /\ Js.includes (Chapter.title c) (Js.lit "Chapter 3") = true.
Proof.
  destruct (heading_registered sampleData
              [List.nth 0 (pages sampleData) {| image_id := []; page := 0; lines := [] |}]
              (List.nth 1 (pages sampleData) {| image_id := []; page := 0; lines := [] |})
              []
              []
              (mkLine "  \section*{Chapter 3: Origins}  ")
              [mkLine "It began with a single spark."; mkLine "The spark became a fire."]
              eq_refl eq_refl) as [H1 H2].
  split.
  - apply H1. vm_compute. reflexivity.
  - apply H2. vm_compute. reflexivity.
Defined.

(** ** Escaping before compilation *)

Lemma exec_RSet (p : N -> bool) (s : list N) :
  forall prev,
    match Re.exec (Re.RSet p) prev s with
    | None => Forall (fun c => p c = false) s
    | Some f =>
        s = Re.skipped f ++ Re.matched f ++ Re.rest f
        /\ Forall (fun c => p c = false) (Re.skipped f)
        /\ exists c, Re.matched f = [c] /\ p c = true
    end.
Proof.
  induction s as [| c s IH]; intros prev; simpl.
  - constructor.
  - destruct (p c) eqn:Hp; simpl.
    + rewrite Nat.sub_succ_l, Nat.sub_diag by lia. simpl.
      split; [reflexivity |]. split; [constructor |]. exists c. auto.
    + specialize (IH (Some c)).
      destruct (Re.exec (Re.RSet p) (Some c) s) as [f |]; simpl.
      * destruct IH as (Hs & Hsk & Hm). split; [now rewrite Hs at 1 |].
        split; [now constructor | assumption].
      * now constructor.
Qed.

Lemma flat_map_unchanged (p : N -> bool) (by_ : list N -> list N) (s : list N) :
  Forall (fun c => p c = false) s ->
  flat_map (fun c => if p c then by_ [c] else [c]) s = s.
Proof.
  induction 1 as [| c s Hc _ IH]; simpl; [reflexivity |].
  rewrite Hc. simpl. now rewrite IH.
Qed.

Lemma replaceAll_RSet (p : N -> bool) (by_ : list N -> list N) (s : list N) :
  Re.replaceAll (Re.RSet p) by_ s = flat_map (fun c => if p c then by_ [c] else [c]) s.
Proof.
  unfold Re.replaceAll, Re.matches.
  assert (H : forall fuel s prev, (length s < fuel)%nat ->
              Re.rebuild by_ (Re.scan fuel (Re.RSet p) prev s) s
              = flat_map (fun c => if p c then by_ [c] else [c]) s).
  { clear s. induction fuel as [| fuel IH]; intros s prev Hf; [lia |].
    simpl Re.scan. pose proof (exec_RSet p s prev) as He.
    destruct (Re.exec (Re.RSet p) prev s) as [f |].
    - destruct He as (Hs & Hsk & c & Hm & Hc). rewrite Hm.
      simpl Re.rebuild. rewrite Hm.
      rewrite IH.
      + rewrite Hs at 1. rewrite Hm, flat_map_app. simpl. rewrite Hc.
        now rewrite (flat_map_unchanged p by_ _ Hsk).
      + apply (f_equal length) in Hs. rewrite !length_app, Hm in Hs. simpl in Hs. lia.
    - simpl. now rewrite flat_map_unchanged. }
  apply H. lia.
Qed.

Lemma escapeRegExp_units (keyword : list N) :
  escapeRegExp keyword = flat_map escapeUnit keyword.
Proof. unfold escapeRegExp. now rewrite replaceAll_RSet. Qed.

Lemma isSpecial_cases (c : N) :
  isSpecial c = true ->
  c ∈ [46; 42; 43; 63; 94; 36; 123; 125; 40; 41; 124; 91; 93; 92]%N.
Proof.
  unfold isSpecial, specialChars. simpl. intros H.
  repeat (apply orb_true_iff in H as [H | H];
          [apply N.eqb_eq in H; subst; repeat constructor |]).
  discriminate.
Qed.

Lemma not_special (c : N) :
  isSpecial c = false ->
  Forall (fun x => (c =? x)%N = false)
         [46; 42; 43; 63; 94; 36; 123; 125; 40; 41; 124; 91; 93; 92]%N.
Proof.
  unfold isSpecial, specialChars. simpl. intros H.
  repeat (apply orb_false_iff in H as [? H]).
  repeat constructor; assumption.
Qed.

Section CompileEscaped.
Import ReSyntax.

Lemma escapeSet_special (c : N) :
  isSpecial c = true -> (c =? 98)%N = false /\ escapeSet c = Some (N.eqb c).
Proof.
  intros H. apply isSpecial_cases in H.
  repeat (apply elem_of_cons in H as [-> | H]; [split; reflexivity |]).
  now apply elem_of_nil in H.
Qed.

Lemma parseAtom_backslash (fuel : nat) (ci : bool) (e : N) (rest : list N) :
  parseAtom (S fuel) ci 92%N (e :: rest)
  = if (e =? 98)%N then POk Re.RWordB rest
    else match escapeSet e with
         | Some p => POk (Re.RSet p) rest
         | None => PBeyond
         end.
Proof. reflexivity. Qed.

Lemma parseAtom_literal (fuel : nat) (ci : bool) (c : N) (s : list N) :
  isSpecial c = false ->
  parseAtom (S fuel) ci c s = POk (if ci then Re.chrI c else Re.chr c) s.
Proof.
  intros H. apply not_special in H.
  repeat match goal with
         | H : Forall _ (_ :: _) |- _ => apply Forall_cons in H as [? H]
         end.
  simpl in *.
  repeat match goal with
         | H : (c =? _)%N = false |- _ => rewrite H; clear H
         end.
  reflexivity.
Qed.

Lemma parseSeq_cons (fuel : nat) (ci : bool) (c : N) (s : list N) :
  (c =? 124)%N || (c =? 41)%N = false ->
  parseSeq (S fuel) ci (c :: s)
  = match parseAtom fuel ci c s with
    | POk a rest =>
        match quantify a rest with
        | POk t rest' =>
            match parseSeq fuel ci rest' with
            | POk r rest'' => POk (Re.RSeq t r) rest''
            | e => e
            end
        | e => e
        end
    | e => e
    end.
Proof. intros H. simpl. now rewrite H. Qed.

(** No quantifier follows an atom in an escaped source. *)
Lemma quantify_escaped (a : Re.regex) (k : list N) :
  quantify a (flat_map escapeUnit k) = POk a (flat_map escapeUnit k).
Proof.
  destruct k as [| c k]; [reflexivity |].
  change (flat_map escapeUnit (c :: k)) with (escapeUnit c ++ flat_map escapeUnit k).
  generalize (flat_map escapeUnit k). intros rest.
  unfold escapeUnit. destruct (isSpecial c) eqn:Hc; [reflexivity |].
  apply not_special in Hc.
  repeat match goal with
         | H : Forall _ (_ :: _) |- _ => apply Forall_cons in H as [? H]
         end.
  simpl in *.
  repeat match goal with
         | H : (c =? _)%N = false |- _ => rewrite H; clear H
         end.
  reflexivity.
Qed.

Lemma parseSeq_escaped (k : list N) :
  forall fuel, (2 * length k + 1 <= fuel)%nat ->
               parseSeq fuel true (flat_map escapeUnit k) = POk (literalPattern k) [].
Proof.
  induction k as [| c k IH]; intros fuel Hf.
  - destruct fuel; [lia | reflexivity].
  - simpl in Hf. destruct fuel as [| [| fuel]]; try lia.
    simpl flat_map. unfold escapeUnit at 1, literalPattern. simpl foldr.
    unfold literalAtom at 1.
    destruct (isSpecial c) eqn:Hc.
    + simpl app. rewrite parseSeq_cons by reflexivity.
      rewrite parseAtom_backslash.
      destruct (escapeSet_special c Hc) as [-> ->].
      rewrite quantify_escaped, IH by lia. reflexivity.
    + simpl app. rewrite parseSeq_cons.
      * rewrite parseAtom_literal by assumption.
        rewrite quantify_escaped, IH by lia. reflexivity.
      * apply not_special in Hc. rewrite Forall_forall in Hc.
        rewrite (Hc 124%N), (Hc 41%N); [reflexivity | |]; 
          apply list_elem_of_In; simpl; tauto.
Qed.

(** A keyword escaped by [escapeRegExp] always compiles, to the pattern
    that matches the keyword literally. *)
Lemma compile_escapeRegExp (keyword : list N) :
  compile true (escapeRegExp keyword) = Compiled (literalPattern keyword).
Proof.
  rewrite escapeRegExp_units. unfold compile.
  assert (Hlen : (length keyword <= length (flat_map escapeUnit keyword))%nat).
  { induction keyword as [| c k IH]; simpl; [lia |].
    rewrite length_app. unfold escapeUnit at 1. destruct (isSpecial c); simpl; lia. }
  replace (3 * length (flat_map escapeUnit keyword) + 4)%nat
    with (S (3 * length (flat_map escapeUnit keyword) + 3)) by lia.
  simpl parseAlt. rewrite parseSeq_escaped by lia. reflexivity.
Qed.

End CompileEscaped.

(** ** [findRelevantSections] returns *)

Lemma blockScore_ok (block : list N) (keywords : list (list N)) :
  forall score, exists n, blockScore block keywords score = Ok n.
Proof.
  induction keywords as [| k ks IH]; intros score; simpl; [eauto |].
  rewrite compile_escapeRegExp. apply IH.
Qed.

Lemma scoreBlocks_ok (blocks : list (list N)) (keywords : list (list N)) (todo : list (list N)) :
  forall i sections, exists out, scoreBlocks blocks keywords todo i sections = Ok out.
Proof.
  induction todo as [| b todo IH]; intros i sections; simpl; [eauto |].
  destruct (blockScore_ok (Js.toLowerCase b) keywords 0) as [n ->].
  destruct (0 <? n); apply IH.
Qed.

Lemma findRelevantSections_ok (markdown : list N) (keywords : list (list N)) (maxResults : Z) :
  exists out, findRelevantSections markdown keywords maxResults = Ok out.
Proof.
  unfold findRelevantSections.
  destruct (scoreBlocks_ok (Re.split reBlankLines markdown) keywords
              (Re.split reBlankLines markdown) 0 []) as [out ->].
  eauto.
Qed.

Lemma gatherContext_ok (st : MMDIndexServer) (markdown : list N)
    (selectedText : option (list N)) (request : list N) (maxChars : Z) :
  exists context enhancedInfo,
    gatherContext st markdown selectedText request maxChars = Ok (context, enhancedInfo).
Proof.
  unfold gatherContext. destruct (hasSelection selectedText) as [sel |].
  - destruct (selectionContext _ _ _ _) as [c e]. eauto.
  - unfold requestContext.
    destruct (if shortOf 1000 _ then _ else _) as [c e].
    destruct (shortOf 1000 c && _).
    + destruct (findRelevantSections_ok markdown (IntentInfo.keywords (extractIntent request)) 3)
        as [out ->]. eauto.
    + eauto.
Qed.

(** ** The budget of [getRelevantContext] *)

Lemma appendInfo_keptInfo (context enhancedInfo : list N) :
  appendInfo context enhancedInfo = context ++ keptInfo enhancedInfo.
Proof.
  unfold appendInfo, keptInfo.
  destruct (negb (isEmpty enhancedInfo) && (lenZ enhancedInfo <? 2000)); [reflexivity |].
  now rewrite app_nil_r.
Qed.

Lemma keptInfo_short (enhancedInfo : list N) : lenZ (keptInfo enhancedInfo) < 2000.
Proof.
  unfold keptInfo.
  destruct (negb (isEmpty enhancedInfo) && (lenZ enhancedInfo <? 2000)) eqn:E.
  - apply andb_true_iff in E as [_ E]. now apply Z.ltb_lt in E.
  - unfold lenZ. simpl. lia.
Qed.

Lemma truncatedMarker_length : lenZ truncatedMarker = 20.
Proof. reflexivity. Qed.

Lemma limitContext_fits (context : list N) (maxChars : Z) :
  lenZ context <= maxChars -> limitContext context maxChars = context.
Proof.
  intros H. unfold limitContext.
  destruct (Z.ltb_spec maxChars (lenZ context)); [lia | reflexivity].
Qed.

Lemma limitContext_cut (context : list N) (maxChars : Z) :
  maxChars < lenZ context ->
  limitContext context maxChars = take (Z.to_nat maxChars) context ++ truncatedMarker.
Proof.
  intros H. unfold limitContext.
  destruct (Z.ltb_spec maxChars (lenZ context)); [| lia].
  now rewrite substring_prefix.
Qed.

Lemma limitContext_length (context : list N) (maxChars : Z) :
  0 <= maxChars -> lenZ (limitContext context maxChars) <= maxChars + 20.
Proof.
  intros H0. destruct (Z_lt_le_dec maxChars (lenZ context)) as [Hlt | Hle].
  - rewrite limitContext_cut by assumption.
    rewrite lenZ_app, truncatedMarker_length.
    unfold lenZ. rewrite length_take. lia.
  - rewrite limitContext_fits by assumption. lia.
Qed.

Lemma getRelevantContext_unfold (st : MMDIndexServer) (markdown : list N)
    (selectedText : option (list N)) (request : list N) (maxChars : Z) context enhancedInfo :
  gatherContext st markdown selectedText request maxChars = Ok (context, enhancedInfo) ->
  getRelevantContext st markdown selectedText request maxChars
  = Ok (limitContext (assembledText markdown context maxChars) maxChars ++ keptInfo enhancedInfo).
Proof.
  intros H. unfold getRelevantContext. rewrite H.
  now rewrite appendInfo_keptInfo.
Qed.

(** C1 (amended).  For every document, optional excerpt, instruction and
    budget [B >= 0], [getRelevantContext] returns normally.  The context part
    of what it returns is the assembled text itself when that is at most [B]
    units long, and otherwise its first [B] units followed by the 20-unit
    truncation marker, so it is at most [B + 20] units long; the annotations
    appended after it are shorter than 2000 units, and the whole result is
    at most [B + 20 + 1999] units long. *)
Theorem context_within_budget (st : MMDIndexServer) (markdown : list N)
    (selectedText : option (list N)) (request : list N) (maxChars : Z) :
  0 <= maxChars ->
  exists context enhancedInfo,
    gatherContext st markdown selectedText request maxChars = Ok (context, enhancedInfo)
    /\ let assembled := assembledText markdown context maxChars in
       let body := limitContext assembled maxChars in
       getRelevantContext st markdown selectedText request maxChars
       = Ok (body ++ keptInfo enhancedInfo)
       /\ (lenZ assembled <= maxChars -> body = assembled)
       /\ (maxChars < lenZ assembled ->
           body = take (Z.to_nat maxChars) assembled ++ truncatedMarker)
       /\ lenZ body <= maxChars + 20
       /\ lenZ (keptInfo enhancedInfo) < 2000
       /\ lenZ (body ++ keptInfo enhancedInfo) <= maxChars + 20 + 1999.
Proof.
  intros HB.
  destruct (gatherContext_ok st markdown selectedText request maxChars) as (c & e & Hg).
  exists c, e. split; [exact Hg |]. cbv zeta.
  pose proof (limitContext_length (assembledText markdown c maxChars) maxChars HB).
  pose proof (keptInfo_short e).
  split; [now apply getRelevantContext_unfold |].
  split; [apply limitContext_fits |].
  split; [apply limitContext_cut |].
  split; [assumption |]. split; [assumption |].
  rewrite lenZ_app. lia.
Qed.

Lemma context_within_budget_witness :
  0 <= 10
  /\ exists context enhancedInfo,
       gatherContext newIndex thirty None [] 10 = Ok (context, enhancedInfo)
       /\ lenZ (limitContext (assembledText thirty context 10) 10 ++ keptInfo enhancedInfo)
          <= 10 + 20 + 1999.
Proof.
  split; [lia |].
  destruct (context_within_budget newIndex thirty None [] 10) as (c & e & Hg & H);
    [lia |].
  exists c, e. split; [exact Hg |]. apply H.
Defined.

(** C1, counterexample.  With a budget of 10 the text returned for a
    document of 30 units is 30 units long. *)
Lemma context_over_budget :
  lenZ thirty = 30
  /\ getRelevantContext newIndex thirty None [] 10
     = Ok (Js.lit "0123456" ++ Js.nl ++ Js.nl ++ Js.lit "[" ++ truncatedMarker)
  /\ 10 < lenZ (Js.lit "0123456" ++ Js.nl ++ Js.nl ++ Js.lit "[" ++ truncatedMarker).
Proof. split; [reflexivity | split; vm_compute; reflexivity]. Qed.

(** ** The default strategy *)

Lemma continuesMarker_nonempty : continuesMarker <> [].
Proof. discriminate. Qed.

Lemma defaultContext_nonempty (markdown : list N) (maxChars : Z) :
  markdown <> [] -> defaultContext markdown maxChars <> [].
Proof.
  intros H. unfold defaultContext. destruct (maxChars <? lenZ markdown); [| assumption].
  intros E. apply app_eq_nil in E as [_ E]. apply app_eq_nil in E as [E _].
  discriminate.
Qed.

Lemma limitContext_nonempty (context : list N) (maxChars : Z) :
  context <> [] -> limitContext context maxChars <> [].
Proof.
  intros H. unfold limitContext. destruct (maxChars <? lenZ context); [| assumption].
  intros E. apply app_eq_nil in E as [_ E]. discriminate.
Qed.

(** C3 (amended).  For every non-empty document [getRelevantContext]
    returns normally and its result is not empty.  When the strategies
    gathered no context, the assembled text is the whole document if the
    document fits the budget [B], and otherwise its head of
    [floor(B * 0.7)] units, the continuation marker and its tail of
    [floor(B * 0.3)] units, both products taken in double precision; the
    result is that text after the budget cut, followed by the annotations
    that are kept. *)
Theorem fallback_context (st : MMDIndexServer) (markdown : list N)
    (selectedText : option (list N)) (request : list N) (maxChars : Z) :
  markdown <> [] ->
  exists r,
    getRelevantContext st markdown selectedText request maxChars = Ok r
    /\ r <> []
    /\ forall enhancedInfo,
         gatherContext st markdown selectedText request maxChars = Ok ([], enhancedInfo) ->
         (lenZ markdown <= maxChars ->
          r = markdown ++ keptInfo enhancedInfo)
         /\ (maxChars < lenZ markdown ->
             r = limitContext (firstPortion markdown maxChars ++ continuesMarker
                               ++ lastPortion markdown maxChars) maxChars
                 ++ keptInfo enhancedInfo).
Proof.
  intros Hne.
  destruct (gatherContext_ok st markdown selectedText request maxChars) as (c & e & Hg).
  rewrite (getRelevantContext_unfold _ _ _ _ _ _ _ Hg).
  eexists. split; [reflexivity |]. split.
  - intros E. apply app_eq_nil in E as [E _]. revert E.
    apply limitContext_nonempty. unfold assembledText.
    destruct (isEmpty c) eqn:Hc; [now apply defaultContext_nonempty |].
    now apply isEmpty_false.
  - intros info Hinfo. rewrite Hg in Hinfo. injection Hinfo as -> ->.
    unfold assembledText, defaultContext. simpl isEmpty. cbv iota.
    split; intros Hlen.
    + destruct (Z.ltb_spec maxChars (lenZ markdown)); [lia |].
      now rewrite limitContext_fits.
    + destruct (Z.ltb_spec maxChars (lenZ markdown)); [| lia]. reflexivity.
Qed.

Lemma fallback_context_witness :
  thirty <> []
  /\ gatherContext newIndex thirty None [] 10 = Ok ([], [])
  /\ getRelevantContext newIndex thirty None [] 10
     = Ok (limitContext (firstPortion thirty 10 ++ continuesMarker ++ lastPortion thirty 10) 10
           ++ keptInfo [])
  /\ getRelevantContext newIndex thirty None [] 30 = Ok (thirty ++ keptInfo []).
Proof.
  destruct (fallback_context newIndex thirty None [] 10) as (r & Hr & _ & H); [discriminate |].
  destruct (fallback_context newIndex thirty None [] 30) as (r' & Hr' & _ & H'); [discriminate |].
  split; [discriminate |]. split; [vm_compute; reflexivity |]. split.
  - rewrite Hr. f_equal. apply (H []); [vm_compute; reflexivity | vm_compute; reflexivity].
  - rewrite Hr'. f_equal. apply (H' []); [vm_compute; reflexivity | vm_compute; discriminate].
Defined.

(** C3, counterexample.  For the document of 30 units and a budget of 10
    nothing is gathered, and the result is not the head, the continuation
    marker and the tail: it is cut after 10 units and closed by the
    truncation marker. *)
Lemma fallback_is_cut :
  gatherContext newIndex thirty None [] 10 = Ok ([], [])
  /\ firstPortion thirty 10 ++ continuesMarker ++ lastPortion thirty 10
     = Js.lit "0123456" ++ continuesMarker ++ Js.lit "RST"
  /\ getRelevantContext newIndex thirty None [] 10
     = Ok (Js.lit "0123456" ++ Js.nl ++ Js.nl ++ Js.lit "[" ++ truncatedMarker)
  /\ Js.lit "0123456" ++ Js.nl ++ Js.nl ++ Js.lit "[" ++ truncatedMarker
     <> Js.lit "0123456" ++ continuesMarker ++ Js.lit "RST".
Proof.
  split; [vm_compute; reflexivity |]. split; [vm_compute; reflexivity |].
  split; [vm_compute; reflexivity |]. vm_compute. discriminate.
Qed.

(** ** The number path of [findChapter] *)

Lemma numberLoop_keeps (st : MMDIndexServer) (num : list N) (chs : list Chapter.t) :
  forall results h, h ∈ results -> h ∈ numberLoop st num chs results.
Proof.
  unfold numberLoop. induction chs as [| c chs IH]; intros results h Hh; simpl; auto.
  apply IH. destruct (_ && _); [apply elem_of_app; now left | assumption].
Qed.

Lemma alreadyFound_spec (results : list ChapterHit.t) (c : Chapter.t) :
  alreadyFound results c = true ->
  exists h, h ∈ results /\ ChapterHit.lineNum h = Chapter.lineNum c.
Proof.
  unfold alreadyFound. rewrite existsb_exists. intros (h & Hin & Heq).
  exists h. split; [now apply list_elem_of_In | now apply Z.eqb_eq].
Qed.

(** A heading whose title holds [Chapter n] or [chapter n] in exactly one
    of these two spellings is returned, once per line. *)
Lemma findChapter_number_path (st : MMDIndexServer) (query num : list N) (c : Chapter.t) :
  unavailable st = false ->
  Re.capture1 reNumber query = Some num ->
  c ∈ chapters st ->
  numberMatches num c = true ->
  exists h, h ∈ findChapter st query /\ ChapterHit.lineNum h = Chapter.lineNum c.
Proof.
  intros Hav Hnum Hc Hm. unfold findChapter. rewrite Hav, Hnum.
  fold (numberLoop st num (chapters st)
          (map (toHit st) (filter (titleMatches (Js.toLowerCase query)) (chapters st)))).
  generalize (map (toHit st) (filter (titleMatches (Js.toLowerCase query)) (chapters st))).
  induction (chapters st) as [| c0 chs IH]; intros results; [now apply elem_of_nil in Hc |].
  apply elem_of_cons in Hc as [<- | Hc].
  - unfold numberLoop. simpl. fold (numberLoop st num chs). rewrite Hm. simpl.
    destruct (alreadyFound results c) eqn:Ha; simpl.
    + apply alreadyFound_spec in Ha as (h & Hh & Heq).
      exists h. split; [now apply numberLoop_keeps | assumption].
    + exists (toHit st c). split; [| reflexivity].
      apply numberLoop_keeps, elem_of_app. right. constructor.
  - unfold numberLoop. simpl. apply (IH Hc).
Qed.

(** C5, at an input where the code departs from it.  The heading
    [CHAPTER 3: Origins] is detected and its title contains [Chapter 3] up
    to case, yet the query [rename chapter 3], from which the number 3 is
    extracted, returns nothing: the second loop compares with the two
    spellings [Chapter 3] and [chapter 3] only. *)
Lemma findChapter_capitals_missed :
  chapters (builtIndex capitalsData) = [Chapter.mk (Js.lit "CHAPTER 3: Origins") 0 1]
  /\ Re.capture1 reNumber (Js.lit "rename chapter 3") = Some (Js.lit "3")
  /\ Js.includes (Js.toLowerCase (Js.lit "CHAPTER 3: Origins"))
                 (Js.toLowerCase (Js.lit "Chapter 3")) = true
  /\ findChapter (builtIndex capitalsData) (Js.lit "rename chapter 3") = [].
Proof. repeat split; vm_compute; reflexivity. Qed.

(** ** Patterns built from caller text *)

(** C4, at an input where the code departs from it.  [findRelevantSections]
    compiles every keyword after putting a backslash in front of each
    special character, so it compiles to the literal pattern of the keyword.
    The client-side [findAllOccurrences] hands the caller's text to the
    RegExp constructor as it is: an opening parenthesis makes it throw, and
    the text [3.] reports two lines although no line contains it. *)
Lemma client_pattern_not_escaped :
  (forall keyword,
     escapeRegExp keyword = flat_map escapeUnit keyword
     /\ ReSyntax.compile true (escapeRegExp keyword)
        = ReSyntax.Compiled (literalPattern keyword))
  /\ Client.findAllOccurrences clientSample (Js.lit "(") = Some Throw
  /\ Client.findAllOccurrences clientSample (Js.lit "3.")
     = Some (Ok [Client.Hit.mk 1 (Js.lit "Chapter 3: Origins ..... 7") 1;
                 Client.Hit.mk 2 (Js.lit "  \section*{Chapter 3: Origins}  ") 7])
  /\ filter (fun t => Js.includes t (Js.lit "3.")) (allLines sampleData) = [].
Proof.
  split.
  - intros keyword. split; [apply escapeRegExp_units | apply compile_escapeRegExp].
  - repeat split; vm_compute; reflexivity.
Qed.

Lemma findTextLines_sorted_complete_witness :
  allLines sampleData !! 3%nat = Some (Js.lit "It began with a single spark.")
  /\ Js.includes (Js.toLowerCase (Js.lit "It began with a single spark."))
                 (Js.toLowerCase (Js.trim (Js.lit " SPARK "))) = true
  /\ 3 ∈ findTextLines sampleIndex (Js.lit " SPARK ").
Proof.
  destruct (findTextLines_sorted_complete sampleData (Js.lit " SPARK ")) as (_ & _ & H).
  split; [reflexivity |]. split; [vm_compute; reflexivity |].
  apply (H 3%nat (Js.lit "It began with a single spark.")); vm_compute; reflexivity.
Defined.

(** * Further properties *)

(** ** What the token index holds *)

Lemma indexFullText_entry (n : Z) (t : list N) (m : gmap (list N) (list Z)) key l i :
  indexFullText n t m !! key = Some l -> i ∈ l ->
  (exists l0, m !! key = Some l0 /\ i ∈ l0)
  \/ (key = t /\ i = n /\ (length t < 200)%nat).
Proof.
  unfold indexFullText. destruct (length t <? 200)%nat eqn:Ht; [| eauto].
  apply Nat.ltb_lt in Ht.
  destruct (m !! t) as [existing |] eqn:Hm.
  - destruct (length existing <? 50)%nat; [| eauto].
    destruct (decide (t = key)) as [<- | Hne].
    + rewrite lookup_insert_eq. intros [= <-] Hi.
      apply elem_of_app in Hi as [Hi | Hi]; [eauto |].
      apply list_elem_of_singleton in Hi. auto.
    + rewrite lookup_insert_ne by assumption. eauto.
  - destruct (decide (t = key)) as [<- | Hne].
    + rewrite lookup_insert_eq. intros [= <-] Hi.
      apply list_elem_of_singleton in Hi. auto.
    + rewrite lookup_insert_ne by assumption. eauto.
Qed.

Lemma indexWord_entry (n : Z) (m : gmap (list N) (list Z)) (w : list N) key l i :
  indexWord n m w !! key = Some l -> i ∈ l ->
  (exists l0, m !! key = Some l0 /\ i ∈ l0) \/ (key = w /\ i = n).
Proof.
  unfold indexWord. destruct (m !! w) as [occ |] eqn:Hm.
  - destruct (negb (Js.inZ n occ) && (length occ <? 100)%nat); [| eauto].
    destruct (decide (w = key)) as [<- | Hne].
    + rewrite lookup_insert_eq. intros [= <-] Hi.
      apply elem_of_app in Hi as [Hi | Hi]; [eauto |].
      apply list_elem_of_singleton in Hi. auto.
    + rewrite lookup_insert_ne by assumption. eauto.
  - destruct (decide (w = key)) as [<- | Hne].
    + rewrite lookup_insert_eq. intros [= <-] Hi.
      apply list_elem_of_singleton in Hi. auto.
    + rewrite lookup_insert_ne by assumption. eauto.
Qed.

Lemma indexWords_entry (n : Z) (ws : list (list N)) :
  forall (m : gmap (list N) (list Z)) key l i,
    fold_left (indexWord n) ws m !! key = Some l -> i ∈ l ->
    (exists l0, m !! key = Some l0 /\ i ∈ l0) \/ (key ∈ ws /\ i = n).
Proof.
  induction ws as [| w ws IH]; intros m key l i Hl Hi; simpl in Hl; [eauto |].
  destruct (IH _ _ _ _ Hl Hi) as [(l0 & Hl0 & Hi0) | [Hk ->]].
  - destruct (indexWord_entry _ _ _ _ _ _ Hl0 Hi0) as [H | [-> ->]]; [auto |].
    right. split; [constructor | reflexivity].
  - right. split; [now constructor | reflexivity].
Qed.

Lemma indexLineText_entry (n : Z) (t : list N) (m : gmap (list N) (list Z)) key l i :
  indexLineText n t m !! key = Some l -> i ∈ l ->
  (exists l0, m !! key = Some l0 /\ i ∈ l0) \/ (i = n /\ keyOfLine t key).
Proof.
  unfold indexLineText. intros Hl Hi.
  destruct (2 <? length (Js.toLowerCase (Js.trim t)))%nat eqn:Hlen; [| eauto].
  assert (Hw : lineWords t = indexedWords (Js.toLowerCase (Js.trim t))).
  { unfold lineWords. now rewrite Hlen. }
  apply Nat.ltb_lt in Hlen.
  destruct (indexWords_entry _ _ _ _ _ _ Hl Hi) as [(l0 & Hl0 & Hi0) | [Hk ->]].
  - destruct (indexFullText_entry _ _ _ _ _ _ Hl0 Hi0) as [H | (-> & -> & H200)]; [auto |].
    right. split; [reflexivity |]. left. unfold normalizedLine. split; [reflexivity | lia].
  - right. split; [reflexivity |]. right. now rewrite Hw.
Qed.

Lemma buildLine_tokenIndexSound (pg : Z) (st : MMDIndexServer) (ln : MMDLine) :
  tokenIndexSound st -> tokenIndexSound (buildLine pg st ln).
Proof.
  intros Hinv key l i Hl Hi. unfold buildLine in *. simpl in *.
  destruct (indexLineText_entry _ _ _ _ _ _ Hl Hi) as [(l0 & Hl0 & Hi0) | [-> Hk]].
  - destruct (Hinv key l0 i Hl0 Hi0) as (H0 & t & Ht & Hkey).
    split; [assumption |]. exists t. split; [| assumption].
    rewrite lookup_app_l; [assumption |]. now apply lookup_lt_Some in Ht.
  - split; [lia |]. exists (text ln). split; [| assumption].
    rewrite Nat2Z.id. rewrite lookup_app_r by lia. now rewrite Nat.sub_diag.
Qed.

Lemma builtIndex_tokenIndexSound (d : MMDLinesData) : tokenIndexSound (builtIndex d).
Proof.
  assert (Hp : forall p st, tokenIndexSound st -> tokenIndexSound (buildPage st p)).
  { intros p. unfold buildPage. generalize (page p). intros pg.
    induction (lines p) as [| l ls IH]; intros st H; simpl; auto.
    apply IH. now apply buildLine_tokenIndexSound. }
  assert (H : forall ps st, tokenIndexSound st -> tokenIndexSound (fold_left buildPage ps st)).
  { induction ps as [| p ps IH]; intros st Hst; simpl; auto. }
  unfold builtIndex, getMMDIndex, load, buildIndex. simpl.
  specialize (H (pages d) (mkIndex (Some d) ∅ [] [] false)).
  unfold tokenIndexSound in *. simpl in *. apply H.
  intros key l i Hl. now rewrite lookup_empty in Hl.
Qed.

(** X1.  In the index built from any transcript, every entry of the list
    stored under a key is the global index of a line of the transcript that
    is filed under that key: the line's normalized text is the key (and is 3
    to 199 code units long) or the key is one of the line's indexed words. *)
Theorem token_index_sound (d : MMDLinesData) (key : list N) (l : list Z) (i : Z) :
  textToLinesMap (builtIndex d) !! key = Some l ->
  i ∈ l ->
  0 <= i < lenZ (allLines d)
  /\ exists t, allLines d !! Z.to_nat i = Some t /\ keyOfLine t key.
Proof.
  intros Hl Hi.
  destruct (builtIndex_tokenIndexSound d key l i Hl Hi) as (H0 & t & Ht & Hk).
  destruct (builtIndex_fields d) as (_ & _ & Hlines). rewrite Hlines in Ht.
  split.
  - apply lookup_lt_Some in Ht. unfold lenZ. lia.
  - eauto.
Qed.

Lemma token_index_sound_witness :
  textToLinesMap sampleIndex !! Js.lit "spark" = Some [4]
  /\ 0 <= 4 < lenZ (allLines sampleData)
  /\ exists t, allLines sampleData !! Z.to_nat 4 = Some t /\ keyOfLine t (Js.lit "spark").
Proof.
  split; [vm_compute; reflexivity |].
  apply (token_index_sound sampleData (Js.lit "spark") [4] 4).
  - vm_compute. reflexivity.
  - constructor.
Defined.

Lemma indexFullText_grows (n : Z) (t : list N) (m : gmap (list N) (list Z)) key l :
  m !! key = Some l -> exists l', indexFullText n t m !! key = Some (l ++ l').
Proof.
  intros Hl. unfold indexFullText.
  destruct (length t <? 200)%nat; [| exists []; now rewrite app_nil_r].
  destruct (m !! t) as [existing |] eqn:Hm.
  - destruct (length existing <? 50)%nat; [| exists []; now rewrite app_nil_r].
    destruct (decide (t = key)) as [<- | Hne].
    + rewrite lookup_insert_eq. exists [n]. congruence.
    + rewrite lookup_insert_ne by assumption. exists []. now rewrite app_nil_r.
  - destruct (decide (t = key)) as [<- | Hne]; [congruence |].
    rewrite lookup_insert_ne by assumption. exists []. now rewrite app_nil_r.
Qed.

Lemma indexWord_grows (n : Z) (m : gmap (list N) (list Z)) (w : list N) key l :
  m !! key = Some l -> exists l', indexWord n m w !! key = Some (l ++ l').
Proof.
  intros Hl. unfold indexWord.
  destruct (m !! w) as [occ |] eqn:Hm.
  - destruct (negb (Js.inZ n occ) && (length occ <? 100)%nat);
      [| exists []; now rewrite app_nil_r].
    destruct (decide (w = key)) as [<- | Hne].
    + rewrite lookup_insert_eq. exists [n]. congruence.
    + rewrite lookup_insert_ne by assumption. exists []. now rewrite app_nil_r.
  - destruct (decide (w = key)) as [<- | Hne]; [congruence |].
    rewrite lookup_insert_ne by assumption. exists []. now rewrite app_nil_r.
Qed.

Lemma indexWords_grows (n : Z) (ws : list (list N)) :
  forall (m : gmap (list N) (list Z)) key l,
    m !! key = Some l -> exists l', fold_left (indexWord n) ws m !! key = Some (l ++ l').
Proof.
  induction ws as [| w ws IH]; intros m key l Hl; simpl.
  - exists []. now rewrite app_nil_r.
  - destruct (indexWord_grows n m w key l Hl) as [l1 H1].
    destruct (IH _ _ _ H1) as [l2 H2].
    exists (l1 ++ l2). now rewrite app_assoc.
Qed.

Lemma indexLineText_grows (n : Z) (t : list N) (m : gmap (list N) (list Z)) key l :
  m !! key = Some l -> exists l', indexLineText n t m !! key = Some (l ++ l').
Proof.
  intros Hl. unfold indexLineText.
  destruct (2 <? length (Js.toLowerCase (Js.trim t)))%nat;
    [| exists []; now rewrite app_nil_r].
  destruct (indexFullText_grows n (Js.toLowerCase (Js.trim t)) m key l Hl) as [l1 H1].
  destruct (indexWords_grows n (indexedWords (Js.toLowerCase (Js.trim t))) _ _ _ H1)
    as [l2 H2].
  exists (l1 ++ l2). now rewrite app_assoc.
Qed.

Lemma filed_grows (m m' : gmap (list N) (list Z)) key i cap :
  (forall l, m !! key = Some l -> exists l', m' !! key = Some (l ++ l')) ->
  filed m key i cap -> filed m' key i cap.
Proof.
  intros Hg (l & Hl & H). destruct (Hg l Hl) as [l' Hl'].
  exists (l ++ l'). split; [assumption |].
  destruct H as [H | H]; [left; apply elem_of_app; now left |].
  right. rewrite length_app. lia.
Qed.

Lemma indexWord_files (n : Z) (m : gmap (list N) (list Z)) (w : list N) :
  filed (indexWord n m w) w n 100.
Proof.
  unfold filed, indexWord. destruct (m !! w) as [occ |] eqn:Hm.
  - destruct (Js.inZ n occ) eqn:Hin; simpl.
    + exists occ. split; [assumption |]. left. now apply inZ_spec.
    + destruct (length occ <? 100)%nat eqn:Hlen.
      * rewrite lookup_insert_eq. eexists. split; [reflexivity |].
        left. apply elem_of_app. right. constructor.
      * exists occ. split; [assumption |]. right. apply Nat.ltb_ge in Hlen. lia.
  - rewrite lookup_insert_eq. eexists. split; [reflexivity |]. left. constructor.
Qed.

Lemma indexWords_files (n : Z) (ws : list (list N)) :
  forall (m : gmap (list N) (list Z)) w,
    w ∈ ws -> filed (fold_left (indexWord n) ws m) w n 100.
Proof.
  induction ws as [| w0 ws IH]; intros m w Hw; [now apply elem_of_nil in Hw |].
  simpl. apply elem_of_cons in Hw as [-> | Hw]; [| apply IH; assumption].
  eapply filed_grows; [| apply indexWord_files].
  intros l Hl. apply indexWords_grows. exact Hl.
Qed.

Lemma indexFullText_files (n : Z) (t : list N) (m : gmap (list N) (list Z)) :
  (length t < 200)%nat -> filed (indexFullText n t m) t n 50.
Proof.
  intros Ht. unfold filed, indexFullText.
  apply Nat.ltb_lt in Ht. rewrite Ht.
  destruct (m !! t) as [existing |] eqn:Hm.
  - destruct (length existing <? 50)%nat eqn:Hlen.
    + rewrite lookup_insert_eq. eexists. split; [reflexivity |].
      left. apply elem_of_app. right. constructor.
    + exists existing. split; [assumption |]. right. apply Nat.ltb_ge in Hlen. lia.
  - rewrite lookup_insert_eq. eexists. split; [reflexivity |]. left. constructor.
Qed.

Lemma buildLine_tokenIndexComplete (pg : Z) (st : MMDIndexServer) (ln : MMDLine) :
  tokenIndexComplete st -> tokenIndexComplete (buildLine pg st ln).
Proof.
  intros Hinv i t Ht. unfold buildLine in *. simpl in *.
  assert (Hg : forall key l, textToLinesMap st !! key = Some l ->
               exists l', indexLineText (Z.of_nat (length (lineTexts st))) (text ln)
                            (textToLinesMap st) !! key = Some (l ++ l')).
  { intros key l Hl. apply indexLineText_grows. exact Hl. }
  apply lookup_app_Some in Ht as [Ht | [Hge Ht]].
  - destruct (Hinv i t Ht) as [Hw Hf]. split.
    + intros w Hin. eapply filed_grows; [apply Hg | apply Hw; exact Hin].
    + intros Hlen. eapply filed_grows; [apply Hg | apply Hf; exact Hlen].
  - assert (i = length (lineTexts st)) as ->.
    { apply lookup_lt_Some in Ht. simpl in Ht. lia. }
    rewrite Nat.sub_diag in Ht. injection Ht as <-.
    unfold indexLineText, lineWords, normalizedLine.
    destruct (2 <? length (Js.toLowerCase (Js.trim (text ln))))%nat eqn:Hlen.
    + split.
      * intros w Hin. apply indexWords_files. exact Hin.
      * intros [_ H200]. eapply filed_grows; [| apply indexFullText_files; exact H200].
        intros l Hl. apply indexWords_grows. exact Hl.
    + apply Nat.ltb_ge in Hlen. split.
      * intros w Hin. now apply elem_of_nil in Hin.
      * intros [H2 _]. lia.
Qed.

Lemma builtIndex_tokenIndexComplete (d : MMDLinesData) : tokenIndexComplete (builtIndex d).
Proof.
  assert (Hp : forall p st, tokenIndexComplete st -> tokenIndexComplete (buildPage st p)).
  { intros p. unfold buildPage. generalize (page p). intros pg.
    induction (lines p) as [| l ls IH]; intros st H; simpl; auto.
    apply IH. now apply buildLine_tokenIndexComplete. }
  assert (H : forall ps st, tokenIndexComplete st ->
                            tokenIndexComplete (fold_left buildPage ps st)).
  { induction ps as [| p ps IH]; intros st Hst; simpl; auto. }
  unfold builtIndex, getMMDIndex, load, buildIndex. simpl.
  specialize (H (pages d) (mkIndex (Some d) ∅ [] [] false)).
  unfold tokenIndexComplete in *. simpl in *. apply H.
  intros i t Ht. now rewrite lookup_nil in Ht.
Qed.

(** X2.  In the index built from any transcript every line is filed under
    each of its keys unless the cap was reached first: under each of its
    indexed words the list holds the line's index or is 100 entries long,
    and under its normalized text (when that is 3 to 199 code units long)
    the list holds the line's index or is at least 50 entries long. *)
Theorem token_index_complete (d : MMDLinesData) (i : nat) (t : list N) :
  allLines d !! i = Some t ->
  (forall w, w ∈ lineWords t ->
     exists l, textToLinesMap (builtIndex d) !! w = Some l
               /\ (Z.of_nat i ∈ l \/ length l = 100%nat))
  /\ ((2 < length (normalizedLine t) < 200)%nat ->
      exists l, textToLinesMap (builtIndex d) !! normalizedLine t = Some l
                /\ (Z.of_nat i ∈ l \/ (50 <= length l)%nat)).
Proof.
  intros Ht. destruct (builtIndex_fields d) as (_ & _ & Hlines).
  rewrite <- Hlines in Ht.
  destruct (builtIndex_tokenIndexComplete d i t Ht) as [Hw Hf]. split.
  - intros w Hin. destruct (Hw w Hin) as (l & Hl & H). exists l. split; [assumption |].
    destruct H as [H | H]; [now left | right].
    destruct (builtIndex_tokenIndexInv d w l Hl) as (_ & _ & H100 & _). lia.
  - exact Hf.
Qed.

Lemma token_index_complete_witness :
  allLines sampleData !! 4%nat = Some (Js.lit "The spark became a fire.")
  /\ Js.lit "spark" ∈ lineWords (Js.lit "The spark became a fire.")
  /\ exists l, textToLinesMap sampleIndex !! Js.lit "spark" = Some l
               /\ (Z.of_nat 4 ∈ l \/ length l = 100%nat).
Proof.
  destruct (token_index_complete sampleData 4 (Js.lit "The spark became a fire.") eq_refl)
    as [H _].
  assert (Hin : Js.lit "spark" ∈ lineWords (Js.lit "The spark became a fire.")).
  { apply list_elem_of_lookup. exists 0%nat. vm_compute. reflexivity. }
  split; [reflexivity |]. split; [exact Hin |]. exact (H _ Hin).
Defined.

(** ** What the heading list holds *)

Lemma lineCount_app (ps1 ps2 : list MMDPage) :
  lineCount (ps1 ++ ps2) = lineCount ps1 + lineCount ps2.
Proof.
  induction ps1 as [| p ps1 IH]; simpl; [lia |]. rewrite IH. lia.
Qed.

Lemma StronglySorted_snoc {A} (R : A -> A -> Prop) (l : list A) (x : A) :
  StronglySorted R l -> Forall (fun y => R y x) l -> StronglySorted R (l ++ [x]).
Proof.
  induction 1 as [| y l Hs IH Hall]; intros Hx; simpl.
  - repeat constructor.
  - inversion Hx; subst. constructor; auto.
    apply Forall_app. split; auto.
Qed.

Lemma sortBy_sorted_id {A} (key : A -> Z) (l : list A) :
  StronglySorted (fun a b => key a < key b) l -> Js.sortBy key l = l.
Proof.
  induction 1 as [| x l Hs IH Hall]; [reflexivity |].
  unfold Js.sortBy in *. simpl. rewrite IH.
  destruct l as [| y l']; [reflexivity |]. simpl.
  inversion Hall; subst.
  destruct (Z.ltb_spec (key y) (key x)); [lia | reflexivity].
Qed.

Lemma buildLines_chaptersOk (d : MMDLinesData) (before : list MMDPage) (p : MMDPage)
    (after : list MMDPage) :
  pages d = before ++ p :: after ->
  forall ls2 ls1 st,
    lines p = ls1 ++ ls2 ->
    lenZ (lineTexts st) = lineCount before + lenZ ls1 ->
    chaptersOk d st ->
    chaptersOk d (fold_left (buildLine (page p)) ls2 st)
    /\ lenZ (lineTexts (fold_left (buildLine (page p)) ls2 st))
       = lineCount before + lenZ (lines p).
Proof.
  intros Hp. induction ls2 as [| l ls2 IH]; intros ls1 st Hl Hlen Hok; simpl.
  - rewrite app_nil_r in Hl. subst ls1. auto.
  - apply (IH (ls1 ++ [l])).
    + now rewrite <- app_assoc.
    + unfold buildLine. simpl. rewrite !lenZ_app, Hlen. unfold lenZ. simpl. lia.
    + destruct Hok as (Hat & Hs & Hlt).
      unfold chaptersOk, buildLine, detectChapter. simpl.
      assert (Hlt' : Forall (fun c => Chapter.lineNum c < lenZ (lineTexts st ++ [text l]))
                            (chapters st)).
      { eapply Forall_impl; [exact Hlt |]. intros c Hc. simpl in Hc.
        rewrite lenZ_app. unfold lenZ at 2. simpl. lia. }
      destruct ((5 <? length (Js.trim (text l)))%nat && isChapter (Js.trim (text l))) eqn:Hc.
      * apply andb_true_iff in Hc as [_ Hc]. split; [| split].
        -- apply Forall_app. split; [assumption |]. constructor; [| constructor].
           exists before, p, after, ls1, l, ls2. fold (lenZ (lineTexts st)). rewrite Hlen.
           auto.
        -- apply StronglySorted_snoc; [assumption |].
           eapply Forall_impl; [exact Hlt |]. intros c Hlc. unfold lineNumLt. simpl. exact Hlc.
        -- apply Forall_app. split; [assumption |]. constructor; [| constructor].
           simpl. rewrite lenZ_app. unfold lenZ. simpl. lia.
      * auto.
Qed.

Lemma buildPages_chaptersOk (d : MMDLinesData) :
  forall ps2 ps1 st,
    pages d = ps1 ++ ps2 ->
    lenZ (lineTexts st) = lineCount ps1 ->
    chaptersOk d st ->
    chaptersOk d (fold_left buildPage ps2 st).
Proof.
  induction ps2 as [| p ps2 IH]; intros ps1 st Hp Hlen Hok; simpl; [assumption |].
  destruct (buildLines_chaptersOk d ps1 p ps2 Hp (lines p) [] st eq_refl) as [Hok' Hlen'];
    [unfold lenZ at 2; simpl; lia | assumption |].
  apply (IH (ps1 ++ [p])).
  - now rewrite <- app_assoc.
  - unfold buildPage. rewrite Hlen', lineCount_app. simpl. lia.
  - exact Hok'.
Qed.

Lemma builtIndex_chapters (d : MMDLinesData) :
  chaptersOk d (builtIndex d).
Proof.
  pose proof (buildPages_chaptersOk d (pages d) [] (mkIndex (Some d) ∅ [] [] false) eq_refl)
    as H.
  destruct H as (Hat & Hs & Hlt); [reflexivity | repeat split; constructor |].
  unfold builtIndex, getMMDIndex, load, buildIndex, chaptersOk. simpl.
  rewrite (sortBy_sorted_id Chapter.lineNum _ Hs). auto.
Qed.

Lemma chapterTitle_bounds (t : list N) :
  (5 < length t)%nat -> chapterTitle t <> [] /\ (length (chapterTitle t) <= 150)%nat.
Proof.
  intros Ht. unfold chapterTitle.
  set (u := Js.substring (Js.trim _) 0 150).
  assert (Hu : (length (Re.replaceAll reNewline (fun _ => [32%N]) u) <= 150)%nat).
  { unfold reNewline, Re.chr. rewrite replaceAll_RSet. cbv beta.
    pose proof (length_substring_prefix (Js.trim
      (remove reTitleOpen (remove reChapterOpen (remove reCloseBrace (remove reSectionOpen t)))))
      150 ltac:(lia)) as H150.
    fold u in H150. unfold lenZ in H150.
    assert (Hsame : forall s : list N,
               length (flat_map (fun c => if (10 =? c)%N then [32%N] else [c]) s) = length s).
    { induction s as [| c s IH]; [reflexivity |].
      cbn [flat_map]. rewrite length_app, IH. now destruct (10 =? c)%N. }
    rewrite Hsame. lia. }
  destruct (Re.replaceAll reNewline (fun _ => [32%N]) u) as [| c title] eqn:E.
  - rewrite substring_prefix. split.
    + destruct t as [| c t]; [simpl in Ht; lia | discriminate].
    + rewrite length_take. lia.
  - split; [discriminate | exact Hu].
Qed.

(** X3.  Every heading of the index built from a transcript was made from
    a line of the transcript whose trimmed text matches a heading pattern:
    it carries that line's global index, which lies within
    [0, number of lines), and the number of the page holding the line; its
    title is not empty and at most 150 code units long. *)
Theorem heading_sound (d : MMDLinesData) (c : Chapter.t) :
  c ∈ chapters (builtIndex d) ->
  chapterAt d c
  /\ 0 <= Chapter.lineNum c < lenZ (allLines d)
  /\ Chapter.title c <> []
  /\ (length (Chapter.title c) <= 150)%nat.
Proof.
  intros Hc. destruct (builtIndex_chapters d) as (Hat & _ & Hlt).
  rewrite Forall_forall in Hat, Hlt.
  pose proof (Hat c Hc) as Hcat. pose proof (Hlt c Hc) as Hclt.
  destruct (builtIndex_fields d) as (_ & _ & Hlines). rewrite Hlines in Hclt.
  split; [exact Hcat |].
  destruct Hcat as (before & p & after & above & l & below & Hp & Hl & His & ->).
  simpl in *. split.
  - pose proof (lineCount_nonneg before). pose proof (lenZ_nonneg above). lia.
  - apply chapterTitle_bounds. apply Nat.ltb_lt. now apply isChapter_length.
Qed.

Lemma heading_sound_witness :
  Chapter.mk (Js.lit "Chapter 3: Origins") 2 7 ∈ chapters sampleIndex
  /\ chapterAt sampleData (Chapter.mk (Js.lit "Chapter 3: Origins") 2 7)
  /\ 0 <= 2 < lenZ (allLines sampleData).
Proof.
  assert (H : Chapter.mk (Js.lit "Chapter 3: Origins") 2 7 ∈ chapters sampleIndex).
  { vm_compute. constructor. }
  destruct (heading_sound sampleData _ H) as (H1 & H2 & _).
  split; [exact H |]. split; [exact H1 | exact H2].
Defined.

(** X4.  The headings of the built index are in strictly ascending order
    of line index: no two headings share a line. *)
Theorem headings_strictly_ascending (d : MMDLinesData) :
  StronglySorted lineNumLt (chapters (builtIndex d)).
Proof. apply builtIndex_chapters. Qed.

(** X5.  For every heading of the built index, [getPageForLine] applied to
    the heading's line index gives the heading's page number. *)
Theorem heading_page_agrees (d : MMDLinesData) (c : Chapter.t) :
  c ∈ chapters (builtIndex d) ->
  getPageForLine (builtIndex d) (Chapter.lineNum c) = Chapter.page c.
Proof.
  intros Hc. destruct (builtIndex_chapters d) as (Hat & _ & _).
  rewrite Forall_forall in Hat.
  destruct (Hat c Hc) as (before & p & after & above & l & below & Hp & Hl & _ & ->).
  destruct (builtIndex_fields d) as (Hd & Hload & _).
  unfold getPageForLine. rewrite Hd, Hload, Hp. simpl.
  rewrite (pageScan_inside before p after 0); [reflexivity |].
  simpl. rewrite Hl, lenZ_app. pose proof (lenZ_nonneg below). pose proof (lenZ_nonneg above).
  assert (lenZ (l :: below) = 1 + lenZ below) by (unfold lenZ; simpl length; lia).
  lia.
Qed.

Lemma heading_page_agrees_witness :
  Chapter.mk (Js.lit "Chapter 3: Origins") 2 7 ∈ chapters sampleIndex
  /\ getPageForLine sampleIndex 2 = 7.
Proof.
  assert (H : Chapter.mk (Js.lit "Chapter 3: Origins") 2 7 ∈ chapters sampleIndex).
  { vm_compute. constructor. }
  split; [exact H |]. exact (heading_page_agrees sampleData _ H).
Defined.

(** ** What [findTextLines] returns *)

Lemma elem_of_rangeZ (a b x : Z) : x ∈ rangeZ a b <-> a <= x < b.
Proof.
  unfold rangeZ. rewrite list_elem_of_fmap. split.
  - intros (i & -> & Hi). apply list_elem_of_In, in_seq in Hi. lia.
  - intros H. exists (Z.to_nat (x - a)). split; [lia |].
    apply list_elem_of_In, in_seq. lia.
Qed.

Lemma rangeZ_sorted (a b : Z) : StronglySorted Z.lt (rangeZ a b).
Proof.
  unfold rangeZ. generalize (Z.to_nat (b - a)). intros n.
  generalize 0%nat. induction n as [| n IH]; intros k; simpl; constructor.
  - apply IH.
  - apply Forall_forall. intros x Hx.
    apply list_elem_of_fmap in Hx as (i & -> & Hi).
    apply list_elem_of_In, in_seq in Hi. lia.
Qed.

(** Two strictly ascending lists with the same elements are the same list. *)
Lemma sorted_lt_ext (l1 l2 : list Z) :
  StronglySorted Z.lt l1 -> StronglySorted Z.lt l2 ->
  (forall x, x ∈ l1 <-> x ∈ l2) -> l1 = l2.
Proof.
  intros H1. revert l2. induction H1 as [| x l1 Hs1 IH Hall1]; intros l2 H2 Hext.
  - destruct l2 as [| y l2]; [reflexivity |].
    exfalso. apply (not_elem_of_nil y). apply Hext. constructor.
  - destruct H2 as [| y l2 Hs2 Hall2].
    + exfalso. apply (not_elem_of_nil x). apply Hext. constructor.
    + rewrite Forall_forall in Hall1, Hall2.
      assert (Hxy : x = y).
      { assert (Hx : x ∈ y :: l2) by (apply Hext; constructor).
        assert (Hy : y ∈ x :: l1) by (apply Hext; constructor).
        apply elem_of_cons in Hx as [Hx | Hx]; [assumption |].
        apply elem_of_cons in Hy as [Hy | Hy]; [auto |].
        specialize (Hall1 y Hy). specialize (Hall2 x Hx). lia. }
      subst y. f_equal. apply IH; [assumption |].
      intros z. split; intros Hz.
      * assert (Hz' : z ∈ x :: l2) by (apply Hext; now constructor).
        apply elem_of_cons in Hz' as [-> | Hz']; [| assumption].
        specialize (Hall1 x Hz). lia.
      * assert (Hz' : z ∈ x :: l1) by (apply Hext; now constructor).
        apply elem_of_cons in Hz' as [-> | Hz']; [| assumption].
        specialize (Hall2 x Hz). lia.
Qed.

Lemma sortNum_sorted_id (l : list Z) : StronglySorted Z.lt l -> Js.sortNum l = l.
Proof. intros H. unfold Js.sortNum. now apply sortBy_sorted_id. Qed.

Lemma setAddAll_NoDup_id (l : list Z) : NoDup l -> Js.setAddAll [] l = l.
Proof.
  intros Hnd. unfold Js.setAddAll.
  assert (H : forall acc, NoDup (acc ++ l) -> fold_left Js.setAdd l acc = acc ++ l).
  { clear Hnd. induction l as [| x l IH]; intros acc Hnd; simpl.
    - now rewrite app_nil_r.
    - unfold Js.setAdd at 2. destruct (Js.inZ x acc) eqn:E.
      + apply inZ_spec in E. apply NoDup_app in Hnd as (_ & Hd & _).
        exfalso. apply (Hd x E). constructor.
      + rewrite IH; rewrite <- app_assoc; [reflexivity | exact Hnd]. }
  apply (H []). exact Hnd.
Qed.

Lemma findTextLines_strict (st : MMDIndexServer) (fragment : list N) :
  StronglySorted Z.lt (findTextLines st fragment).
Proof.
  pose proof (findTextLines_NoDup st fragment) as Hnd.
  unfold findTextLines in *. destruct (unavailable st); [constructor |].
  apply sortNum_strict. unfold Js.sortNum in Hnd. now rewrite sortBy_perm in Hnd.
Qed.

Lemma scanLines_elem (normalized : list N) (texts : list (list N)) :
  forall i0 x,
    x ∈ scanLines normalized i0 texts ->
    i0 <= x
    /\ exists t, texts !! Z.to_nat (x - i0) = Some t
                 /\ Js.includes (Js.toLowerCase t) normalized = true.
Proof.
  induction texts as [| u texts IH]; intros i0 x Hx; simpl in Hx;
    [now apply elem_of_nil in Hx |].
  assert (Hrec : x ∈ scanLines normalized (i0 + 1) texts ->
                 i0 <= x /\ exists t, (u :: texts) !! Z.to_nat (x - i0) = Some t
                            /\ Js.includes (Js.toLowerCase t) normalized = true).
  { intros H. destruct (IH _ _ H) as (Hle & t & Ht & Hinc). split; [lia |].
    exists t. split; [| assumption].
    replace (Z.to_nat (x - i0)) with (S (Z.to_nat (x - (i0 + 1)))) by lia. exact Ht. }
  destruct (Js.includes (Js.toLowerCase u) normalized) eqn:E; [| auto].
  apply elem_of_cons in Hx as [-> | Hx]; [| auto].
  split; [lia |]. exists u. rewrite Z.sub_diag. auto.
Qed.

Lemma elem_of_fold_setAddAll {B} (f : B -> list Z) (ws : list B) :
  forall acc x,
    x ∈ fold_left (fun acc w => Js.setAddAll acc (f w)) ws acc ->
    x ∈ acc \/ exists w, w ∈ ws /\ x ∈ f w.
Proof.
  induction ws as [| w ws IH]; intros acc x Hx; simpl in Hx; [auto |].
  destruct (IH _ _ Hx) as [H | (w' & Hw' & H)].
  - apply elem_of_setAddAll in H as [H | H]; [auto |].
    right. exists w. split; [constructor | assumption].
  - right. exists w'. split; [now constructor | assumption].
Qed.

(** The lines that [findTextLines] returns are related to the fragment. *)
Lemma findTextLines_related (d : MMDLinesData) (fragment : list N) (x : Z) :
  x ∈ findTextLines (builtIndex d) fragment ->
  0 <= x /\ exists t, allLines d !! Z.to_nat x = Some t
                      /\ relatedLine (Js.toLowerCase (Js.trim fragment)) t.
Proof.
  intros Hx.
  unfold findTextLines in Hx. rewrite builtIndex_available in Hx.
  destruct (builtIndex_fields d) as (_ & _ & Hlines).
  pose proof (builtIndex_tokenIndexSound d) as Hsound.
  assert (Hkey : forall key, x ∈ mapGet (textToLinesMap (builtIndex d)) key ->
                 0 <= x /\ exists t, allLines d !! Z.to_nat x = Some t /\ keyOfLine t key).
  { intros key Hk. unfold mapGet in Hk.
    destruct (textToLinesMap (builtIndex d) !! key) as [l |] eqn:Hl;
      [| now apply elem_of_nil in Hk].
    destruct (Hsound key l x Hl Hk) as (H0 & t & Ht & Hkt).
    rewrite Hlines in Ht. eauto. }
  apply elem_of_sortNum, elem_of_setAddAll in Hx as [Hx | Hx].
  - apply elem_of_fold_setAddAll in Hx as [Hx | (w & Hw & Hx)].
    + apply elem_of_setAddAll in Hx as [Hx | Hx]; [now apply elem_of_nil in Hx |].
      destruct (Hkey _ Hx) as (H0 & t & Ht & Hkt). split; [assumption |].
      exists t. split; [assumption |]. right. now left.
    + destruct (Hkey _ Hx) as (H0 & t & Ht & Hkt). split; [assumption |].
      exists t. split; [assumption |]. right. right. exists w. auto.
  - apply scanLines_elem in Hx as (H0 & t & Ht & Hinc).
    rewrite Z.sub_0_r, Hlines in Ht. split; [assumption |].
    exists t. split; [assumption |]. now left.
Qed.

Lemma findTextLines_in_range (d : MMDLinesData) (fragment : list N) (x : Z) :
  x ∈ findTextLines (builtIndex d) fragment -> 0 <= x < lenZ (allLines d).
Proof.
  intros Hx. destruct (findTextLines_related d fragment x Hx) as (H0 & t & Ht & _).
  apply lookup_lt_Some in Ht. unfold lenZ. lia.
Qed.

(** X6.  Every index that [findTextLines] returns on a built index is the
    index of a line of the transcript, and that line is related to the
    fragment: its lowercased text contains the normalized fragment, or the
    line is filed in the token index under the normalized fragment or under
    one of the fragment's words longer than two code units. *)
Theorem findTextLines_sound (d : MMDLinesData) (fragment : list N) (x : Z) :
  x ∈ findTextLines (builtIndex d) fragment ->
  0 <= x < lenZ (allLines d)
  /\ exists t, allLines d !! Z.to_nat x = Some t
               /\ relatedLine (Js.toLowerCase (Js.trim fragment)) t.
Proof.
  intros Hx. destruct (findTextLines_related d fragment x Hx) as (H0 & t & Ht & Hrel).
  split; [| eauto].
  apply lookup_lt_Some in Ht. unfold lenZ. lia.
Qed.

Lemma findTextLines_sound_witness :
  4 ∈ findTextLines sampleIndex (Js.lit " SPARK ")
  /\ 0 <= 4 < lenZ (allLines sampleData)
  /\ exists t, allLines sampleData !! Z.to_nat 4 = Some t
               /\ relatedLine (Js.toLowerCase (Js.trim (Js.lit " SPARK "))) t.
Proof.
  assert (H : 4 ∈ findTextLines sampleIndex (Js.lit " SPARK ")).
  { apply list_elem_of_lookup. exists 1%nat. vm_compute. reflexivity. }
  split; [exact H |]. exact (findTextLines_sound sampleData _ 4 H).
Defined.

Lemma includes_empty (s : list N) : Js.includes s [] = true.
Proof. unfold Js.includes. now destruct s. Qed.

(** X7.  For a fragment that is empty or all white space, [findTextLines]
    on a built index returns every line index of the transcript, in order. *)
Theorem findTextLines_blank (d : MMDLinesData) (fragment : list N) :
  Js.trim fragment = [] ->
  findTextLines (builtIndex d) fragment = rangeZ 0 (lenZ (allLines d)).
Proof.
  intros Hblank. apply sorted_lt_ext.
  - apply findTextLines_strict.
  - apply rangeZ_sorted.
  - intros x. rewrite elem_of_rangeZ. split.
    + intros Hx. now apply findTextLines_in_range in Hx.
    + intros Hx. destruct (lookup_lt_is_Some_2 (allLines d) (Z.to_nat x)) as [t Ht];
        [unfold lenZ in Hx; lia |].
      unfold findTextLines. rewrite builtIndex_available, Hblank.
      apply elem_of_sortNum, elem_of_setAddAll. right.
      destruct (builtIndex_fields d) as (_ & _ & ->).
      replace x with (0 + Z.of_nat (Z.to_nat x)) by lia.
      apply (scanLines_complete _ _ 0 _ t Ht). apply includes_empty.
Qed.

Lemma findTextLines_blank_witness :
  Js.trim (Js.lit "   ") = []
  /\ findTextLines sampleIndex (Js.lit "   ") = [0; 1; 2; 3; 4].
Proof.
  split; [reflexivity |].
  exact (findTextLines_blank sampleData (Js.lit "   ") eq_refl).
Defined.

(** ** Windows and occurrences *)

Lemma join_empty_concat (parts : list (list N)) : Js.join [] parts = concat parts.
Proof.
  induction parts as [| p parts IH]; [reflexivity |].
  simpl. destruct parts as [| q parts]; [now rewrite app_nil_r |].
  simpl in *. now rewrite IH.
Qed.

Lemma lineTextAt_nat (st : MMDIndexServer) (i : nat) (t : list N) :
  lineTexts st !! i = Some t -> lineTextAt st (Z.of_nat i) = t.
Proof.
  intros Ht. unfold lineTextAt. destruct (Z.ltb_spec (Z.of_nat i) 0); [lia |].
  now rewrite Nat2Z.id, Ht.
Qed.

Lemma map_lineTextAt_range (st : MMDIndexServer) (n : nat) :
  forall lo : nat,
    (lo + n <= length (lineTexts st))%nat ->
    map (fun i => lineTextAt st (Z.of_nat (lo + i))) (seq 0 n)
    = take n (drop lo (lineTexts st)).
Proof.
  induction n as [| n IH]; intros lo Hle; [reflexivity |].
  destruct (lookup_lt_is_Some_2 (lineTexts st) lo) as [t Ht]; [lia |].
  rewrite (drop_S _ _ _ Ht). cbn [seq map take]. f_equal.
  - rewrite Nat.add_0_r. now apply lineTextAt_nat.
  - rewrite <- (IH (S lo)) by lia. rewrite <- seq_shift, map_map.
    apply map_ext. intros i. do 2 f_equal. lia.
Qed.

(** X8.  On an available index, [getContextAroundLines] for one line and a
    radius is the concatenation, in order, of the lines from
    [max(0, line - radius)] up to but excluding
    [min(number of lines, line + radius + 1)]. *)
Theorem context_window (st : MMDIndexServer) (lineNum contextLines : Z) :
  unavailable st = false ->
  getContextAroundLines st [lineNum] contextLines
  = linesBetween st (Z.max 0 (lineNum - contextLines))
                 (Z.min (lenZ (lineTexts st)) (lineNum + contextLines + 1)).
Proof.
  intros Hav. unfold getContextAroundLines. rewrite Hav. simpl.
  set (lo := Z.max 0 (lineNum - contextLines)).
  set (hi := Z.min (Z.of_nat (length (lineTexts st))) (lineNum + contextLines + 1)).
  unfold Js.slice. simpl. 
  rewrite setAddAll_NoDup_id by (apply sorted_lt_NoDup, rangeZ_sorted).
  rewrite sortNum_sorted_id by apply rangeZ_sorted.
  rewrite join_empty_concat. unfold linesBetween, lenZ. fold lo hi.
  f_equal. unfold rangeZ.
  destruct (Z_le_gt_dec hi lo) as [Hle | Hgt].
  - replace (Z.to_nat (hi - lo)) with 0%nat by lia. reflexivity.
  - rewrite <- (map_lineTextAt_range st (Z.to_nat (hi - lo)) (Z.to_nat lo)) by lia.
    rewrite map_map. apply map_ext. intros i. f_equal. lia.
Qed.

Lemma context_window_witness :
  unavailable sampleIndex = false
  /\ getContextAroundLines sampleIndex [3] 1
     = Js.lit "  \section*{Chapter 3: Origins}  " ++ Js.lit "It began with a single spark."
       ++ Js.lit "The spark became a fire.".
Proof.
  split; [reflexivity |].
  etransitivity; [apply (context_window sampleIndex 3 1 eq_refl) |]. vm_compute. reflexivity.
Defined.

Lemma collectOccurrences_in_range (st : MMDIndexServer) (lineNums : list Z) :
  forall results,
    Forall (fun n => 0 <= n < lenZ (lineTexts st)) lineNums ->
    collectOccurrences st lineNums results
    = Ok (results ++ map (occurrenceOf st) lineNums).
Proof.
  induction lineNums as [| n lineNums IH]; intros results Hall; simpl.
  - now rewrite app_nil_r.
  - inversion Hall as [| ? ? [H0 H1] Hrest]; subst.
    unfold lenZ in H1.
    destruct (Z.leb_spec 0 n); [| lia].
    destruct (Z.ltb_spec n (Z.of_nat (length (lineTexts st)))); [| lia]. simpl.
    destruct (lookup_lt_is_Some_2 (lineTexts st) (Z.to_nat n)) as [t Ht]; [lia |].
    rewrite Ht, IH by assumption. rewrite <- app_assoc. simpl.
    do 3 f_equal. unfold occurrenceOf, lineTextAt.
    destruct (Z.ltb_spec n 0); [lia |]. now rewrite Ht.
Qed.

Lemma slice_prefix {A} (l : list A) (n : Z) :
  0 <= n -> Js.slice l 0 n = take (Z.to_nat n) l.
Proof.
  intros Hn. unfold Js.slice, Js.relIdx. simpl.
  destruct (Z.ltb_spec n 0); [lia |].
  replace (Z.to_nat (Z.min 0 (Z.of_nat (length l)))) with 0%nat by lia.
  rewrite Nat.sub_0_r. simpl.
  destruct (Z_le_gt_dec n (Z.of_nat (length l))).
  - f_equal. lia.
  - rewrite (take_ge l (Z.to_nat n)) by lia. apply take_ge. lia.
Qed.

(** X9.  On a built index, for a fragment that is not blank and
    [maxResults >= 0], [findAllOccurrencesWithContext] returns normally one
    occurrence for each of the first [maxResults] line indices that
    [findTextLines] returns for the trimmed fragment cut to 200 code units
    and lowercased, in ascending line order: none is skipped. *)
Theorem occurrences_are_first_hits (d : MMDLinesData) (text : list N) (maxResults : Z) :
  Js.trim text <> [] ->
  0 <= maxResults ->
  findAllOccurrencesWithContext (builtIndex d) text maxResults
  = Ok (map (occurrenceOf (builtIndex d))
            (take (Z.to_nat maxResults)
                  (findTextLines (builtIndex d)
                     (Js.toLowerCase (Js.substring (Js.trim text) 0 200))))).
Proof.
  intros Hne Hmax. unfold findAllOccurrencesWithContext.
  rewrite builtIndex_available.
  destruct (Js.trim text) as [| c tr] eqn:Htrim; [contradiction |].
  cbn [length Nat.eqb orb].
  set (hits := findTextLines (builtIndex d) _).
  unfold uniq. rewrite setAddAll_NoDup_id by apply findTextLines_NoDup.
  rewrite slice_prefix by assumption.
  rewrite collectOccurrences_in_range; [reflexivity |].
  apply Forall_forall. intros n Hn. apply elem_of_take in Hn as (i & Hn & _).
  apply list_elem_of_lookup_2 in Hn.
  apply findTextLines_in_range in Hn.
  destruct (builtIndex_fields d) as (_ & _ & ->). exact Hn.
Qed.

Lemma occurrences_are_first_hits_witness :
  Js.trim (Js.lit "spark") <> []
  /\ 0 <= 1
  /\ findAllOccurrencesWithContext sampleIndex (Js.lit "spark") 1
     = Ok [occurrenceOf sampleIndex 3].
Proof.
  split; [discriminate |]. split; [lia |].
  etransitivity;
    [apply (occurrences_are_first_hits sampleData (Js.lit "spark") 1); [discriminate | lia] |].
  vm_compute. reflexivity.
Defined.

(** ** The load-once gate *)

Lemma load_loaded (file : option MMDLinesData) (st : MMDIndexServer) :
  loaded st = true -> load file st = st.
Proof. intros H. unfold load. now rewrite H. Qed.

Lemma load_unloaded (d : MMDLinesData) (st : MMDIndexServer) :
  loaded st = false -> load (Some d) st = builtIndex d.
Proof.
  intros H. unfold builtIndex, getMMDIndex, load, buildIndex. simpl. now rewrite H.
Qed.

Lemma builtIndex_loaded (d : MMDLinesData) : loaded (builtIndex d) = true.
Proof. apply builtIndex_fields. Qed.

(** X10.  [getMMDIndex] is a load-once gate: calling it again on the
    instance it returned, with the same file outcome, returns that instance
    unchanged; and an instance that is loaded is returned unchanged whatever
    the file holds by then. *)
Theorem getMMDIndex_once (file file' : option MMDLinesData) (instance : option MMDIndexServer) :
  getMMDIndex file (Some (getMMDIndex file instance)) = getMMDIndex file instance
  /\ (loaded (getMMDIndex file instance) = true ->
      getMMDIndex file' (Some (getMMDIndex file instance)) = getMMDIndex file instance).
Proof.
  split.
  - unfold getMMDIndex at 1. cbv zeta.
    destruct (loaded (getMMDIndex file instance)) eqn:Hl; [reflexivity |].
    destruct file as [d |].
    + exfalso. revert Hl. unfold getMMDIndex. destruct instance as [s |].
      * destruct (loaded s) eqn:Hs; [congruence |].
        rewrite (load_unloaded d s Hs), builtIndex_loaded. discriminate.
      * change (load (Some d) newIndex) with (builtIndex d) at 1.
        rewrite builtIndex_loaded. change (load (Some d) newIndex) with (builtIndex d).
        rewrite builtIndex_loaded. discriminate.
    + unfold load. now rewrite Hl.
  - intros Hl. unfold getMMDIndex at 1. cbv zeta. now rewrite Hl.
Qed.

Lemma getMMDIndex_once_witness :
  loaded (getMMDIndex (Some sampleData) None) = true
  /\ getMMDIndex (Some pageZeroData) (Some (getMMDIndex (Some sampleData) None))
     = getMMDIndex (Some sampleData) None.
Proof.
  destruct (getMMDIndex_once (Some sampleData) (Some pageZeroData) None) as [_ H].
  split; [reflexivity |]. apply H. reflexivity.
Defined.

(** X11.  A retry after a failed load starts afresh: when the instance is
    not loaded and the transcript now parses, [getMMDIndex] returns exactly
    the index built from that transcript, whatever the instance held. *)
Theorem getMMDIndex_retry (d : MMDLinesData) (st : MMDIndexServer) :
  loaded st = false ->
  getMMDIndex (Some d) (Some st) = builtIndex d.
Proof.
  intros H. unfold getMMDIndex. rewrite H. now apply load_unloaded.
Qed.

Lemma getMMDIndex_retry_witness :
  loaded (getMMDIndex None None) = false
  /\ getMMDIndex (Some sampleData) (Some (getMMDIndex None None)) = sampleIndex.
Proof.
  split; [reflexivity |].
  exact (getMMDIndex_retry sampleData (getMMDIndex None None) eq_refl).
Defined.

(** X12.  Building twice gives what building once gives: [buildIndex]
    applied to its own result returns it unchanged, so the document
    structure reported afterwards is the same. *)
Theorem buildIndex_idempotent (st : MMDIndexServer) :
  buildIndex (buildIndex st) = buildIndex st
  /\ getDocumentStructure (buildIndex (buildIndex st)) = getDocumentStructure (buildIndex st).
Proof.
  assert (H : buildIndex (buildIndex st) = buildIndex st).
  { destruct (linesData st) as [d |] eqn:Hd.
    - destruct (buildPages_fields (pages d) (mkIndex (Some d) ∅ [] [] (loaded st)))
        as (H1 & H2 & _).
      simpl in H1, H2.
      assert (E : buildIndex st
                  = let st1 := fold_left buildPage (pages d)
                                 (mkIndex (Some d) ∅ [] [] (loaded st)) in
                    mkIndex (linesData st1) (textToLinesMap st1) (lineTexts st1)
                            (Js.sortBy Chapter.lineNum (chapters st1)) (loaded st1)).
      { unfold buildIndex. now rewrite Hd. }
      rewrite E. cbv zeta.
      set (st1 := fold_left buildPage (pages d) (mkIndex (Some d) ∅ [] [] (loaded st))) in *.
      unfold buildIndex. cbn [linesData loaded]. rewrite H1. cbv zeta.
      rewrite H2. fold st1. now rewrite H1, H2.
    - assert (E : buildIndex st = st) by (unfold buildIndex; now rewrite Hd).
      now rewrite !E. }
  split; [exact H | now rewrite H].
Qed.

(** ** What [findChapter] returns *)

Lemma numberLoop_sound (st : MMDIndexServer) (num : list N) (chs : list Chapter.t) :
  forall results h,
    h ∈ numberLoop st num chs results ->
    h ∈ results \/ exists c, c ∈ chs /\ h = toHit st c.
Proof.
  unfold numberLoop. induction chs as [| c chs IH]; intros results h Hh; simpl in Hh; [auto |].
  destruct (IH _ _ Hh) as [H | (c' & Hc' & ->)].
  - destruct (_ && _); [| auto].
    apply elem_of_app in H as [H | H]; [auto |].
    apply list_elem_of_singleton in H. right. exists c. split; [constructor | assumption].
  - right. exists c'. split; [now constructor | reflexivity].
Qed.

Lemma alreadyFound_false (results : list ChapterHit.t) (c : Chapter.t) :
  alreadyFound results c = false ->
  Chapter.lineNum c ∉ map ChapterHit.lineNum results.
Proof.
  unfold alreadyFound. intros H Hin.
  apply list_elem_of_fmap in Hin as (h & Heq & Hh).
  assert (existsb (fun r => ChapterHit.lineNum r =? Chapter.lineNum c) results = true).
  { apply existsb_exists. exists h. split; [now apply list_elem_of_In |]. lia. }
  congruence.
Qed.

Lemma numberLoop_NoDup (st : MMDIndexServer) (num : list N) (chs : list Chapter.t) :
  forall results,
    NoDup (map ChapterHit.lineNum results) ->
    NoDup (map ChapterHit.lineNum (numberLoop st num chs results)).
Proof.
  unfold numberLoop. induction chs as [| c chs IH]; intros results Hnd; simpl; [assumption |].
  apply IH. destruct (numberMatches num c); simpl; [| assumption].
  destruct (alreadyFound results c) eqn:Ha; simpl; [assumption |].
  rewrite map_app. simpl. apply NoDup_app. split; [assumption |]. split.
  - intros x Hx Hx'. apply list_elem_of_singleton in Hx'. subst.
    now apply (alreadyFound_false _ _ Ha).
  - apply NoDup_singleton.
Qed.

Lemma sorted_filter_lineNums (chs : list Chapter.t) (f : Chapter.t -> bool) :
  StronglySorted lineNumLt chs -> NoDup (map Chapter.lineNum (filter f chs)).
Proof.
  induction 1 as [| c chs Hs IH Hall]; simpl; [constructor |].
  rewrite filter_cons. destruct (decide (f c)); [| assumption].
  simpl. constructor; [| assumption].
  intros Hin. apply list_elem_of_fmap in Hin as (c' & Heq & Hc').
  apply list_elem_of_filter in Hc' as [_ Hc'].
  rewrite Forall_forall in Hall. specialize (Hall c' Hc'). unfold lineNumLt in Hall. lia.
Qed.

(** X13.  On a built index [findChapter] returns only detected headings,
    each with the 20-line window around its line, and returns no heading
    twice: the line indices of the results are pairwise distinct. *)
Theorem findChapter_sound (d : MMDLinesData) (query : list N) :
  (forall h, h ∈ findChapter (builtIndex d) query ->
             exists c, c ∈ chapters (builtIndex d) /\ h = toHit (builtIndex d) c)
  /\ NoDup (map ChapterHit.lineNum (findChapter (builtIndex d) query)).
Proof.
  set (st := builtIndex d).
  assert (Hfirst : forall h,
             h ∈ map (toHit st) (filter (titleMatches (Js.toLowerCase query)) (chapters st)) ->
             exists c, c ∈ chapters st /\ h = toHit st c).
  { intros h Hh. apply list_elem_of_fmap in Hh as (c & -> & Hc).
    apply list_elem_of_filter in Hc as [_ Hc]. eauto. }
  assert (Hnd : NoDup (map ChapterHit.lineNum
                         (map (toHit st)
                              (filter (titleMatches (Js.toLowerCase query)) (chapters st))))).
  { rewrite map_map. simpl. apply sorted_filter_lineNums. apply builtIndex_chapters. }
  pose proof (builtIndex_available d) as Hav. change (builtIndex d) with st in Hav.
  unfold findChapter. rewrite Hav.
  destruct (Re.capture1 reNumber query) as [num |]; [| split; assumption].
  fold (numberLoop st num (chapters st)
          (map (toHit st) (filter (titleMatches (Js.toLowerCase query)) (chapters st)))).
  split.
  - intros h Hh. apply numberLoop_sound in Hh as [Hh | Hh]; auto.
  - now apply numberLoop_NoDup.
Qed.

(** ** Patterns that are a run of single units *)

Lemma prefixBy_length (ps : list (N -> bool)) :
  forall s, prefixBy ps s = true -> (length ps <= length s)%nat.
Proof.
  induction ps as [| p ps IH]; intros s H; simpl; [lia |].
  destruct s as [| c s]; [discriminate |]. simpl in *.
  apply andb_true_iff in H as [_ H]. apply IH in H. lia.
Qed.

Lemma rmatch_unitsPattern (ps : list (N -> bool)) :
  forall prev s caps k,
    Re.rmatch (unitsPattern ps) prev s caps k
    = if prefixBy ps s
      then k (Re.lastOpt prev (take (length ps) s)) (drop (length ps) s) caps
      else None.
Proof.
  induction ps as [| p ps IH]; intros prev s caps k.
  - reflexivity.
  - destruct s as [| c s]; [reflexivity |]. cbn [unitsPattern foldr Re.rmatch prefixBy].
    destruct (p c); [| reflexivity]. cbn [andb].
    fold (unitsPattern ps). rewrite IH.
    destruct (prefixBy ps s) eqn:Hp; [| reflexivity].
    cbn [length take drop]. f_equal.
    unfold Re.lastOpt. cbn [last].
    destruct (take (length ps) s) as [| c' r] eqn:Ht; [reflexivity |].
    rewrite last_cons_cons. destruct (last (c' :: r)) eqn:El; [reflexivity |].
    now apply last_None in El.
Qed.

Lemma exec_unitsPattern (ps : list (N -> bool)) (s : list N) :
  forall prev,
    Re.exec (unitsPattern ps) prev s
    = match searchBy ps s with
      | Some i => Some (Re.Found (take i s) (take (length ps) (drop i s))
                                 (drop (i + length ps) s) [])
      | None => None
      end.
Proof.
  induction s as [| c s IH]; intros prev.
  - cbn [Re.exec searchBy]. rewrite rmatch_unitsPattern.
    destruct (prefixBy ps []) eqn:Hp; [| reflexivity].
    apply prefixBy_length in Hp. destruct ps; [reflexivity | simpl in Hp; lia].
  - cbn [Re.exec searchBy]. rewrite rmatch_unitsPattern.
    destruct (prefixBy ps (c :: s)) eqn:Hp.
    + unfold Re.accept. apply prefixBy_length in Hp.
      rewrite length_drop. cbn [take drop Nat.add].
      do 2 f_equal. f_equal. lia.
    + rewrite IH. destruct (searchBy ps s) as [i |]; reflexivity.
Qed.

(** ** The document store ([useMarkdownStore]) *)

Lemma at_nat {A} (a : list A) (i : Z) : 0 <= i -> at_ a i = a !! Z.to_nat i.
Proof. intros H. unfold at_. destruct (Z.ltb_spec i 0); [lia | reflexivity]. Qed.

Lemma at_in_range {A} (a : list A) (i : Z) : 0 <= i < lenZ a -> is_Some (at_ a i).
Proof.
  intros H. rewrite at_nat by lia. apply lookup_lt_is_Some_2. unfold lenZ in H. lia.
Qed.

Lemma setMarkdown_history (newMd : list N) (s : Store.t) :
  -1 <= Store.historyIndex s < lenZ (Store.history s) ->
  Store.history (Store.setMarkdown newMd s)
  = take (Z.to_nat (Store.historyIndex s + 1)) (Store.history s) ++ [newMd]
  /\ Store.historyIndex (Store.setMarkdown newMd s) = Store.historyIndex s + 1.
Proof.
  intros H. unfold Store.setMarkdown. cbn [Store.history Store.historyIndex].
  rewrite slice_prefix by lia. split; [reflexivity |].
  rewrite lenZ_app. unfold lenZ in *. rewrite length_take. simpl. lia.
Qed.

Lemma wellFormed_range (s : Store.t) :
  Store.wellFormed s -> -1 <= Store.historyIndex s < lenZ (Store.history s).
Proof.
  intros [(Hi & Hh & _) | (Hr & _)]; [| lia].
  rewrite Hi, Hh. unfold lenZ. simpl. lia.
Qed.

Lemma step_wellFormed (s : Store.t) (a : Store.action) :
  Store.wellFormed s -> Store.wellFormed (Store.step s a).
Proof.
  intros Hwf. pose proof (wellFormed_range s Hwf) as Hr.
  destruct a as [newMd | | | fetched]; cbn [Store.step].
  - destruct (setMarkdown_history newMd s Hr) as [Hh Hi]. right.
    rewrite Hi, Hh. split.
    + rewrite lenZ_app. unfold lenZ in *. rewrite length_take. simpl. lia.
    + rewrite at_nat by lia. cbn [Store.setMarkdown Store.markdown].
      rewrite lookup_app_r by (rewrite length_take; unfold lenZ in *; lia).
      rewrite length_take.
      replace (Z.to_nat (Store.historyIndex s + 1)
               - Nat.min (Z.to_nat (Store.historyIndex s + 1)) (length (Store.history s)))%nat
        with 0%nat by (unfold lenZ in *; lia).
      reflexivity.
  - unfold Store.undo. destruct (Z.ltb_spec 0 (Store.historyIndex s)); [| assumption].
    right. cbn [Store.history Store.historyIndex Store.markdown]. split; [lia | reflexivity].
  - unfold Store.redo.
    destruct (Z.ltb_spec (Store.historyIndex s) (lenZ (Store.history s) - 1)); [| assumption].
    right. cbn [Store.history Store.historyIndex Store.markdown]. split; [lia | reflexivity].
  - right. destruct fetched; cbn; unfold lenZ; simpl; split; try lia; reflexivity.
Qed.

(** X14.  Whatever sequence of [setMarkdown], [undo], [redo] and
    [loadMarkdown] is run from the initial store, the store stays well
    formed: either nothing was ever set, or [historyIndex] points into
    [history] and [markdown] is the entry it points at, so [markdown] is
    never [undefined]. *)
Theorem store_wellFormed (actions : list Store.action) :
  Store.wellFormed (Store.run actions Store.initial)
  /\ is_Some (Store.markdown (Store.run actions Store.initial)).
Proof.
  assert (H : forall s, Store.wellFormed s -> Store.wellFormed (Store.run actions s)).
  { unfold Store.run. induction actions as [| a actions IH]; intros s Hs; simpl; auto.
    apply IH. now apply step_wellFormed. }
  assert (Hwf : Store.wellFormed (Store.run actions Store.initial)).
  { apply H. left. repeat split. }
  split; [exact Hwf |].
  destruct Hwf as [(_ & _ & ->) | (Hr & ->)]; [eauto |]. now apply at_in_range.
Qed.


Lemma sampleStore_wellFormed : Store.wellFormed sampleStore.
Proof. right. split; [vm_compute; split; [discriminate | reflexivity] | reflexivity]. Qed.


(** X16.  [setMarkdown] on a well-formed store drops everything that could
    be redone: afterwards [canRedo] is false, the history is the entries up
    to and including the one that was shown, followed by the new text, and
    the new text is what is shown. *)
Theorem setMarkdown_drops_redo (s : Store.t) (newMd : list N) :
  Store.wellFormed s ->
  Store.canRedo (Store.setMarkdown newMd s) = false
  /\ Store.history (Store.setMarkdown newMd s)
     = take (Z.to_nat (Store.historyIndex s + 1)) (Store.history s) ++ [newMd]
  /\ Store.markdown (Store.setMarkdown newMd s) = Some newMd
  /\ (0 <= Store.historyIndex s -> Store.canUndo (Store.setMarkdown newMd s) = true).
Proof.
  intros Hwf. pose proof (wellFormed_range s Hwf) as Hr.
  destruct (setMarkdown_history newMd s Hr) as [Hh Hi].
  split; [| split; [exact Hh | split; [reflexivity |]]].
  - unfold Store.canRedo. rewrite Hi, Hh, lenZ_app.
    unfold lenZ in *. rewrite length_take. simpl.
    apply Z.ltb_ge. lia.
  - intros H0. unfold Store.canUndo. rewrite Hi. apply Z.ltb_lt. lia.
Qed.

Lemma setMarkdown_drops_redo_witness :
  Store.wellFormed sampleStore
  /\ Store.canRedo sampleStore = true
  /\ Store.canRedo (Store.setMarkdown (Js.lit "four") sampleStore) = false
  /\ Store.history (Store.setMarkdown (Js.lit "four") sampleStore)
     = [Js.lit "one"; Js.lit "two"; Js.lit "four"].
Proof.
  destruct (setMarkdown_drops_redo sampleStore (Js.lit "four") sampleStore_wellFormed)
    as (H1 & H2 & _).
  split; [exact sampleStore_wellFormed |]. split; [reflexivity |].
  split; [exact H1 |]. rewrite H2. reflexivity.
Defined.

(** ** Accepting an edit ([acceptEdit]) *)

Section CompileAny.
Import ReSyntax.

Lemma parseSeq_escaped_any (ci : bool) (k : list N) :
  forall fuel, (2 * length k + 1 <= fuel)%nat ->
               parseSeq fuel ci (flat_map escapeUnit k)
               = POk (unitsPattern (map (unitTest ci) k)) [].
Proof.
  induction k as [| c k IH]; intros fuel Hf.
  - destruct fuel; [lia | reflexivity].
  - simpl in Hf. destruct fuel as [| [| fuel]]; try lia.
    simpl flat_map. unfold escapeUnit at 1. cbn [map unitsPattern foldr].
    fold (unitsPattern (map (unitTest ci) k)).
    unfold unitTest at 1.
    destruct (isSpecial c) eqn:Hc.
    + simpl app. rewrite parseSeq_cons by reflexivity.
      rewrite parseAtom_backslash.
      destruct (escapeSet_special c Hc) as [-> ->].
      rewrite quantify_escaped, IH by lia. reflexivity.
    + simpl app. rewrite parseSeq_cons.
      * rewrite parseAtom_literal by assumption.
        rewrite quantify_escaped, IH by lia. now destruct ci.
      * apply not_special in Hc. rewrite Forall_forall in Hc.
        rewrite (Hc 124%N), (Hc 41%N); [reflexivity | |];
          apply list_elem_of_In; simpl; tauto.
Qed.

Lemma compile_escaped_any (ci : bool) (k : list N) :
  compile ci (escapeRegExp k) = Compiled (unitsPattern (map (unitTest ci) k)).
Proof.
  rewrite escapeRegExp_units. unfold compile.
  assert (Hlen : (length k <= length (flat_map escapeUnit k))%nat).
  { induction k as [| c k IH]; simpl; [lia |].
    rewrite length_app. unfold escapeUnit at 1. destruct (isSpecial c); simpl; lia. }
  replace (3 * length (flat_map escapeUnit k) + 4)%nat
    with (S (3 * length (flat_map escapeUnit k) + 3)) by lia.
  simpl parseAlt. rewrite parseSeq_escaped_any by lia. reflexivity.
Qed.

End CompileAny.

Lemma unitTest_exact (c : N) : unitTest false c = N.eqb c.
Proof. unfold unitTest. now destruct (isSpecial c). Qed.

Lemma prefixBy_exact (k : list N) :
  forall s, prefixBy (map (unitTest false) k) s = Js.isPrefix k s.
Proof.
  induction k as [| c k IH]; intros s; [reflexivity |].
  destruct s as [| x s]; [reflexivity |]. simpl. now rewrite unitTest_exact, IH.
Qed.

Lemma searchBy_exact (k : list N) :
  forall s, searchBy (map (unitTest false) k) s = Js.search k s.
Proof.
  induction s as [| x s IH]; simpl; rewrite prefixBy_exact; [reflexivity |].
  now rewrite IH.
Qed.

Lemma isPrefix_take (k : list N) :
  forall s, Js.isPrefix k s = true -> take (length k) s = k.
Proof.
  induction k as [| c k IH]; intros s H; [reflexivity |].
  destruct s as [| x s]; [discriminate |]. simpl in *.
  apply andb_true_iff in H as [Hc H]. apply N.eqb_eq in Hc. subst. f_equal. auto.
Qed.

Lemma search_found (k : list N) :
  forall s i, Js.search k s = Some i ->
              Js.isPrefix k (drop i s) = true /\ (i + length k <= length s)%nat.
Proof.
  induction s as [| x s IH]; intros i H; simpl in H.
  - destruct (Js.isPrefix k []) eqn:Hp; [| discriminate].
    injection H as <-. split; [assumption |].
    destruct k; [simpl; lia | discriminate].
  - destruct (Js.isPrefix k (x :: s)) eqn:Hp.
    + injection H as <-. split; [assumption |].
      rewrite <- (isPrefix_take k _ Hp) at 1. rewrite length_take. simpl. lia.
    + destruct (Js.search k s) as [j |] eqn:Hs; [| discriminate].
      injection H as <-. destruct (IH j eq_refl) as [H1 H2]. split; [exact H1 | simpl; lia].
Qed.

(** What [exec] finds for an escaped text compiled without the [i] flag. *)
Lemma exec_exact (k s : list N) (prev : option N) :
  Re.exec (unitsPattern (map (unitTest false) k)) prev s
  = match Js.search k s with
    | Some i => Some (Re.Found (take i s) k (drop (i + length k) s) [])
    | None => None
    end.
Proof.
  rewrite exec_unitsPattern, searchBy_exact, length_map.
  destruct (Js.search k s) as [i |] eqn:Hs; [| reflexivity].
  destruct (search_found k s i Hs) as [Hp _].
  now rewrite (isPrefix_take k _ Hp).
Qed.

Lemma getSubstitution_plain (matched before after replacement : list N) :
  36%N ∉ replacement -> getSubstitution matched before after replacement = replacement.
Proof.
  induction replacement as [| c r IH]; intros H; [reflexivity |].
  simpl. destruct (N.eqb_spec c 36) as [-> | Hc].
  - exfalso. apply H. constructor.
  - f_equal. apply IH. intros Hin. apply H. now constructor.
Qed.

Lemma scan_exact (k new : list N) :
  k <> [] -> 36%N ∉ new ->
  forall fuel s prev before,
    substituteAll new before (Re.scan fuel (unitsPattern (map (unitTest false) k)) prev s) s
    = replaceEvery fuel k new s.
Proof.
  intros Hk Hnew. induction fuel as [| fuel IH]; intros s prev before; [reflexivity |].
  cbn [Re.scan replaceEvery]. rewrite exec_exact.
  destruct (Js.search k s) as [i |] eqn:Hs; [| reflexivity].
  cbn [Re.matched Re.rest Re.skipped].
  destruct k as [| c k]; [contradiction |].
  cbn [substituteAll Re.matched Re.rest Re.skipped].
  rewrite getSubstitution_plain by assumption. now rewrite IH.
Qed.

(** Past the length of the text, more fuel changes nothing. *)
Lemma replaceEvery_stable (old new : list N) :
  old <> [] ->
  forall fuel1 fuel2 s,
    (length s < fuel1)%nat -> (length s < fuel2)%nat ->
    replaceEvery fuel1 old new s = replaceEvery fuel2 old new s.
Proof.
  intros Hold. induction fuel1 as [| fuel1 IH]; intros fuel2 s H1 H2; [lia |].
  destruct fuel2 as [| fuel2]; [lia |]. cbn [replaceEvery].
  destruct (Js.search old s) as [i |] eqn:Hs; [| reflexivity].
  destruct (search_found old s i Hs) as [_ Hi].
  assert (0 < length old)%nat by (destruct old; [contradiction | simpl; lia]).
  do 2 f_equal. apply IH; rewrite length_drop; lia.
Qed.

(** X17.  [acceptEdit] returns normally on every store that shows a text,
    and when the proposal's [oldContent] is not empty and does not occur in
    the text, the text is left as it is, in either mode; [setMarkdown] is
    still called, so the unchanged text is added to the history. *)
Theorem acceptEdit_absent (s : Store.t) (proposal : EditProposal.t) (md : list N) :
  Store.markdown s = Some md ->
  (exists s', acceptEdit s proposal = Ok s')
  /\ (EditProposal.newContent proposal <> [] ->
      EditProposal.oldContent proposal <> [] ->
      Js.includes md (EditProposal.oldContent proposal) = false ->
      acceptEdit s proposal = Ok (Store.setMarkdown md s)).
Proof.
  intros Hmd. unfold acceptEdit, editedMarkdown. rewrite Hmd, compile_escaped_any. split.
  - destruct (isEmpty (EditProposal.newContent proposal)); [eauto |].
    destruct (isEmpty (EditProposal.oldContent proposal)); [eauto |].
    destruct (EditProposal.replaceAll proposal); eauto.
  - intros Hnew Hold Hinc.
    apply isEmpty_false in Hnew, Hold. rewrite Hnew, Hold.
    unfold Js.includes in Hinc.
    destruct (Js.search (EditProposal.oldContent proposal) md) as [i |] eqn:Hs;
      [discriminate |].
    destruct (EditProposal.replaceAll proposal).
    + unfold replaceGlobal, Re.matches. cbn [Re.scan]. rewrite exec_exact, Hs. reflexivity.
    + unfold replaceFirst. now rewrite Hs.
Qed.

Lemma acceptEdit_absent_witness :
  Store.markdown sampleStore = Some (Js.lit "two")
  /\ Js.includes (Js.lit "two") (Js.lit "a.c") = false
  /\ acceptEdit sampleStore (sampleProposal true)
     = Ok (Store.setMarkdown (Js.lit "two") sampleStore).
Proof.
  destruct (acceptEdit_absent sampleStore (sampleProposal true) (Js.lit "two") eq_refl)
    as [_ H].
  split; [reflexivity |]. split; [reflexivity |].
  apply H; [discriminate | discriminate | reflexivity].
Defined.

(** X18.  When the replacement holds no dollar sign, [acceptEdit] replaces
    the old text literally: with [replaceAll] every occurrence of
    [oldContent] is replaced, left to right, the special characters of
    [oldContent] standing for themselves; without it only the first
    occurrence is.  [fuel] is any number above the length of the text. *)
Theorem acceptEdit_literal (s : Store.t) (proposal : EditProposal.t) (md : list N)
    (fuel : nat) :
  Store.markdown s = Some md ->
  (length md < fuel)%nat ->
  EditProposal.newContent proposal <> [] ->
  EditProposal.oldContent proposal <> [] ->
  36%N ∉ EditProposal.newContent proposal ->
  acceptEdit s proposal
  = Ok (Store.setMarkdown
          (if EditProposal.replaceAll proposal
           then replaceEvery fuel (EditProposal.oldContent proposal)
                             (EditProposal.newContent proposal) md
           else replaceEvery 1 (EditProposal.oldContent proposal)
                             (EditProposal.newContent proposal) md)
          s).
Proof.
  intros Hmd Hfuel Hnew Hold Hplain.
  unfold acceptEdit, editedMarkdown. rewrite Hmd, compile_escaped_any.
  pose proof Hnew as Hnew'. pose proof Hold as Hold'.
  apply isEmpty_false in Hnew', Hold'. rewrite Hnew', Hold'.
  destruct (EditProposal.replaceAll proposal).
  - unfold replaceGlobal, Re.matches. rewrite scan_exact by assumption.
    do 2 f_equal. apply replaceEvery_stable; [assumption | lia | assumption].
  - unfold replaceFirst. cbn [replaceEvery].
    destruct (Js.search (EditProposal.oldContent proposal) md) as [i |]; [| reflexivity].
    cbv zeta. now rewrite getSubstitution_plain.
Qed.

Lemma acceptEdit_literal_witness :
  Store.markdown abcStore = Some (Js.lit "a.c abc a.c")
  /\ (36%N ∉ Js.lit "X")
  /\ acceptEdit abcStore (sampleProposal true)
     = Ok (Store.setMarkdown (Js.lit "X abc X") abcStore)
  /\ acceptEdit abcStore (sampleProposal false)
     = Ok (Store.setMarkdown (Js.lit "X abc a.c") abcStore).
Proof.
  assert (Hplain : 36%N ∉ Js.lit "X").
  { intros H. apply list_elem_of_In in H. simpl in H. destruct H as [H | []]. discriminate. }
  split; [reflexivity |]. split; [exact Hplain |]. split.
  - etransitivity;
      [apply (acceptEdit_literal abcStore (sampleProposal true) (Js.lit "a.c abc a.c") 12 eq_refl);
       [simpl; lia | discriminate | discriminate | exact Hplain] |].
    vm_compute. reflexivity.
  - etransitivity;
      [apply (acceptEdit_literal abcStore (sampleProposal false) (Js.lit "a.c abc a.c") 12 eq_refl);
       [simpl; lia | discriminate | discriminate | exact Hplain] |].
    vm_compute. reflexivity.
Defined.

(** ** The sections that [findRelevantSections] returns *)

Lemma matchAll_positive (r : Re.regex) (s : list N) :
  0 <= lenZ (Re.matchAll r s)
  /\ (0 < lenZ (Re.matchAll r s) <-> Re.exec r None s <> None).
Proof.
  split; [apply lenZ_nonneg |].
  unfold Re.matchAll, Re.matches, lenZ. rewrite length_map. cbn [Re.scan].
  destruct (Re.exec r None s) as [f |]; [| simpl; split; [lia | congruence]].
  split; [congruence | intros _].
  destruct (Re.matched f), (Re.rest f); simpl; try lia;
    destruct (Re.scan _ _ _ _); simpl; lia.
Qed.

Lemma blockScore_positive (block : list N) (keywords : list (list N)) :
  forall score v,
    blockScore block keywords score = Ok v ->
    score <= v /\ (score < v <-> existsb (fun k => occursIn k block) keywords = true).
Proof.
  induction keywords as [| k ks IH]; intros score v H; simpl in H.
  - injection H as <-. simpl. split; [lia | split; [lia | discriminate]].
  - rewrite compile_escaped_any in H. apply IH in H as [Hle Hiff].
    destruct (matchAll_positive (unitsPattern (map (unitTest true) k)) block) as [H0 Hpos].
    rewrite exec_unitsPattern in Hpos.
    cbn [existsb]. unfold occursIn at 1.
    destruct (searchBy (map (unitTest true) k) block) as [i |].
    + assert (0 < lenZ (Re.matchAll (unitsPattern (map (unitTest true) k)) block))
        by (apply Hpos; discriminate).
      split; [lia |]. split; [reflexivity | lia].
    + assert (~ 0 < lenZ (Re.matchAll (unitsPattern (map (unitTest true) k)) block))
        by (intros Hc; apply Hpos in Hc; congruence).
      cbn [orb]. split; [lia |]. rewrite <- Hiff. lia.
Qed.

Lemma blockScore_mentions (keywords : list (list N)) (b : list N) (v : Z) :
  blockScore (Js.toLowerCase b) keywords 0 = Ok v ->
  (0 <? v) = mentionsAny keywords b.
Proof.
  intros H. apply blockScore_positive in H as [_ Hiff]. unfold mentionsAny.
  destruct (existsb _ keywords).
  - apply Z.ltb_lt, Hiff. reflexivity.
  - apply Z.ltb_ge. destruct (Z.lt_ge_cases 0 v) as [Hc | Hc]; [| lia].
    apply Hiff in Hc. discriminate.
Qed.

Lemma scoreBlocks_sections (blocks keywords : list (list N)) :
  forall todo i sections out,
    (i <= length blocks)%nat ->
    todo = drop i blocks ->
    Forall (sectionOk blocks keywords) sections ->
    scoreBlocks blocks keywords todo (Z.of_nat i) sections = Ok out ->
    Forall (sectionOk blocks keywords) out
    /\ length out = (length sections + length (filter (fun b => mentionsAny keywords b = true) todo))%nat.
Proof.
  induction todo as [| b todo IH]; intros i sections out Hi Hd Hs H; simpl in H.
  - injection H as <-. split; [assumption | simpl; lia].
  - destruct (blockScore (Js.toLowerCase b) keywords 0) as [v |] eqn:Hv; [| discriminate].
    rewrite (blockScore_mentions _ _ _ Hv) in H.
    assert (Hb : blocks !! i = Some b).
    { rewrite <- (Nat.add_0_r i), <- lookup_drop, <- Hd. reflexivity. }
    assert (Hd' : todo = drop (S i) blocks).
    { replace (S i) with (i + 1)%nat by lia.
      rewrite <- (drop_drop blocks 1 i), <- Hd. reflexivity. }
    assert (Hi' : (S i <= length blocks)%nat).
    { apply lookup_lt_Some in Hb. lia. }
    replace (Z.of_nat i + 1) with (Z.of_nat (S i)) in H by lia.
    rewrite filter_cons.
    destruct (mentionsAny keywords b) eqn:Hm.
    + apply IH in H; try assumption.
      * destruct H as [H1 H2]. split; [exact H1 |].
        rewrite H2, length_app. destruct (decide (true = true)); [simpl; lia | congruence].
      * apply Forall_app. split; [assumption |]. constructor; [| constructor].
        exists b. cbn [SectionEntry.index SectionEntry.text]. split; [| split].
        -- rewrite at_nat by lia. rewrite Nat2Z.id. exact Hb.
        -- exact Hm.
        -- reflexivity.
    + apply IH in H; assumption.
Qed.

Lemma length_slice_0 {A} (l : list A) (n : Z) :
  0 <= n -> lenZ (Js.slice l 0 n) = Z.min n (lenZ l).
Proof.
  intros Hn. unfold Js.slice, Js.relIdx, lenZ.
  destruct (0 <? 0) eqn:E0; [apply Z.ltb_lt in E0; lia |].
  destruct (n <? 0) eqn:En; [apply Z.ltb_lt in En; lia |].
  rewrite length_take, length_drop. lia.
Qed.

Lemma elem_of_slice {A} (l : list A) (a b : Z) (x : A) :
  x ∈ Js.slice l a b -> x ∈ l.
Proof.
  unfold Js.slice. intros H. apply subseteq_take in H. now apply subseteq_drop in H.
Qed.

(** X19.  [findRelevantSections] never throws.  With a non-negative
    [maxResults] it returns one section for each block that mentions a
    keyword, up to [maxResults] of them; and every section it returns is the
    text around a block that mentions a keyword: the block itself, the one
    before it and the one after it, joined by blank lines.  Without keywords
    nothing is returned. *)
Theorem findRelevantSections_sections (markdown : list N) (keywords : list (list N))
    (maxResults : Z) :
  0 <= maxResults ->
  let blocks := Re.split reBlankLines markdown in
  exists out,
    findRelevantSections markdown keywords maxResults = Ok out
    /\ lenZ out
       = Z.min maxResults (lenZ (filter (fun b => mentionsAny keywords b = true) blocks))
    /\ (forall t, t ∈ out ->
          exists i b, at_ blocks i = Some b
                      /\ mentionsAny keywords b = true
                      /\ t = sectionAround blocks i)
    /\ (keywords = [] -> out = []).
Proof.
  intros Hmax blocks. unfold findRelevantSections. fold blocks.
  destruct (scoreBlocks_ok blocks keywords blocks 0 []) as [sections Hs]. rewrite Hs.
  destruct (scoreBlocks_sections blocks keywords blocks 0 [] sections) as [Hok Hlen];
    [lia | reflexivity | constructor | exact Hs |].
  eexists. split; [reflexivity |].
  assert (Hcount : lenZ (map SectionEntry.text
                           (Js.slice (Js.sortBy (fun s => - SectionEntry.score s) sections)
                                     0 maxResults))
                   = Z.min maxResults
                       (lenZ (filter (fun b => mentionsAny keywords b = true) blocks))).
  { unfold lenZ at 1. rewrite length_map. fold (lenZ (Js.slice
      (Js.sortBy (fun s => - SectionEntry.score s) sections) 0 maxResults)).
    rewrite length_slice_0 by assumption. unfold lenZ.
    rewrite length_sortBy, Hlen. simpl. reflexivity. }
  split; [exact Hcount |]. split.
  - intros t Ht. apply list_elem_of_fmap in Ht as [e [-> He]].
    apply elem_of_slice, elem_of_sortBy in He.
    rewrite Forall_forall in Hok. destruct (Hok e He) as [b [H1 [H2 H3]]].
    exists (SectionEntry.index e), b. auto.
  - intros ->. revert Hcount.
    replace (filter (fun b => mentionsAny [] b = true) blocks) with (@nil (list N)).
    + unfold lenZ. simpl length at 2. intros Hc.
      destruct (map _ _); [reflexivity | simpl in Hc; lia].
    + clear. induction blocks as [| b bs IH]; [reflexivity |].
      rewrite filter_cons. simpl. exact IH.
Qed.

Lemma findRelevantSections_sections_witness :
  exists out,
    findRelevantSections notesText [Js.lit "cat"] 5 = Ok out
    /\ out = [Js.lit "Intro" ++ Js.nl ++ Js.nl ++ Js.lit "The Cat sat" ++ Js.nl ++ Js.nl
              ++ Js.lit "A dog"].
Proof.
  destruct (findRelevantSections_sections notesText [Js.lit "cat"] 5 ltac:(lia))
    as [out [H _]].
  exists out. split; [exact H |].
  vm_compute in H. injection H as <-. reflexivity.
Defined.

(** ** The offsets of a pattern ([findAllOccurrences] of the edit route) *)

Lemma search_first (p : list N) :
  forall s,
    match Js.search p s with
    | None => forall j, (j <= length s)%nat -> occursAt p s j = false
    | Some i => (i <= length s)%nat /\ occursAt p s i = true
                /\ forall j, (j < i)%nat -> occursAt p s j = false
    end.
Proof.
  unfold occursAt. induction s as [| c s IH]; simpl.
  - destruct (Js.isPrefix p []) eqn:Hp.
    + split; [lia |]. split; [exact Hp | intros; lia].
    + intros j Hj. now rewrite drop_nil.
  - destruct (Js.isPrefix p (c :: s)) eqn:Hp.
    + split; [lia |]. split; [exact Hp | intros; lia].
    + destruct (Js.search p s) as [i |]; simpl.
      * destruct IH as [H1 [H2 H3]]. split; [lia |]. split; [exact H2 |].
        intros [| j] Hj; [exact Hp | apply H3; lia].
      * intros [| j] Hj; [exact Hp | apply IH; lia].
Qed.

Lemma occursAt_drop (p s : list N) (start j : nat) :
  occursAt p (drop start s) j = occursAt p s (start + j).
Proof. unfold occursAt. now rewrite drop_drop. Qed.

Lemma filter_seq_none (P : nat -> bool) (n : nat) :
  forall start, (forall j, (start <= j < start + n)%nat -> P j = false) ->
                List.filter P (seq start n) = [].
Proof.
  induction n as [| n IH]; intros start H; [reflexivity |].
  simpl. rewrite (H start) by lia. apply IH. intros; apply H; lia.
Qed.

Lemma filter_seq_first (P : nat -> bool) (n : nat) :
  forall start i,
    (start <= i < start + n)%nat -> P i = true ->
    (forall j, (start <= j < i)%nat -> P j = false) ->
    List.filter P (seq start n) = i :: List.filter P (seq (S i) (start + n - S i)).
Proof.
  induction n as [| n IH]; intros start i Hi Hp Hf; [lia |].
  simpl. destruct (Nat.eq_dec start i) as [-> | Hne].
  - rewrite Hp. do 3 f_equal. lia.
  - rewrite (Hf start) by lia. rewrite (IH (S start) i); [| lia | exact Hp |].
    + do 3 f_equal. lia.
    + intros; apply Hf; lia.
Qed.

(** What the next call of [indexOf] finds, and what is left to find. *)
Lemma indexOfFrom_next (md p : list N) (start : nat) :
  p <> [] -> (start <= length md)%nat ->
  match Js.search p (drop start md) with
  | None => offsetsFrom p md start = []
  | Some i => (start + i < length md)%nat
              /\ offsetsFrom p md start
                 = Z.of_nat (start + i) :: offsetsFrom p md (S (start + i))
  end.
Proof.
  intros Hp Hs. pose proof (search_first p (drop start md)) as H.
  pose proof (search_found p (drop start md)) as Hfound.
  destruct (Js.search p (drop start md)) as [i |].
  - destruct H as [H1 [H2 H3]]. rewrite length_drop in H1.
    destruct (Hfound i eq_refl) as [_ Hlen]. rewrite length_drop in Hlen.
    assert (0 < length p)%nat by (destruct p; [contradiction | simpl; lia]).
    split; [lia |]. unfold offsetsFrom.
    rewrite (filter_seq_first _ _ start (start + i)%nat).
    + simpl. do 4 f_equal. lia.
    + lia.
    + rewrite <- occursAt_drop. exact H2.
    + intros j Hj. replace j with (start + (j - start))%nat by lia.
      rewrite <- occursAt_drop. apply H3. lia.
  - unfold offsetsFrom. rewrite filter_seq_none; [reflexivity |].
    intros j Hj. replace j with (start + (j - start))%nat by lia.
    rewrite <- occursAt_drop. apply H. rewrite length_drop. lia.
Qed.

Lemma occurrenceLoop_spec (md p : list N) :
  p <> [] ->
  forall fuel start occurrences,
    (start <= length md)%nat ->
    (length md + 2 - start <= fuel)%nat ->
    Route.occurrenceLoop fuel md p
      (match Js.search p (drop start md) with
       | Some i => Z.of_nat (start + i)
       | None => -1
       end) occurrences
    = Some (occurrences ++ offsetsFrom p md start).
Proof.
  intros Hp. induction fuel as [| fuel IH]; intros start occ Hs Hf; [lia |].
  pose proof (indexOfFrom_next md p start Hp Hs) as Hn.
  cbn [Route.occurrenceLoop].
  destruct (Js.search p (drop start md)) as [i |].
  - destruct Hn as [Hlt Heq].
    destruct (Z.eqb_spec (Z.of_nat (start + i)) (-1)) as [E | _]; [lia |].
    unfold indexOfFrom, Js.clampIdx.
    replace (Z.to_nat (Z.min (Z.max (Z.of_nat (start + i) + 1) 0) (Z.of_nat (length md))))
      with (S (start + i)) by lia.
    rewrite IH by lia. rewrite Heq, <- app_assoc. reflexivity.
  - rewrite Hn, app_nil_r. reflexivity.
Qed.

(** X20.  For a pattern that is not empty, [findAllOccurrences] of the edit
    route returns every offset at which the pattern stands in the text,
    overlapping ones included, in ascending order; the loop ends within
    [length + 2] rounds. *)
Theorem route_findAllOccurrences_all (markdown pattern : list N) (fuel : nat) :
  pattern <> [] ->
  (length markdown + 2 <= fuel)%nat ->
  Route.findAllOccurrences fuel markdown pattern = Some (offsetsFrom pattern markdown 0).
Proof.
  intros Hp Hf. unfold Route.findAllOccurrences, Js.indexOf.
  pose proof (occurrenceLoop_spec markdown pattern Hp fuel 0 [] ltac:(lia) ltac:(lia)) as H.
  rewrite drop_0 in H. cbn [Nat.add app] in H. exact H.
Qed.

Lemma route_findAllOccurrences_all_witness :
  Route.findAllOccurrences 7 (Js.lit "aaaba") (Js.lit "aa") = Some [0; 1].
Proof.
  etransitivity;
    [apply (route_findAllOccurrences_all (Js.lit "aaaba") (Js.lit "aa") 7);
     [discriminate | simpl; lia] |].
  vm_compute. reflexivity.
Defined.

Lemma indexOfFrom_empty (md : list N) (position : Z) : 0 <= indexOfFrom md [] position.
Proof.
  unfold indexOfFrom. destruct (drop _ md); simpl; lia.
Qed.

Lemma occurrenceLoop_empty (md : list N) :
  forall fuel index occurrences,
    0 <= index -> Route.occurrenceLoop fuel md [] index occurrences = None.
Proof.
  induction fuel as [| fuel IH]; intros index occ Hi; [reflexivity |].
  cbn [Route.occurrenceLoop].
  destruct (Z.eqb_spec index (-1)) as [E | _]; [lia |].
  apply IH, indexOfFrom_empty.
Qed.

(** X21.  For the empty pattern the loop of [findAllOccurrences] never
    ends: [indexOf] finds the empty pattern at every position, the end of
    the text included, so no number of rounds yields a result. *)
Theorem route_findAllOccurrences_empty (markdown : list N) (fuel : nat) :
  Route.findAllOccurrences fuel markdown [] = None.
Proof.
  unfold Route.findAllOccurrences. apply occurrenceLoop_empty.
  unfold Js.indexOf. destruct markdown; simpl; lia.
Qed.

(** ** The hits of the client's [findAllOccurrences] *)

Lemma scanPage_pageHits (regex : Re.regex) (cp : Z) (ls : list MMDLine) :
  forall n results,
    Client.scanPage regex cp ls n results
    = (n + lenZ ls, results ++ pageHits regex cp ls n).
Proof.
  induction ls as [| l ls IH]; intros n results; simpl.
  - unfold lenZ. simpl. now rewrite Z.add_0_r, app_nil_r.
  - rewrite IH. unfold lenZ. simpl length. f_equal; [lia |].
    destruct (Re.test regex (text l)); [now rewrite <- app_assoc | reflexivity].
Qed.

Lemma scanPages_pagesHits (regex : Re.regex) (ps : list MMDPage) :
  forall n results,
    Client.scanPages regex ps n results = results ++ pagesHits regex ps n.
Proof.
  induction ps as [| p ps IH]; intros n results; simpl.
  - now rewrite app_nil_r.
  - rewrite scanPage_pageHits, IH. now rewrite <- app_assoc.
Qed.

(** The hits of one page. *)
Lemma pageHits_spec (regex : Re.regex) (cp : Z) (ls : list MMDLine) :
  forall n,
    Forall (fun h => n <= Client.Hit.lineNum h < n + lenZ ls
                     /\ map text ls !! Z.to_nat (Client.Hit.lineNum h - n)
                        = Some (Client.Hit.text h)
                     /\ Re.test regex (Client.Hit.text h) = true
                     /\ Client.Hit.page h = cp)
           (pageHits regex cp ls n)
    /\ StronglySorted hitBefore (pageHits regex cp ls n)
    /\ forall k t, map text ls !! k = Some t -> Re.test regex t = true ->
                   exists h, h ∈ pageHits regex cp ls n
                             /\ Client.Hit.lineNum h = n + Z.of_nat k.
Proof.
  induction ls as [| l ls IH]; intros n.
  - simpl. split; [constructor |]. split; [constructor |]. intros k t H. discriminate.
  - destruct (IH (n + 1)) as [H1 [H2 H3]]. cbn [pageHits].
    assert (Hrest : Forall (fun h => n <= Client.Hit.lineNum h < n + lenZ (l :: ls)
                     /\ map text (l :: ls) !! Z.to_nat (Client.Hit.lineNum h - n)
                        = Some (Client.Hit.text h)
                     /\ Re.test regex (Client.Hit.text h) = true
                     /\ Client.Hit.page h = cp)
                   (pageHits regex cp ls (n + 1))).
    { eapply Forall_impl; [exact H1 |]. intros h [Ha [Hb [Hc Hd]]].
      unfold lenZ in *. simpl length. split; [lia |]. split; [| auto].
      replace (Z.to_nat (Client.Hit.lineNum h - n))
        with (S (Z.to_nat (Client.Hit.lineNum h - (n + 1)))) by lia.
      exact Hb. }
    split; [| split].
    + destruct (Re.test regex (text l)) eqn:Ht; [| exact Hrest].
      simpl. constructor; [| exact Hrest]. simpl.
      unfold lenZ. simpl length. split; [lia |].
      rewrite Z.sub_diag. simpl. auto.
    + destruct (Re.test regex (text l)) eqn:Ht; [| exact H2].
      simpl. constructor; [exact H2 |].
      eapply Forall_impl; [exact H1 |]. intros h [Ha _]. unfold hitBefore. simpl. lia.
    + intros [| k] t Hk Ht.
      * simpl in Hk. injection Hk as <-. rewrite Ht.
        eexists. split; [left |]. simpl. lia.
      * simpl in Hk. destruct (H3 k t Hk Ht) as [h [Hin Hn]].
        exists h. split; [| lia]. apply elem_of_app. now right.
Qed.

Lemma lineCount_pageTexts (ps : list MMDPage) : lenZ (pageTexts ps) = lineCount ps.
Proof.
  induction ps as [| p ps IH]; [reflexivity |].
  unfold pageTexts in *. simpl. rewrite lenZ_app, IH. unfold lenZ. now rewrite length_map.
Qed.

(** The hits of a run of pages. *)
Lemma pagesHits_spec (regex : Re.regex) (ps : list MMDPage) :
  forall n,
    Forall (fun h => hitOk regex ps n h /\ Client.Hit.lineNum h < n + lineCount ps)
           (pagesHits regex ps n)
    /\ StronglySorted hitBefore (pagesHits regex ps n)
    /\ forall k t, pageTexts ps !! k = Some t -> Re.test regex t = true ->
                   exists h, h ∈ pagesHits regex ps n
                             /\ Client.Hit.lineNum h = n + Z.of_nat k.
Proof.
  induction ps as [| p ps IH]; intros n.
  - simpl. split; [constructor |]. split; [constructor |]. intros k t H. discriminate.
  - destruct (IH (n + lenZ (lines p))) as [H1 [H2 H3]].
    destruct (pageHits_spec regex (page p) (lines p) n) as [G1 [G2 G3]].
    pose proof (lenZ_nonneg (lines p)) as Hnn.
    pose proof (lineCount_nonneg ps) as Hcn.
    cbn [pagesHits]. split; [| split].
    + apply Forall_app. split.
      * eapply Forall_impl; [exact G1 |]. intros h [Ha [Hb [Hc Hd]]].
        split; [| unfold lineCount in *; cbn [fold_right]; unfold lenZ in *; lia]. unfold hitOk. split; [lia |]. split; [| split; [exact Hc |]].
        -- unfold pageTexts. simpl. rewrite lookup_app_l; [exact Hb |].
           rewrite length_map. unfold lenZ in Ha. lia.
        -- simpl. unfold lenZ in Ha.
           destruct (Z.ltb_spec (Client.Hit.lineNum h) (n + Z.of_nat (length (lines p))));
             [now rewrite Hd | lia].
      * eapply Forall_impl; [exact H1 |]. intros h [[Ha [Hb [Hc Hd]]] He].
        split; [| unfold lineCount in *; cbn [fold_right]; unfold lenZ in *; lia]. unfold hitOk. split; [lia |]. split; [| split; [exact Hc |]].
        -- unfold pageTexts. simpl. rewrite lookup_app_r; rewrite length_map;
             unfold lenZ in Ha; [| lia].
           replace (Z.to_nat (Client.Hit.lineNum h - n) - length (lines p))%nat
             with (Z.to_nat (Client.Hit.lineNum h - (n + lenZ (lines p))))
             by (unfold lenZ; lia).
           exact Hb.
        -- simpl. unfold lenZ in Ha.
           destruct (Z.ltb_spec (Client.Hit.lineNum h) (n + Z.of_nat (length (lines p))));
             [lia | exact Hd].
    + apply StronglySorted_app_2; [| exact G2 | exact H2].
      intros a b Ha Hb. rewrite Forall_forall in G1, H1.
      destruct (G1 a Ha) as [Ga _]. destruct (H1 b Hb) as [[Gb _] _].
      unfold hitBefore. lia.
    + intros k t Hk Ht. unfold pageTexts in Hk. simpl in Hk.
      destruct (Nat.lt_ge_cases k (length (map text (lines p)))) as [Hlt | Hge].
      * rewrite lookup_app_l in Hk by exact Hlt.
        destruct (G3 k t Hk Ht) as [h [Hin Hn]].
        exists h. split; [apply elem_of_app; now left | exact Hn].
      * rewrite lookup_app_r in Hk by exact Hge.
        destruct (H3 _ t Hk Ht) as [h [Hin Hn]].
        exists h. split; [apply elem_of_app; now right |].
        rewrite length_map in *. unfold lenZ in Hn. lia.
Qed.

(** X22.  With a loaded index and a pattern that compiles, the client's
    [findAllOccurrences] reports exactly the lines that the pattern matches:
    every hit carries the index of its line among all lines, the text of
    that line, which the pattern matches, and the page that
    [getPageForLine] gives for the index; the hits are in strictly ascending
    order of line index; and every line that the pattern matches has a
    hit. *)
Theorem client_hits_exact (idx : Client.MMDIndex) (d : MMDLinesData) (pattern : list N)
    (regex : Re.regex) :
  Client.linesData idx = Some d ->
  Client.loaded idx = true ->
  ReSyntax.compile true pattern = ReSyntax.Compiled regex ->
  exists hits,
    Client.findAllOccurrences idx pattern = Some (Ok hits)
    /\ (forall h, h ∈ hits ->
          at_ (allLines d) (Client.Hit.lineNum h) = Some (Client.Hit.text h)
          /\ Re.test regex (Client.Hit.text h) = true
          /\ Client.Hit.page h = ClientIndex.getPageForLine idx (Client.Hit.lineNum h))
    /\ StronglySorted hitBefore hits
    /\ (forall i t, allLines d !! i = Some t -> Re.test regex t = true ->
          exists h, h ∈ hits /\ Client.Hit.lineNum h = Z.of_nat i).
Proof.
  intros Hd Hl Hc. unfold Client.findAllOccurrences, ClientIndex.getPageForLine.
  rewrite Hd, Hl, Hc. eexists. split; [reflexivity |].
  rewrite scanPages_pagesHits. cbn [app].
  destruct (pagesHits_spec regex (pages d) 0) as [H1 [H2 H3]].
  split; [| split; [exact H2 |]].
  - intros h Hh. rewrite Forall_forall in H1.
    destruct (H1 h Hh) as [[Ha [Hb [Hc' Hd']]] _].
    rewrite Hd'. split; [| auto].
    rewrite at_nat by lia. rewrite Z.sub_0_r in Hb. exact Hb.
  - intros i t Hi Ht. destruct (H3 i t Hi Ht) as [h [Hin Hn]].
    exists h. split; [exact Hin | lia].
Qed.

Lemma client_hits_exact_witness :
  exists hits,
    Client.findAllOccurrences loadedClient (Js.lit "spark") = Some (Ok hits)
    /\ map Client.Hit.lineNum hits = [3; 4]
    /\ map Client.Hit.page hits = [7; 7].
Proof.
  destruct (client_hits_exact loadedClient sampleData (Js.lit "spark")
              (literalPattern (Js.lit "spark")) eq_refl eq_refl)
    as [hits [H _]]; [vm_compute; reflexivity |].
  exists hits. split; [exact H |].
  vm_compute in H. injection H as <-. split; reflexivity.
Defined.

(** ** The size of the enhanced information *)

(** X23.  Whatever the index holds and whatever is asked, the text that
    [getEnhancedContext] returns has at most 1500 units, also when the
    search for the selection throws and the text gathered before it is
    returned. *)
Theorem getEnhancedContext_bounded (st : MMDIndexServer) (markdown : list N)
    (selectedText : option (list N)) (request : list N) :
  lenZ (getEnhancedContext st markdown selectedText request) <= 1500.
Proof.
  unfold getEnhancedContext.
  destruct (negb (loaded st)); [unfold lenZ; simpl; lia |].
  cbv zeta.
  destruct (enhancedSelection st selectedText (enhancedChapters st request []));
    apply length_substring_prefix; lia.
Qed.
